(** * fredLoan: the Ledger engine over its store

    A shallow embedding of [pkg/models/models.go], [pkg/store/sqlite.go],
    [pkg/ledger/ledger.go] and the handlers of [cmd/api/main.go], followed
    by the properties of the Ledger engine and of the code around it.

    Conventions of the embedding:
    - a [decimal.Decimal] is a coefficient and a base-10 exponent, as in
      [github.com/shopspring/decimal] v1.4.0 (the version of [go.mod]);
    - a [time.Time] is an instant in nanoseconds since the Unix epoch;
    - a [uuid.UUID] is a 128-bit number;
    - every value the Go code obtains from its surroundings ([time.Now()],
      [uuid.New()], the random source, the answer of the database driver) is
      an explicit argument, gathered in a record per engine operation;
    - the lines written with [fmt.Printf] are a list of events. *)

From Stdlib Require Import ZArith QArith Qpower Qabs List String Bool Lia Lqa.
From Stdlib Require Import Sorted Permutation.
Import ListNotations.

(** ** Decimal arithmetic ([github.com/shopspring/decimal])

    Only the part of the library the engine calls.  The exponent is an [int32]
    in Go; the library panics when a product's or quotient's exponent leaves
    that range.  Exponents are unbounded here. *)

Module decimal.

Open Scope Z_scope.

(** [type Decimal struct { value *big.Int; exp int32 }], the number
    [value * 10 ^ exp]. *)
Record Decimal : Type := New { value : Z; exp : Z }.

(** [var Zero = New(0, 1)] *)
Definition Zero : Decimal := New 0 1.

(** [func NewFromInt(value int64) Decimal] *)
Definition NewFromInt (v : Z) : Decimal := New v 0.

(** [var DivisionPrecision = 16] *)
Definition DivisionPrecision : Z := 16.

(** [func (d Decimal) rescale(exp int32) Decimal] *)
Definition rescale (d : Decimal) (e : Z) : Decimal :=
  if exp d =? e then d
  else
    let diff := Z.abs (e - exp d) in
    let expScale := 10 ^ diff in
    if exp d <? e then New (Z.quot (value d) expScale) e
    else New (value d * expScale) e.

(** [func RescalePair(d1 Decimal, d2 Decimal) (Decimal, Decimal)] *)
Definition RescalePair (d1 d2 : Decimal) : Decimal * Decimal :=
  if exp d1 <? exp d2 then (d1, rescale d2 (exp d1))
  else if exp d2 <? exp d1 then (rescale d1 (exp d2), d2)
  else (d1, d2).

(** [func (d Decimal) Add(d2 Decimal) Decimal] *)
Definition Add (d d2 : Decimal) : Decimal :=
  let '(rd, rd2) := RescalePair d d2 in
  New (value rd + value rd2) (exp rd).

(** [func (d Decimal) Sub(d2 Decimal) Decimal] *)
Definition Sub (d d2 : Decimal) : Decimal :=
  let '(rd, rd2) := RescalePair d d2 in
  New (value rd - value rd2) (exp rd).

(** [func (d Decimal) Mul(d2 Decimal) Decimal] *)
Definition Mul (d d2 : Decimal) : Decimal :=
  New (value d * value d2) (exp d + exp d2).

(** [func (d Decimal) Abs() Decimal] *)
Definition Abs (d : Decimal) : Decimal := New (Z.abs (value d)) (exp d).

(** [func (d Decimal) Cmp(d2 Decimal) int]: -1, 0 or +1 as [Lt], [Eq], [Gt]. *)
Definition Cmp (d d2 : Decimal) : comparison :=
  if exp d =? exp d2 then value d ?= value d2
  else
    let '(rd, rd2) := RescalePair d d2 in
    value rd ?= value rd2.

(** [func (d Decimal) Equal(d2 Decimal) bool] *)
Definition Equal (d d2 : Decimal) : bool :=
  match Cmp d d2 with Eq => true | _ => false end.

(** [func (d Decimal) GreaterThan(d2 Decimal) bool] *)
Definition GreaterThan (d d2 : Decimal) : bool :=
  match Cmp d d2 with Gt => true | _ => false end.

(** [func (d Decimal) LessThanOrEqual(d2 Decimal) bool] *)
Definition LessThanOrEqual (d d2 : Decimal) : bool :=
  match Cmp d d2 with Lt | Eq => true | Gt => false end.

(** [func (d Decimal) QuoRem(d2 Decimal, precision int32) (Decimal, Decimal)].
    [big.Int.QuoRem] truncates toward zero, as [Z.quot] and [Z.rem] do.
    Division by zero panics in Go; [Z.quot] gives 0 there. *)
Definition QuoRem (d d2 : Decimal) (precision : Z) : Decimal * Decimal :=
  let scale := - precision in
  let e := exp d - exp d2 - scale in
  let '(aa, bb, scalerest) :=
    if e <? 0
    then (value d, value d2 * 10 ^ (- e), exp d)
    else (value d * 10 ^ e, value d2, scale + exp d2) in
  (New (Z.quot aa bb) scale, New (Z.rem aa bb) scalerest).

(** [func (d Decimal) DivRound(d2 Decimal, precision int32) Decimal]:
    the quotient rounded to a multiple of [10 ^ -precision], a half away
    from zero. *)
Definition DivRound (d d2 : Decimal) (precision : Z) : Decimal :=
  let '(q, r) := QuoRem d d2 precision in
  let rv2 := Z.shiftl (Z.abs (value r)) 1 in
  let r2 := New rv2 (exp r + precision) in
  match Cmp r2 (Abs d2) with
  | Lt => q
  | _ =>
      if Z.sgn (value d) * Z.sgn (value d2) <? 0
      then Sub q (New 1 (- precision))
      else Add q (New 1 (- precision))
  end.

(** [func (d Decimal) Div(d2 Decimal) Decimal] *)
Definition Div (d d2 : Decimal) : Decimal := DivRound d d2 DivisionPrecision.

(** The rational number a [Decimal] stands for. *)
Definition toQ (d : Decimal) : Q :=
  (inject_Z (value d) * (10 # 1) ^ exp d)%Q.

End decimal.

Import decimal.

(** ** Values from outside the program *)

(** [uuid.UUID], 16 bytes read as a number. *)
Definition UUID : Type := N.

(** [time.Time]: nanoseconds since the Unix epoch (an instant; [UTC()] does
    not change it). *)
Definition Time : Type := Z.

(** [time.Hour], a [time.Duration] in nanoseconds. *)
Definition Hour : Z := 3600 * 1000000000.

(** [func (t Time) Truncate(d Duration) Time]: [t] rounded down to a multiple
    of [d] since the zero time.  The zero time and the Unix epoch are a whole
    number of days apart, so for the multiples of a day used here the
    multiples since the epoch are the same instants. *)
Definition Truncate (t : Time) (d : Z) : Time :=
  if (d <=? 0)%Z then t else (t - t mod d)%Z.

(** A Go [error], by its message. *)
Definition error : Type := string.

(** A Go result pair [(v, err)]. *)
Inductive result (A : Type) : Type :=
| Ok (v : A)
| Err (e : error).
Arguments Ok {A} v.
Arguments Err {A} e.

(** [fmt.Errorf(prefix + ": %w", err)] *)
Definition wrap (prefix : string) (e : error) : error :=
  (prefix ++ ": " ++ e)%string.

(** ** [pkg/models] *)

Module models.

Record Loan : Type := mkLoan {
  ID : UUID;
  CustomerKey : string;
  Principal : Decimal;
  Balance : Decimal;
  BaseInterestRate : Decimal;
  InterestRateVariance : Decimal;
  InterestRate : Decimal;
  Status : string;
  CreatedAt : Time;
  UpdatedAt : Time;
  LastInterestCalculationDate : option Time;
  StatementCycleDay : Z;
  AccruedInterest : Decimal
}.

Inductive TransactionType : Type :=
| TransactionTypeDisbursement
| TransactionTypePayment
| TransactionTypeInterest.

(** [TxID] is the field [ID] of the Go struct. *)
Record Transaction : Type := mkTransaction {
  TxID : UUID;
  LoanID : UUID;
  Amount : Decimal;
  Type_ : TransactionType;
  Timestamp : Time
}.

Definition TransactionType_eqb (a b : TransactionType) : bool :=
  match a, b with
  | TransactionTypeDisbursement, TransactionTypeDisbursement
  | TransactionTypePayment, TransactionTypePayment
  | TransactionTypeInterest, TransactionTypeInterest => true
  | _, _ => false
  end.

(** Assignments to single fields of a [*models.Loan]. *)
Definition set_Balance (v : Decimal) (l : Loan) : Loan :=
  mkLoan (ID l) (CustomerKey l) (Principal l) v (BaseInterestRate l)
    (InterestRateVariance l) (InterestRate l) (Status l) (CreatedAt l)
    (UpdatedAt l) (LastInterestCalculationDate l) (StatementCycleDay l)
    (AccruedInterest l).

Definition set_Status (v : string) (l : Loan) : Loan :=
  mkLoan (ID l) (CustomerKey l) (Principal l) (Balance l) (BaseInterestRate l)
    (InterestRateVariance l) (InterestRate l) v (CreatedAt l)
    (UpdatedAt l) (LastInterestCalculationDate l) (StatementCycleDay l)
    (AccruedInterest l).

Definition set_CreatedAt (v : Time) (l : Loan) : Loan :=
  mkLoan (ID l) (CustomerKey l) (Principal l) (Balance l) (BaseInterestRate l)
    (InterestRateVariance l) (InterestRate l) (Status l) v
    (UpdatedAt l) (LastInterestCalculationDate l) (StatementCycleDay l)
    (AccruedInterest l).

Definition set_UpdatedAt (v : Time) (l : Loan) : Loan :=
  mkLoan (ID l) (CustomerKey l) (Principal l) (Balance l) (BaseInterestRate l)
    (InterestRateVariance l) (InterestRate l) (Status l) (CreatedAt l)
    v (LastInterestCalculationDate l) (StatementCycleDay l)
    (AccruedInterest l).

Definition set_LastInterestCalculationDate (v : option Time) (l : Loan) : Loan :=
  mkLoan (ID l) (CustomerKey l) (Principal l) (Balance l) (BaseInterestRate l)
    (InterestRateVariance l) (InterestRate l) (Status l) (CreatedAt l)
    (UpdatedAt l) v (StatementCycleDay l)
    (AccruedInterest l).

Definition set_AccruedInterest (v : Decimal) (l : Loan) : Loan :=
  mkLoan (ID l) (CustomerKey l) (Principal l) (Balance l) (BaseInterestRate l)
    (InterestRateVariance l) (InterestRate l) (Status l) (CreatedAt l)
    (UpdatedAt l) (LastInterestCalculationDate l) (StatementCycleDay l)
    v.

End models.

Import models.

(** ** [pkg/store]: the SQLite store

    The two tables, rows in insertion order.  A statement either takes effect
    or returns an error and changes nothing.  What the driver answers is the
    argument [fault] of each operation: [Some msg] when [db.Exec], [db.Query]
    or [Scan] returns an error with that message (an I/O error, or a
    constraint of the [transactions] table: its primary key and its foreign
    key to [loans]), [None] otherwise.  The primary key of [loans] is checked
    on the rows themselves.  Decimals are stored as their decimal text and
    read back as the same number; the rows keep the [Decimal] itself.

    The engine sees the store through the interface [store.Storage] only.
    The [MockStore] of [ledger_test.go] is the case in which no call ever
    fails: it hands out the stored records themselves, so what the engine
    assigns to a loan is in the store at once, and every [UpdateLoan] that
    follows stores the same record again. *)

Module store.

Record SQLiteStore : Type := mkStore {
  loans : list Loan;
  transactions : list Transaction
}.

Definition empty : SQLiteStore := mkStore [] [].

Definition hasLoan (id : UUID) (s : SQLiteStore) : bool :=
  existsb (fun r => N.eqb (ID r) id) (loans s).

(** [func (s *SQLiteStore) CreateLoan(loan *models.Loan) error] *)
Definition CreateLoan (fault : option error) (loan : Loan) (s : SQLiteStore)
  : result SQLiteStore :=
  match fault with
  | Some e => Err (wrap "failed to create loan"%string e)
  | None =>
      if hasLoan (ID loan) s
      then Err (wrap "failed to create loan"%string "UNIQUE constraint failed: loans.id"%string)
      else Ok (mkStore (loans s ++ [loan]) (transactions s))
  end.

(** [func (s *SQLiteStore) GetLoan(id uuid.UUID) ( *models.Loan, error)] *)
Definition GetLoan (fault : option error) (id : UUID) (s : SQLiteStore)
  : result Loan :=
  match fault with
  | Some e => Err (wrap "failed to get loan"%string e)
  | None =>
      match find (fun r => N.eqb (ID r) id) (loans s) with
      | Some loan => Ok loan
      | None => Err "loan not found"%string
      end
  end.

(** [func (s *SQLiteStore) UpdateLoan(loan *models.Loan) error]: the
    [UPDATE ... WHERE id = ?] sets every column but [id] and [created_at]. *)
Definition UpdateLoan (fault : option error) (loan : Loan) (s : SQLiteStore)
  : result SQLiteStore :=
  match fault with
  | Some e => Err (wrap "failed to update loan"%string e)
  | None =>
      if hasLoan (ID loan) s
      then Ok (mkStore
                 (map (fun r => if N.eqb (ID r) (ID loan)
                                then set_CreatedAt (CreatedAt r) loan
                                else r) (loans s))
                 (transactions s))
      else Err "loan not found"%string
  end.

(** [func (s *SQLiteStore) DeleteLoan(id uuid.UUID) error]: both [DELETE]s
    in one database transaction, rolled back on every error path.  [fault]
    is the error of the statement that failed, with the prefix the function
    gives it. *)
Definition DeleteLoan (fault : option error) (id : UUID) (s : SQLiteStore)
  : result SQLiteStore :=
  match fault with
  | Some e => Err e
  | None =>
      if hasLoan id s
      then Ok (mkStore
                 (filter (fun r => negb (N.eqb (ID r) id)) (loans s))
                 (filter (fun t => negb (N.eqb (LoanID t) id)) (transactions s)))
      else Err "loan not found"%string
  end.

(** [func (s *SQLiteStore) GetAllLoans() ([]*models.Loan, error)] *)
Definition GetAllLoans (fault : option error) (s : SQLiteStore)
  : result (list Loan) :=
  match fault with
  | Some e => Err (wrap "failed to get all loans"%string e)
  | None => Ok (loans s)
  end.

Definition isActive (r : Loan) : bool := String.eqb (Status r) "active".

(** [func (s *SQLiteStore) GetAllActiveLoans() ([]*models.Loan, error)] *)
Definition GetAllActiveLoans (fault : option error) (s : SQLiteStore)
  : result (list Loan) :=
  match fault with
  | Some e => Err (wrap "failed to get all active loans"%string e)
  | None => Ok (filter isActive (loans s))
  end.

(** [func (s *SQLiteStore) CreateTransaction(transaction *models.Transaction) error] *)
Definition CreateTransaction (fault : option error) (transaction : Transaction)
  (s : SQLiteStore) : result SQLiteStore :=
  match fault with
  | Some e => Err (wrap "failed to create transaction"%string e)
  | None => Ok (mkStore (loans s) (transactions s ++ [transaction]))
  end.

(** The [timestamp] column of a row.  The driver (mattn/go-sqlite3) binds a
    [time.Time] as text, the wall clock of its location followed by the zone
    offset, in the layout [2006-01-02 15:04:05.999999999-07:00].  The text
    depends on the location of the [time.Time], which [Time] does not hold,
    so it is read from the driver: a [TimestampColumn] gives the text stored
    for a row. *)
Definition TimestampColumn : Type := Transaction -> string.

(** The [ORDER BY timestamp ASC] of [GetTransactionsForLoan]: SQLite compares
    the stored texts byte by byte, so [t] goes before the first row whose
    text is not smaller than its own.  SQL leaves the order of rows of equal
    text open; here they keep the order of the table. *)
Fixpoint insertByTimestamp (column : TimestampColumn) (t : Transaction)
  (ts : list Transaction) : list Transaction :=
  match ts with
  | [] => [t]
  | x :: rest =>
      if String.leb (column t) (column x) then t :: x :: rest
      else x :: insertByTimestamp column t rest
  end.

Definition orderByTimestamp (column : TimestampColumn)
  (ts : list Transaction) : list Transaction :=
  fold_right (insertByTimestamp column) [] ts.

(** [func (s *SQLiteStore) GetTransactionsForLoan(loanID uuid.UUID)
    ([]*models.Transaction, error)]; [fault] is the error with the prefix the
    function gives it, [column] the text of the [timestamp] column. *)
Definition GetTransactionsForLoan (fault : option error)
  (column : TimestampColumn) (loanID : UUID) (s : SQLiteStore)
  : result (list Transaction) :=
  match fault with
  | Some e => Err e
  | None =>
      Ok (orderByTimestamp column
            (filter (fun t => N.eqb (LoanID t) loanID) (transactions s)))
  end.

(** [func isDuplicateColumnError(err error) bool]; a nil error is [None]. *)
Definition isDuplicateColumnError (err : option error) : bool :=
  match err with
  | None => false
  | Some msg =>
      String.eqb msg "duplicate column name"
      || ((21 <? String.length msg)%nat
          && String.eqb (substring 0 21 msg) "duplicate column name")
  end.

(** The [columns] of the migration in [initSchema]. *)
Definition columns : list string :=
  ["last_interest_calculation_date DATETIME"%string;
   "statement_cycle_day INTEGER NOT NULL DEFAULT 1"%string;
   "accrued_interest TEXT NOT NULL DEFAULT '0'"%string;
   "base_interest_rate TEXT NOT NULL DEFAULT '0'"%string;
   "interest_rate_variance TEXT NOT NULL DEFAULT '0'"%string].

(** The loop of [initSchema] over the columns; [exec] is what [s.db.Exec]
    answers to a statement. *)
Fixpoint addColumns (exec : string -> option error) (cols : list string)
  : option error :=
  match cols with
  | [] => None
  | col :: rest =>
      let err := exec ("ALTER TABLE loans ADD COLUMN " ++ col)%string in
      match err with
      | Some e =>
          if negb (isDuplicateColumnError err)
          then Some (wrap ("failed to add column " ++ col)%string e)
          else addColumns exec rest
      | None => addColumns exec rest
      end
  end.

(** [func (s *SQLiteStore) initSchema() error]; [schemaAnswer] is the answer
    to the two [CREATE TABLE IF NOT EXISTS] statements. *)
Definition initSchema (schemaAnswer : option error)
  (exec : string -> option error) : option error :=
  match schemaAnswer with
  | Some e => Some e
  | None => addColumns exec columns
  end.

End store.

Import store.

(** ** [pkg/ledger]: the Ledger engine *)

Module ledger.

Definition minStatementDay : Z := 1.
Definition maxStatementDay : Z := 28.

(** [daysInYear = decimal.NewFromInt(365)] *)
Definition daysInYear : Decimal := NewFromInt 365.

(** [func (r *Rand) Intn(n int) int]: for an [n] that is not a power of two
    the library draws 31-bit numbers from the source until one is below the
    largest multiple of [n], and returns it modulo [n]; [src] is that
    draw. *)
Definition Intn (src : Z) (n : Z) : Z := (src mod n)%Z.

(** [func (l *Ledger) assignStatementCycleDay() int] *)
Definition assignStatementCycleDay (src : Z) : Z :=
  (Intn src (maxStatementDay - minStatementDay + 1) + minStatementDay)%Z.

(** The lines the batch passes print. *)
Inductive Event : Type :=
| LogGetActiveLoansError (e : error)
| LogAlreadyCalculated (loan : UUID)
| LogUpdateError (loan : UUID) (e : error)
| LogAccrued (loan : UUID) (interestAmount total : Decimal)
| LogTransactionError (loan : UUID) (e : error)
| LogApplied (loan : UUID) (interest balance : Decimal)
| LogNoAccruedInterest (loan : UUID).

(** *** CreateLoan *)

(** What one call of [CreateLoan] reads from outside, in program order. *)
Record CreateEnv : Type := mkCreateEnv {
  ce_loanID : UUID;                (* uuid.New() *)
  ce_createdAt : Time;             (* time.Now() *)
  ce_updatedAt : Time;             (* time.Now() *)
  ce_rand : Z;                     (* the draw of l.randSrc *)
  ce_loanFault : option error;     (* driver, storage.CreateLoan *)
  ce_txID : UUID;                  (* uuid.New() *)
  ce_txTime : Time;                (* time.Now() *)
  ce_txFault : option error        (* driver, storage.CreateTransaction *)
}.

(** [func (l *Ledger) CreateLoan(customerKey string, principal, baseRate,
    variance decimal.Decimal) ( *models.Loan, error)] *)
Definition CreateLoan (env : CreateEnv) (customerKey : string)
  (principal baseRate variance : Decimal) (s : SQLiteStore)
  : result Loan * SQLiteStore :=
  let loan := {|
    ID := ce_loanID env;
    CustomerKey := customerKey;
    Principal := principal;
    Balance := principal;
    BaseInterestRate := baseRate;
    InterestRateVariance := variance;
    InterestRate := Add baseRate variance;
    Status := "active";
    CreatedAt := ce_createdAt env;
    UpdatedAt := ce_updatedAt env;
    LastInterestCalculationDate := None;
    StatementCycleDay := assignStatementCycleDay (ce_rand env);
    AccruedInterest := Zero
  |} in
  match store.CreateLoan (ce_loanFault env) loan s with
  | Err err => (Err (wrap "failed to store loan"%string err), s)
  | Ok s1 =>
      let transaction := {|
        TxID := ce_txID env;
        LoanID := ID loan;
        Amount := principal;
        Type_ := TransactionTypeDisbursement;
        Timestamp := ce_txTime env
      |} in
      match store.CreateTransaction (ce_txFault env) transaction s1 with
      | Err err =>
          (Err (wrap "failed to store disbursement transaction"%string err), s1)
      | Ok s2 => (Ok loan, s2)
      end
  end.

(** *** CalculateDailyInterest *)

(** What one pass reads from outside; the reads made while a loan is
    processed are indexed by that loan's id. *)
Record AccrualEnv : Type := mkAccrualEnv {
  ae_listFault : option error;            (* driver, GetAllActiveLoans *)
  ae_now : Time;                          (* time.Now(), for today *)
  ae_updatedAt : UUID -> Time;            (* time.Now() *)
  ae_updateFault : UUID -> option error   (* driver, UpdateLoan *)
}.

(** [loan.LastInterestCalculationDate != nil &&
     loan.LastInterestCalculationDate.UTC().Truncate(24*time.Hour).Equal(today)] *)
Definition calculatedToday (loan : Loan) (today : Time) : bool :=
  match LastInterestCalculationDate loan with
  | None => false
  | Some d => (Truncate d (24 * Hour) =? today)%Z
  end.

(** [interestAmount] of the loop body. *)
Definition interestAmount (loan : Loan) : Decimal :=
  let dailyRate := Div (InterestRate loan) daysInYear in
  Mul (Balance loan) dailyRate.

(** The body of the loop of [CalculateDailyInterest]. *)
Definition accrueLoan (env : AccrualEnv) (today : Time)
  (st : SQLiteStore * list Event) (loan : Loan) : SQLiteStore * list Event :=
  let '(s, out) := st in
  if calculatedToday loan today
  then (s, out ++ [LogAlreadyCalculated (ID loan)])
  else
    if GreaterThan (interestAmount loan) Zero
    then
      let loan1 :=
        set_LastInterestCalculationDate (Some today)
          (set_UpdatedAt (ae_updatedAt env (ID loan))
             (set_AccruedInterest
                (Add (AccruedInterest loan) (interestAmount loan)) loan)) in
      match store.UpdateLoan (ae_updateFault env (ID loan)) loan1 s with
      | Err err => (s, out ++ [LogUpdateError (ID loan) err])
      | Ok s1 =>
          (s1, out ++ [LogAccrued (ID loan) (interestAmount loan)
                         (AccruedInterest loan1)])
      end
    else (s, out).

(** [func (l *Ledger) CalculateDailyInterest()] *)
Definition CalculateDailyInterest (env : AccrualEnv) (s : SQLiteStore)
  : SQLiteStore * list Event :=
  match store.GetAllActiveLoans (ae_listFault env) s with
  | Err err => (s, [LogGetActiveLoansError err])
  | Ok loans =>
      let today := Truncate (ae_now env) (24 * Hour) in
      fold_left (accrueLoan env today) loans (s, [])
  end.

(** *** ApplyMonthlyInterest *)

Record MonthlyEnv : Type := mkMonthlyEnv {
  me_listFault : option error;            (* driver, GetAllActiveLoans *)
  me_todayDay : Z;                        (* time.Now().Day() *)
  me_updatedAt : UUID -> Time;            (* time.Now() *)
  me_txID : UUID -> UUID;                 (* uuid.New() *)
  me_txTime : UUID -> Time;               (* time.Now() *)
  me_txFault : UUID -> option error;      (* driver, CreateTransaction *)
  me_updateFault : UUID -> option error   (* driver, UpdateLoan *)
}.

(** The body of the loop of [ApplyMonthlyInterest]. *)
Definition applyLoan (env : MonthlyEnv) (todayDay : Z)
  (st : SQLiteStore * list Event) (loan : Loan) : SQLiteStore * list Event :=
  let '(s, out) := st in
  if (StatementCycleDay loan =? todayDay)%Z
  then
    if GreaterThan (AccruedInterest loan) Zero
    then
      let loan1 :=
        set_UpdatedAt (me_updatedAt env (ID loan))
          (set_Balance (Add (Balance loan) (AccruedInterest loan)) loan) in
      let transaction := {|
        TxID := me_txID env (ID loan);
        LoanID := ID loan1;
        Amount := AccruedInterest loan1;
        Type_ := TransactionTypeInterest;
        Timestamp := me_txTime env (ID loan)
      |} in
      match store.CreateTransaction (me_txFault env (ID loan)) transaction s with
      | Err err => (s, out ++ [LogTransactionError (ID loan) err])
      | Ok s1 =>
          let out1 :=
            out ++ [LogApplied (ID loan) (AccruedInterest loan1) (Balance loan1)] in
          let loan2 := set_AccruedInterest Zero loan1 in
          match store.UpdateLoan (me_updateFault env (ID loan)) loan2 s1 with
          | Err err => (s1, out1 ++ [LogUpdateError (ID loan) err])
          | Ok s2 => (s2, out1)
          end
      end
    else (s, out ++ [LogNoAccruedInterest (ID loan)])
  else (s, out).

(** [func (l *Ledger) ApplyMonthlyInterest()] *)
Definition ApplyMonthlyInterest (env : MonthlyEnv) (s : SQLiteStore)
  : SQLiteStore * list Event :=
  match store.GetAllActiveLoans (me_listFault env) s with
  | Err err => (s, [LogGetActiveLoansError err])
  | Ok loans =>
      let todayDay := me_todayDay env in
      fold_left (applyLoan env todayDay) loans (s, [])
  end.

(** *** Retrieval, update, deletion *)

(** [func (l *Ledger) GetLoan(id uuid.UUID) ( *models.Loan, error)] *)
Definition GetLoan (fault : option error) (id : UUID) (s : SQLiteStore)
  : result Loan := store.GetLoan fault id s.

(** [func (l *Ledger) GetAllLoans() ([]*models.Loan, error)] *)
Definition GetAllLoans (fault : option error) (s : SQLiteStore)
  : result (list Loan) := store.GetAllLoans fault s.

(** [func (l *Ledger) UpdateLoan(loan *models.Loan) error]; [now] is the
    [time.Now()] it reads. *)
Definition UpdateLoan (now : Time) (fault : option error) (loan : Loan)
  (s : SQLiteStore) : result SQLiteStore :=
  store.UpdateLoan fault (set_UpdatedAt now loan) s.

(** [func (l *Ledger) DeleteLoan(id uuid.UUID) error] *)
Definition DeleteLoan (fault : option error) (id : UUID) (s : SQLiteStore)
  : result SQLiteStore := store.DeleteLoan fault id s.

(** *** RecordPayment *)

Record PaymentEnv : Type := mkPaymentEnv {
  pe_getFault : option error;      (* driver, GetLoan *)
  pe_updatedAt : Time;             (* time.Now() *)
  pe_updateFault : option error;   (* driver, UpdateLoan *)
  pe_txID : UUID;                  (* uuid.New() *)
  pe_txTime : Time;                (* time.Now() *)
  pe_txFault : option error        (* driver, CreateTransaction *)
}.

(** The loan as [RecordPayment] has changed it when it calls
    [storage.UpdateLoan]. *)
Definition paidLoan (env : PaymentEnv) (amount : Decimal) (loan : Loan) : Loan :=
  let loan1 :=
    set_UpdatedAt (pe_updatedAt env)
      (set_Balance (Sub (Balance loan) amount) loan) in
  if LessThanOrEqual (Balance loan1) Zero
  then set_Balance Zero (set_Status "closed" loan1)
  else loan1.

(** [func (l *Ledger) RecordPayment(loanID uuid.UUID, amount decimal.Decimal)
    ( *models.Transaction, error)] *)
Definition RecordPayment (env : PaymentEnv) (loanID : UUID) (amount : Decimal)
  (s : SQLiteStore) : result Transaction * SQLiteStore :=
  match store.GetLoan (pe_getFault env) loanID s with
  | Err err => (Err err, s)
  | Ok loan =>
      if negb (String.eqb (Status loan) "active")
      then (Err "loan is not active"%string, s)
      else
        let loan1 := paidLoan env amount loan in
        match store.UpdateLoan (pe_updateFault env) loan1 s with
        | Err err => (Err (wrap "failed to update loan balance"%string err), s)
        | Ok s1 =>
            let transaction := {|
              TxID := pe_txID env;
              LoanID := ID loan1;
              Amount := amount;
              Type_ := TransactionTypePayment;
              Timestamp := pe_txTime env
            |} in
            match store.CreateTransaction (pe_txFault env) transaction s1 with
            | Err err =>
                (Err (wrap "failed to store payment transaction"%string err), s1)
            | Ok s2 => (Ok transaction, s2)
            end
        end
  end.

End ledger.

(** ** [cmd/api]: the handlers and the ticker *)

Module api.

Inductive Body : Type :=
| Text (msg : string)             (* http.Error *)
| Json (transaction : Transaction).

Record Response : Type := mkResponse { Code : Z; Payload : Body }.

Definition StatusCreated : Z := 201.
Definition StatusBadRequest : Z := 400.
Definition StatusNotFound : Z := 404.
Definition StatusInternalServerError : Z := 500.

(** The request as the handler sees it: [uuid.Parse(vars["id"])] and the
    [amount] decoded from the JSON body. *)
Record PaymentRequest : Type := mkPaymentRequest {
  req_id : option UUID;
  req_amount : result Decimal
}.

(** [func (s *Server) recordPaymentHandler(w http.ResponseWriter, r *http.Request)] *)
Definition recordPaymentHandler (env : ledger.PaymentEnv) (r : PaymentRequest)
  (s : SQLiteStore) : Response * SQLiteStore :=
  match req_id r with
  | None => (mkResponse StatusBadRequest (Text "Invalid loan ID"), s)
  | Some loanID =>
      match req_amount r with
      | Err err => (mkResponse StatusBadRequest (Text err), s)
      | Ok amount =>
          if LessThanOrEqual amount Zero
          then (mkResponse StatusBadRequest (Text "Amount must be positive"), s)
          else
            match ledger.RecordPayment env loanID amount s with
            | (Err err, s1) =>
                if String.eqb err "loan not found"
                then (mkResponse StatusNotFound (Text "Loan not found"), s1)
                else (mkResponse StatusInternalServerError (Text err), s1)
            | (Ok tx, s1) => (mkResponse StatusCreated (Json tx), s1)
            end
      end
  end.

(** *** The loan handlers *)

Inductive LoanBody : Type :=
| ErrorText (msg : string)         (* http.Error *)
| LoanJson (loan : Loan)
| LoansJson (loans : list Loan)
| NoBody.

Record LoanResponse : Type := mkLoanResponse {
  LoanCode : Z;
  LoanPayload : LoanBody
}.

Definition StatusOK : Z := 200.
Definition StatusNoContent : Z := 204.

(** The body of a [POST /loans] as decoded. *)
Record CreateRequest : Type := mkCreateRequest {
  cr_customerKey : string;
  cr_principal : Decimal;
  cr_baseInterestRate : Decimal;
  cr_interestRateVariance : Decimal
}.

(** [func (s *Server) createLoanHandler(w http.ResponseWriter, r *http.Request)];
    [body] is the result of decoding the JSON body. *)
Definition createLoanHandler (env : ledger.CreateEnv) (body : result CreateRequest)
  (s : SQLiteStore) : LoanResponse * SQLiteStore :=
  match body with
  | Err err => (mkLoanResponse StatusBadRequest (ErrorText err), s)
  | Ok req =>
      match ledger.CreateLoan env (cr_customerKey req) (cr_principal req)
              (cr_baseInterestRate req) (cr_interestRateVariance req) s with
      | (Err err, s1) =>
          (mkLoanResponse StatusInternalServerError
             (ErrorText ("Failed to create loan: " ++ err)), s1)
      | (Ok loan, s1) => (mkLoanResponse StatusCreated (LoanJson loan), s1)
      end
  end.

(** The answer to an error of the engine, as the loan handlers give it. *)
Definition errorResponse (err : error) : LoanResponse :=
  if String.eqb err "loan not found"
  then mkLoanResponse StatusNotFound (ErrorText "Loan not found")
  else mkLoanResponse StatusInternalServerError (ErrorText err).

(** [func (s *Server) getLoanHandler(w http.ResponseWriter, r *http.Request)];
    [id] is [uuid.Parse(vars["id"])]. *)
Definition getLoanHandler (fault : option error) (id : option UUID)
  (s : SQLiteStore) : LoanResponse :=
  match id with
  | None => mkLoanResponse StatusBadRequest (ErrorText "Invalid loan ID")
  | Some loanID =>
      match ledger.GetLoan fault loanID s with
      | Err err => errorResponse err
      | Ok loan => mkLoanResponse StatusOK (LoanJson loan)
      end
  end.

(** [func (s *Server) listLoansHandler(w http.ResponseWriter, r *http.Request)] *)
Definition listLoansHandler (fault : option error) (s : SQLiteStore)
  : LoanResponse :=
  match ledger.GetAllLoans fault s with
  | Err err => mkLoanResponse StatusInternalServerError (ErrorText err)
  | Ok loans => mkLoanResponse StatusOK (LoansJson loans)
  end.

(** [func (s *Server) updateLoanHandler(w http.ResponseWriter, r *http.Request)];
    [body] is the loan decoded from the JSON body.  The engine assigns
    [UpdatedAt] through the pointer it is given, so the loan the handler
    encodes carries it. *)
Definition updateLoanHandler (now : Time) (fault : option error)
  (id : option UUID) (body : result Loan) (s : SQLiteStore)
  : LoanResponse * SQLiteStore :=
  match id with
  | None => (mkLoanResponse StatusBadRequest (ErrorText "Invalid loan ID"), s)
  | Some loanID =>
      match body with
      | Err err => (mkLoanResponse StatusBadRequest (ErrorText err), s)
      | Ok decoded =>
          let loan :=
            mkLoan loanID (CustomerKey decoded) (Principal decoded)
              (Balance decoded) (BaseInterestRate decoded)
              (InterestRateVariance decoded) (InterestRate decoded)
              (Status decoded) (CreatedAt decoded) (UpdatedAt decoded)
              (LastInterestCalculationDate decoded) (StatementCycleDay decoded)
              (AccruedInterest decoded) in
          match ledger.UpdateLoan now fault loan s with
          | Err err => (errorResponse err, s)
          | Ok s1 =>
              (mkLoanResponse StatusOK (LoanJson (set_UpdatedAt now loan)), s1)
          end
      end
  end.

(** [func (s *Server) deleteLoanHandler(w http.ResponseWriter, r *http.Request)] *)
Definition deleteLoanHandler (fault : option error) (id : option UUID)
  (s : SQLiteStore) : LoanResponse * SQLiteStore :=
  match id with
  | None => (mkLoanResponse StatusBadRequest (ErrorText "Invalid loan ID"), s)
  | Some loanID =>
      match ledger.DeleteLoan fault loanID s with
      | Err err => (errorResponse err, s)
      | Ok s1 => (mkLoanResponse StatusNoContent NoBody, s1)
      end
  end.

(** One turn of the ticker loop of [main]: the daily interest calculation,
    then the monthly interest application. *)
Definition tick (daily : ledger.AccrualEnv) (monthly : ledger.MonthlyEnv)
  (s : SQLiteStore) : SQLiteStore :=
  fst (ledger.ApplyMonthlyInterest monthly
         (fst (ledger.CalculateDailyInterest daily s))).

End api.

Import ledger.

(** ** Sequences of engine operations and the quantities of the ledger *)

(** One call of the engine, with what it reads from outside. *)
Inductive Op : Type :=
| OpCreateLoan (env : CreateEnv) (customerKey : string)
    (principal baseRate variance : Decimal)
| OpCalculateDailyInterest (env : AccrualEnv)
| OpApplyMonthlyInterest (env : MonthlyEnv)
| OpRecordPayment (env : PaymentEnv) (loanID : UUID) (amount : Decimal).

(** The store after one call. *)
Definition step (s : SQLiteStore) (op : Op) : SQLiteStore :=
  match op with
  | OpCreateLoan env k p b v => snd (CreateLoan env k p b v s)
  | OpCalculateDailyInterest env => fst (CalculateDailyInterest env s)
  | OpApplyMonthlyInterest env => fst (ApplyMonthlyInterest env s)
  | OpRecordPayment env id a => snd (RecordPayment env id a s)
  end.

(** The store after a sequence of calls, one after the other. *)
Definition run (ops : list Op) (s : SQLiteStore) : SQLiteStore :=
  fold_left step ops s.

(** The driver reports no error during the call. *)
Definition faultless (op : Op) : Prop :=
  match op with
  | OpCreateLoan env _ _ _ _ => ce_loanFault env = None /\ ce_txFault env = None
  | OpCalculateDailyInterest env =>
      ae_listFault env = None /\ forall id, ae_updateFault env id = None
  | OpApplyMonthlyInterest env =>
      me_listFault env = None /\
      (forall id, me_txFault env id = None) /\
      (forall id, me_updateFault env id = None)
  | OpRecordPayment env _ _ =>
      pe_getFault env = None /\ pe_updateFault env = None /\ pe_txFault env = None
  end.

(** The call is a payment on an active loan of more than its balance. *)
Definition overpays (s : SQLiteStore) (op : Op) : bool :=
  match op with
  | OpRecordPayment env id amount =>
      match store.GetLoan (pe_getFault env) id s with
      | Ok loan =>
          isActive loan &&
          match Cmp (Sub (Balance loan) amount) Zero with Lt => true | _ => false end
      | Err _ => false
      end
  | _ => false
  end.

(** No call of the sequence, run from [s], overpays. *)
Fixpoint noOverpayment (s : SQLiteStore) (ops : list Op) : bool :=
  match ops with
  | [] => true
  | op :: rest => negb (overpays s op) && noOverpayment (step s op) rest
  end.

(** The sum of a list of decimals, with the library's addition. *)
Definition sumDecimals (ds : list Decimal) : Decimal := fold_left Add ds Zero.

Definition amountsOf (ty : TransactionType) (s : SQLiteStore) : list Decimal :=
  map Amount (filter (fun t => TransactionType_eqb (Type_ t) ty) (transactions s)).

Definition sumDisbursements (s : SQLiteStore) : Decimal :=
  sumDecimals (amountsOf TransactionTypeDisbursement s).
Definition sumInterest (s : SQLiteStore) : Decimal :=
  sumDecimals (amountsOf TransactionTypeInterest s).
Definition sumPayments (s : SQLiteStore) : Decimal :=
  sumDecimals (amountsOf TransactionTypePayment s).
Definition sumBalances (s : SQLiteStore) : Decimal :=
  sumDecimals (map Balance (loans s)).
Definition sumAccruedInterest (s : SQLiteStore) : Decimal :=
  sumDecimals (map AccruedInterest (loans s)).

(** Disbursements plus capitalized interest minus payments. *)
Definition netTransactions (s : SQLiteStore) : Decimal :=
  Sub (Add (sumDisbursements s) (sumInterest s)) (sumPayments s).

(** The primary key of [loans]: no two rows share an id. *)
Definition wellFormed (s : SQLiteStore) : Prop := NoDup (map ID (loans s)).

(** The row of [s] with the given id. *)
Definition loanOf (id : UUID) (s : SQLiteStore) : option Loan :=
  find (fun r => N.eqb (ID r) id) (loans s).

(** The transactions of one loan, in the order of the table. *)
Definition transactionsOf (id : UUID) (s : SQLiteStore) : list Transaction :=
  filter (fun t => N.eqb (LoanID t) id) (transactions s).

(** *** What a batch pass does to one row

    The effect of one iteration of each loop on the row it was read from;
    the lemmas [CalculateDailyInterest_rows] and [ApplyMonthlyInterest_rows]
    below show that a pass is these functions applied to every active row. *)

Definition accruedLoan (env : AccrualEnv) (today : Time) (loan : Loan) : Loan :=
  set_LastInterestCalculationDate (Some today)
    (set_UpdatedAt (ae_updatedAt env (ID loan))
       (set_AccruedInterest
          (Add (AccruedInterest loan) (interestAmount loan)) loan)).

Definition accrueRow (env : AccrualEnv) (today : Time) (r : Loan) : Loan :=
  if calculatedToday r today then r
  else if GreaterThan (interestAmount r) Zero
       then match ae_updateFault env (ID r) with
            | Some _ => r
            | None => accruedLoan env today r
            end
       else r.

Definition capitalizedLoan (env : MonthlyEnv) (loan : Loan) : Loan :=
  set_AccruedInterest Zero
    (set_UpdatedAt (me_updatedAt env (ID loan))
       (set_Balance (Add (Balance loan) (AccruedInterest loan)) loan)).

Definition interestTransaction (env : MonthlyEnv) (loan : Loan) : Transaction :=
  {| TxID := me_txID env (ID loan);
     LoanID := ID loan;
     Amount := AccruedInterest loan;
     Type_ := TransactionTypeInterest;
     Timestamp := me_txTime env (ID loan) |}.

(** The loan is due for capitalization on day-of-month [todayDay]. *)
Definition due (todayDay : Z) (r : Loan) : bool :=
  (StatementCycleDay r =? todayDay)%Z && GreaterThan (AccruedInterest r) Zero.

Definition applyRow (env : MonthlyEnv) (todayDay : Z) (r : Loan) : Loan :=
  if due todayDay r
  then match me_txFault env (ID r), me_updateFault env (ID r) with
       | None, None => capitalizedLoan env r
       | _, _ => r
       end
  else r.

Definition applyTransactions (env : MonthlyEnv) (todayDay : Z) (r : Loan)
  : list Transaction :=
  if due todayDay r
  then match me_txFault env (ID r) with
       | None => [interestTransaction env r]
       | Some _ => []
       end
  else [].

(** *** Auxiliary definitions of the proofs *)

(** The transaction [RecordPayment] builds. *)
Definition paymentTransaction (env : PaymentEnv) (loanID : UUID)
  (amount : Decimal) : Transaction :=
  {| TxID := pe_txID env; LoanID := loanID; Amount := amount;
     Type_ := TransactionTypePayment; Timestamp := pe_txTime env |}.

(** The sum of a list, as a rational. *)
Fixpoint sumQ (ds : list Decimal) : Q :=
  match ds with
  | [] => 0
  | d :: rest => toQ d + sumQ rest
  end.

(** Disbursements plus capitalized interest minus payments of a list of
    transactions, and the balances of a list of rows, as rationals. *)
Definition amountsIn (ty : TransactionType) (txs : list Transaction)
  : list Decimal :=
  map Amount (filter (fun t => TransactionType_eqb (Type_ t) ty) txs).

Definition netQ (txs : list Transaction) : Q :=
  sumQ (amountsIn TransactionTypeDisbursement txs)
  + sumQ (amountsIn TransactionTypeInterest txs)
  - sumQ (amountsIn TransactionTypePayment txs).

Definition balQ (ls : list Loan) : Q := sumQ (map Balance ls).

(** Replacing the row of [l] by a row of the same id. *)
Definition replaceRow (l l' : Loan) (ls : list Loan) : list Loan :=
  map (fun r => if N.eqb (ID r) (ID l) then l' else r) ls.

(** The row [r] belongs, by its id, to the snapshot [snap]. *)
Definition inSnapshot (snap : list Loan) (r : Loan) : bool :=
  existsb (N.eqb (ID r)) (map ID snap).

(** ** Every call that writes to the store *)

(** The four calls of [Op], and the two pass-throughs [UpdateLoan] and
    [DeleteLoan]. *)
Inductive Call : Type :=
| CallEngine (op : Op)
| CallUpdateLoan (now : Time) (fault : option error) (loan : Loan)
| CallDeleteLoan (fault : option error) (id : UUID).

(** The store after a call; a pass-through that returns an error has changed
    nothing. *)
Definition applyCall (s : SQLiteStore) (c : Call) : SQLiteStore :=
  match c with
  | CallEngine op => step s op
  | CallUpdateLoan now fault loan =>
      match ledger.UpdateLoan now fault loan s with
      | Ok s1 => s1
      | Err _ => s
      end
  | CallDeleteLoan fault id =>
      match ledger.DeleteLoan fault id s with
      | Ok s1 => s1
      | Err _ => s
      end
  end.

Definition applyCalls (cs : list Call) (s : SQLiteStore) : SQLiteStore :=
  fold_left applyCall cs s.

(** The loan [CreateLoan] builds before it writes it. *)
Definition newLoan (env : CreateEnv) (customerKey : string)
  (principal baseRate variance : Decimal) : Loan := {|
  ID := ce_loanID env;
  CustomerKey := customerKey;
  Principal := principal;
  Balance := principal;
  BaseInterestRate := baseRate;
  InterestRateVariance := variance;
  InterestRate := Add baseRate variance;
  Status := "active";
  CreatedAt := ce_createdAt env;
  UpdatedAt := ce_updatedAt env;
  LastInterestCalculationDate := None;
  StatementCycleDay := assignStatementCycleDay (ce_rand env);
  AccruedInterest := Zero
|}.

(** The foreign key of [transactions]: every transaction belongs to a loan
    of the store. *)
Definition linked (s : SQLiteStore) : Prop :=
  forall t, In t (transactions s) -> hasLoan (LoanID t) s = true.

(** No loan owes a negative balance or a negative accrued interest. *)
Definition nonNegative (r : Loan) : Prop :=
  (0 <= toQ (Balance r))%Q /\ (0 <= toQ (AccruedInterest r))%Q.

(** A closed loan has the balance [decimal.Zero]. *)
Definition closedAtZero (r : Loan) : Prop :=
  Status r = "closed"%string -> Balance r = Zero.

(** The loans a sequence of calls creates have principals that are not
    negative. *)
Definition principalNotNegative (op : Op) : Prop :=
  match op with
  | OpCreateLoan _ _ principal _ _ => (0 <= toQ principal)%Q
  | _ => True
  end.

(** What an accrual pass may change of a row: the accrued interest, upward,
    and the two dates. *)
Definition accrualOnly (r r' : Loan) : Prop :=
  ID r' = ID r /\ CustomerKey r' = CustomerKey r /\
  Principal r' = Principal r /\ Balance r' = Balance r /\
  BaseInterestRate r' = BaseInterestRate r /\
  InterestRateVariance r' = InterestRateVariance r /\
  InterestRate r' = InterestRate r /\ Status r' = Status r /\
  CreatedAt r' = CreatedAt r /\ StatementCycleDay r' = StatementCycleDay r /\
  (toQ (AccruedInterest r) <= toQ (AccruedInterest r'))%Q.

(** What a capitalization pass keeps of a row: identity, status, and the sum
    of balance and accrued interest. *)
Definition capitalizationOnly (r r' : Loan) : Prop :=
  ID r' = ID r /\ Status r' = Status r /\ Principal r' = Principal r /\
  InterestRate r' = InterestRate r /\
  StatementCycleDay r' = StatementCycleDay r /\
  LastInterestCalculationDate r' = LastInterestCalculationDate r /\
  (toQ (Balance r') + toQ (AccruedInterest r')
   == toQ (Balance r) + toQ (AccruedInterest r))%Q /\
  (toQ (Balance r) <= toQ (Balance r'))%Q.

(** Disbursement plus capitalized interest minus payments of one loan. *)
Definition loanNet (id : UUID) (s : SQLiteStore) : Decimal :=
  let ts := transactionsOf id s in
  Sub (Add (sumDecimals (amountsIn TransactionTypeDisbursement ts))
         (sumDecimals (amountsIn TransactionTypeInterest ts)))
    (sumDecimals (amountsIn TransactionTypePayment ts)).

(** A list of transactions is in the order of their timestamps, as
    instants. *)
Definition byTimestamp (ts : list Transaction) : Prop :=
  Sorted (fun a b => (Timestamp a <= Timestamp b)%Z) ts.

(** A list of transactions is in the order of the texts of the [timestamp]
    column, compared byte by byte. *)
Definition byTimestampColumn (column : TimestampColumn)
  (ts : list Transaction) : Prop :=
  Sorted (fun a b => String.leb (column a) (column b) = true) ts.

(** The texts of the column order the rows of [ts] as their instants do. *)
Definition columnFollowsInstants (column : TimestampColumn)
  (ts : list Transaction) : Prop :=
  forall a b, In a ts -> In b ts ->
    String.leb (column a) (column b) = true ->
    (Timestamp a <= Timestamp b)%Z.

(** ** Example data, after the scenarios of [ledger_test.go] *)

Module example.

(** A store that answers every call, ids 7 (loan) and 8 (transaction). *)
Definition createEnv : CreateEnv :=
  mkCreateEnv 7%N 100%Z 100%Z 40%Z None 8%N 101%Z None.

(** Principal 1000.00, base rate 0.12, variance -0.02. *)
Definition principal : Decimal := New 100000 (-2).
Definition baseRate : Decimal := New 12 (-2).
Definition variance : Decimal := New (-2) (-2).

(** The loan [CreateLoan] makes of them: effective rate 0.10, cycle day 13. *)
Definition loan0 : Loan := {|
  ID := 7%N; CustomerKey := "cust123"; Principal := principal;
  Balance := principal; BaseInterestRate := baseRate;
  InterestRateVariance := variance; InterestRate := New 10 (-2);
  Status := "active"; CreatedAt := 100%Z; UpdatedAt := 100%Z;
  LastInterestCalculationDate := None; StatementCycleDay := 13%Z;
  AccruedInterest := Zero |}.

Definition disbursement0 : Transaction := {|
  TxID := 8%N; LoanID := 7%N; Amount := principal;
  Type_ := TransactionTypeDisbursement; Timestamp := 101%Z |}.

Definition created : SQLiteStore := mkStore [loan0] [disbursement0].

(** A moment of the fourth day after the epoch, and a later one that day. *)
Definition morning : Time := (3 * (24 * Hour) + 5)%Z.
Definition evening : Time := (3 * (24 * Hour) + 20 * Hour)%Z.

Definition accrualEnv (now : Time) : AccrualEnv :=
  mkAccrualEnv None now (fun _ => now) (fun _ => None).

Definition monthlyEnv (updateFault : option error) : MonthlyEnv :=
  mkMonthlyEnv None 13%Z (fun _ => 400%Z) (fun id => (id + 1000)%N)
    (fun _ => 401%Z) (fun _ => None) (fun _ => updateFault).

Definition paymentEnv (txID : UUID) (updateFault txFault : option error)
  : PaymentEnv :=
  mkPaymentEnv None 300%Z updateFault txID 301%Z txFault.

(** [createEnv] with the answers of the store to the two writes. *)
Definition createEnvWith (loanFault txFault : option error) : CreateEnv :=
  mkCreateEnv 7%N 100%Z 100%Z 40%Z loanFault 8%N 101%Z txFault.

(** The loan with 5.00 of accrued interest (scenario 3). *)
Definition loanAccrued : Loan := set_AccruedInterest (New 500 (-2)) loan0.
Definition accrued : SQLiteStore := mkStore [loanAccrued] [disbursement0].

(** The loan closed, with balance zero. *)
Definition loanClosed : Loan := set_Balance Zero (set_Status "closed" loan0).
Definition closed : SQLiteStore := mkStore [loanClosed] [disbursement0].

(** A creation, an accrual, a capitalization and a payment of 400.00. *)
Definition ops : list Op :=
  [OpCreateLoan createEnv "cust123" principal baseRate variance;
   OpCalculateDailyInterest (accrualEnv morning);
   OpApplyMonthlyInterest (monthlyEnv None);
   OpRecordPayment (paymentEnv 9%N None None) 7%N (New 40000 (-2))].

(** A creation followed by one daily accrual. *)
Definition accrualOps : list Op :=
  [OpCreateLoan createEnv "cust123" principal baseRate variance;
   OpCalculateDailyInterest (accrualEnv morning)].

(** A creation followed by a payment of 2000.00. *)
Definition overpaymentOps : list Op :=
  [OpCreateLoan createEnv "cust123" principal baseRate variance;
   OpRecordPayment (paymentEnv 9%N None None) 7%N (New 2000 0)].

(** A second loan, id 11, and a store whose transactions are not in the
    order of their timestamps. *)
Definition loan1 : Loan := {|
  ID := 11%N; CustomerKey := "cust456"; Principal := New 50000 (-2);
  Balance := New 50000 (-2); BaseInterestRate := New 5 (-2);
  InterestRateVariance := Zero; InterestRate := New 5 (-2);
  Status := "active"; CreatedAt := 150%Z; UpdatedAt := 150%Z;
  LastInterestCalculationDate := None; StatementCycleDay := 20%Z;
  AccruedInterest := Zero |}.

Definition payment0 : Transaction := {|
  TxID := 9%N; LoanID := 7%N; Amount := New 40000 (-2);
  Type_ := TransactionTypePayment; Timestamp := 90%Z |}.

Definition disbursement1 : Transaction := {|
  TxID := 12%N; LoanID := 11%N; Amount := New 50000 (-2);
  Type_ := TransactionTypeDisbursement; Timestamp := 151%Z |}.

Definition twoLoans : SQLiteStore :=
  mkStore [loan0; loan1] [disbursement0; disbursement1; payment0].

(** Two payments on loan 7: the first made half an hour after the epoch by a
    process whose zone is two hours east of UTC, the second an hour after
    the epoch by a process in UTC. *)
Definition payment21 : Transaction := {|
  TxID := 21%N; LoanID := 7%N; Amount := New 1000 (-2);
  Type_ := TransactionTypePayment; Timestamp := (1800 * 1000000000)%Z |}.

Definition payment20 : Transaction := {|
  TxID := 20%N; LoanID := 7%N; Amount := New 1000 (-2);
  Type_ := TransactionTypePayment; Timestamp := (3600 * 1000000000)%Z |}.

Definition twoZones : SQLiteStore := mkStore [loan0] [payment21; payment20].

(** The text of the [timestamp] column for the rows above, by transaction
    id: the rows of [created] and [twoLoans] written in UTC, some
    nanoseconds after the epoch, and the two rows of [twoZones]. *)
Definition timestampColumn : store.TimestampColumn :=
  fun t =>
    if N.eqb (TxID t) 8 then "1970-01-01 00:00:00.000000101+00:00"%string
    else if N.eqb (TxID t) 9 then "1970-01-01 00:00:00.00000009+00:00"%string
    else if N.eqb (TxID t) 12 then "1970-01-01 00:00:00.000000151+00:00"%string
    else if N.eqb (TxID t) 21 then "1970-01-01 02:30:00+02:00"%string
    else if N.eqb (TxID t) 20 then "1970-01-01 01:00:00+00:00"%string
    else "1970-01-01 00:00:00+00:00"%string.

(** The next day. *)
Definition nextDay : Time := (4 * (24 * Hour) + 7)%Z.

(** A payment, an update that closes the second loan by hand, and the
    deletion of the first. *)
Definition calls : list Call :=
  [CallEngine (OpRecordPayment (paymentEnv 9%N None None) 7%N (New 40000 (-2)));
   CallUpdateLoan 500%Z None (set_Status "closed" loan1);
   CallDeleteLoan None 7%N].

End example.

(** * Properties *)

(** ** The decimals as rational numbers *)

Module decimal_facts.

Local Open Scope Q_scope.

Lemma ten_neq_0 : ~ (10 # 1) == 0.
Proof. discriminate. Qed.

Lemma ten_pow_pos (e : Z) : 0 < (10 # 1) ^ e.
Proof. apply Qpower_0_lt. reflexivity. Qed.

Lemma toQ_Zero : toQ Zero == 0.
Proof. reflexivity. Qed.

(** Rescaling to a smaller exponent multiplies the coefficient and keeps
    the number. *)
Lemma toQ_rescale (d : Decimal) (e : Z) :
  (e <= exp d)%Z -> exp (rescale d e) = e /\ toQ (rescale d e) == toQ d.
Proof.
  intros Hle. unfold rescale.
  destruct (Z.eqb_spec (exp d) e) as [->|Hne]; [split; reflexivity|].
  destruct (Z.ltb_spec (exp d) e) as [Hlt|_]; [lia|].
  split; [reflexivity|].
  unfold toQ; cbn [value exp].
  replace (Z.abs (e - exp d)) with (exp d - e)%Z by lia.
  rewrite inject_Z_mult, Zpower_Qpower by lia.
  replace (exp d) with ((exp d - e) + e)%Z at 2 by lia.
  rewrite Qpower_plus by exact ten_neq_0.
  change (inject_Z 10) with (10 # 1). ring.
Qed.

Lemma RescalePair_spec (a b : Decimal) :
  exp (fst (RescalePair a b)) = exp (snd (RescalePair a b)) /\
  toQ (fst (RescalePair a b)) == toQ a /\
  toQ (snd (RescalePair a b)) == toQ b.
Proof.
  unfold RescalePair.
  destruct (Z.ltb_spec (exp a) (exp b)) as [H|H].
  - destruct (toQ_rescale b (exp a)) as [He Hq]; [lia|].
    cbn [fst snd]. rewrite He, Hq. repeat split; reflexivity.
  - destruct (Z.ltb_spec (exp b) (exp a)) as [H'|H'].
    + destruct (toQ_rescale a (exp b)) as [He Hq]; [lia|].
      cbn [fst snd]. rewrite He, Hq. repeat split; reflexivity.
    + cbn [fst snd]. repeat split; try reflexivity. lia.
Qed.

Lemma toQ_Add (a b : Decimal) : toQ (Add a b) == toQ a + toQ b.
Proof.
  unfold Add. destruct (RescalePair_spec a b) as (He & Ha & Hb).
  destruct (RescalePair a b) as [ra rb]; cbn [fst snd] in *.
  rewrite <- Ha, <- Hb. unfold toQ; cbn [value exp].
  rewrite inject_Z_plus, He. ring.
Qed.

Lemma toQ_Sub (a b : Decimal) : toQ (Sub a b) == toQ a - toQ b.
Proof.
  unfold Sub. destruct (RescalePair_spec a b) as (He & Ha & Hb).
  destruct (RescalePair a b) as [ra rb]; cbn [fst snd] in *.
  rewrite <- Ha, <- Hb. unfold toQ; cbn [value exp].
  unfold Z.sub. rewrite inject_Z_plus, inject_Z_opp, He. ring.
Qed.

Lemma toQ_Mul (a b : Decimal) : toQ (Mul a b) == toQ a * toQ b.
Proof.
  unfold Mul, toQ; cbn [value exp].
  rewrite inject_Z_mult, Qpower_plus by exact ten_neq_0. ring.
Qed.

Lemma Qcompare_scaled (x y : Z) (c : Q) :
  0 < c -> (inject_Z x * c ?= inject_Z y * c) = (x ?= y)%Z.
Proof.
  intros Hc. destruct (Z.compare_spec x y) as [->|H|H].
  - apply Qeq_alt. reflexivity.
  - apply Qlt_alt. apply Qmult_lt_compat_r; [exact Hc|].
    rewrite <- Zlt_Qlt. exact H.
  - apply Qgt_alt. apply Qmult_lt_compat_r; [exact Hc|].
    rewrite <- Zlt_Qlt. exact H.
Qed.

(** [Cmp] compares the numbers. *)
Lemma Cmp_toQ (a b : Decimal) : Cmp a b = (toQ a ?= toQ b).
Proof.
  unfold Cmp. destruct (Z.eqb_spec (exp a) (exp b)) as [He|Hne].
  - unfold toQ. rewrite He. symmetry. apply Qcompare_scaled, ten_pow_pos.
  - destruct (RescalePair_spec a b) as (He & Ha & Hb).
    destruct (RescalePair a b) as [ra rb]; cbn [fst snd] in *.
    rewrite <- Ha, <- Hb. unfold toQ. rewrite He.
    symmetry. apply Qcompare_scaled, ten_pow_pos.
Qed.

Lemma Equal_toQ (a b : Decimal) : Equal a b = true <-> toQ a == toQ b.
Proof.
  unfold Equal. rewrite Cmp_toQ, Qeq_alt.
  destruct (toQ a ?= toQ b); split; congruence.
Qed.

Lemma GreaterThan_toQ (a b : Decimal) : GreaterThan a b = true <-> toQ b < toQ a.
Proof.
  unfold GreaterThan. rewrite Cmp_toQ. rewrite (Qgt_alt (toQ a) (toQ b)).
  destruct (toQ a ?= toQ b); split; congruence.
Qed.

Lemma LessThanOrEqual_toQ (a b : Decimal) :
  LessThanOrEqual a b = true <-> toQ a <= toQ b.
Proof.
  unfold LessThanOrEqual. rewrite Cmp_toQ, Qle_alt.
  destruct (toQ a ?= toQ b); split; congruence.
Qed.

Lemma toQ_fold_Add (ds : list Decimal) (acc : Decimal) :
  toQ (fold_left Add ds acc) == toQ acc + sumQ ds.
Proof.
  revert acc. induction ds as [|d ds IH]; intros acc; cbn [fold_left sumQ].
  - ring.
  - rewrite IH, toQ_Add. ring.
Qed.

Lemma toQ_sumDecimals (ds : list Decimal) : toQ (sumDecimals ds) == sumQ ds.
Proof. unfold sumDecimals. rewrite toQ_fold_Add, toQ_Zero. ring. Qed.

Lemma sumQ_app (xs ys : list Decimal) : sumQ (xs ++ ys) == sumQ xs + sumQ ys.
Proof.
  induction xs as [|x xs IH]; cbn [app sumQ]; [ring|]. rewrite IH. ring.
Qed.

End decimal_facts.

Import decimal_facts.

(** ** Rows, primary keys and whole-record updates *)

Module store_facts.

Lemma set_CreatedAt_same (l : Loan) : set_CreatedAt (CreatedAt l) l = l.
Proof. destruct l; reflexivity. Qed.

Lemma hasLoan_In (id : UUID) (s : SQLiteStore) :
  hasLoan id s = true <-> In id (map ID (loans s)).
Proof.
  unfold hasLoan. rewrite existsb_exists, in_map_iff.
  split; intros (r & H1 & H2).
  - exists r. apply N.eqb_eq in H2. auto.
  - exists r. split; [exact H2|]. apply N.eqb_eq. exact H1.
Qed.

(** Under the primary key a row is determined by its id. *)
Lemma row_unique (ls : list Loan) (a b : Loan) :
  NoDup (map ID ls) -> In a ls -> In b ls -> ID a = ID b -> a = b.
Proof.
  induction ls as [|x ls IH]; cbn [map In]; intros Hnd Ha Hb Hid; [contradiction|].
  inversion Hnd as [|? ? Hnotin Hnd']; subst.
  destruct Ha as [->|Ha], Hb as [->|Hb]; auto.
  - exfalso. apply Hnotin. rewrite Hid. apply in_map, Hb.
  - exfalso. apply Hnotin. rewrite <- Hid. apply in_map, Ha.
Qed.

Lemma find_row (ls : list Loan) (l : Loan) :
  NoDup (map ID ls) -> In l ls ->
  find (fun r => N.eqb (ID r) (ID l)) ls = Some l.
Proof.
  intros Hnd Hin.
  destruct (find (fun r => N.eqb (ID r) (ID l)) ls) as [r|] eqn:Hf.
  - apply find_some in Hf. destruct Hf as [Hr Hid]. apply N.eqb_eq in Hid.
    f_equal. eapply row_unique; eauto.
  - exfalso. eapply find_none in Hf; [|exact Hin].
    rewrite N.eqb_refl in Hf. discriminate.
Qed.

Lemma loanOf_In (id : UUID) (s : SQLiteStore) (l : Loan) :
  loanOf id s = Some l -> In l (loans s) /\ ID l = id.
Proof.
  unfold loanOf. intros H. apply find_some in H. destruct H as [H1 H2].
  apply N.eqb_eq in H2. auto.
Qed.

Lemma replaceRow_ids (l l' : Loan) (ls : list Loan) :
  ID l' = ID l -> map ID (replaceRow l l' ls) = map ID ls.
Proof.
  intros Hid. unfold replaceRow. rewrite map_map. apply map_ext.
  intros r. destruct (N.eqb_spec (ID r) (ID l)); congruence.
Qed.

Lemma replaceRow_self (l : Loan) (ls : list Loan) :
  NoDup (map ID ls) -> In l ls -> replaceRow l l ls = ls.
Proof.
  intros Hnd Hin. unfold replaceRow.
  rewrite <- (map_id ls) at 2. apply map_ext_in. intros r Hr.
  destruct (N.eqb_spec (ID r) (ID l)) as [Heq|]; [|reflexivity].
  eapply row_unique; eauto.
Qed.

(** A successful [UpdateLoan] with a loan read from the store replaces
    exactly that loan's row. *)
Lemma UpdateLoan_rows (s : SQLiteStore) (l l' : Loan) :
  wellFormed s -> In l (loans s) ->
  ID l' = ID l -> CreatedAt l' = CreatedAt l ->
  store.UpdateLoan None l' s
  = Ok (mkStore (replaceRow l l' (loans s)) (transactions s)).
Proof.
  intros Hwf Hin Hid Hcr. unfold store.UpdateLoan.
  assert (Hhas : hasLoan (ID l') s = true).
  { apply hasLoan_In. rewrite Hid. apply in_map, Hin. }
  rewrite Hhas. do 2 f_equal. unfold replaceRow. apply map_ext_in.
  intros r Hr. rewrite Hid.
  destruct (N.eqb_spec (ID r) (ID l)) as [Heq|]; [|reflexivity].
  assert (r = l) by (eapply row_unique; eauto). subst r.
  rewrite <- Hcr. apply set_CreatedAt_same.
Qed.

(** Every store operation of the engine keeps the ids of [loans], or adds a
    new one. *)
Lemma UpdateLoan_ids fault (l : Loan) (s s' : SQLiteStore) :
  store.UpdateLoan fault l s = Ok s' ->
  map ID (loans s') = map ID (loans s) /\ transactions s' = transactions s.
Proof.
  unfold store.UpdateLoan. destruct fault; [discriminate|].
  destruct (hasLoan (ID l) s); [|discriminate].
  intros H; inversion H; subst; clear H. cbn [loans transactions].
  split; [|reflexivity]. rewrite map_map. apply map_ext. intros r.
  destruct (N.eqb_spec (ID r) (ID l)) as [Heq|]; [|reflexivity].
  destruct l; cbn in *. congruence.
Qed.

Lemma CreateTransaction_rows fault (t : Transaction) (s s' : SQLiteStore) :
  store.CreateTransaction fault t s = Ok s' ->
  fault = None /\ loans s' = loans s /\ transactions s' = transactions s ++ [t].
Proof.
  unfold store.CreateTransaction. destruct fault; [discriminate|].
  intros H; inversion H; subst. auto.
Qed.

(** *** A loop over a snapshot of rows *)

Section Pass.

Variable Out : Type.
Variable body : SQLiteStore * Out -> Loan -> SQLiteStore * Out.
Variable onRow : Loan -> Loan.
Variable newTransactions : Loan -> list Transaction.

Hypothesis onRow_ID : forall l, ID (onRow l) = ID l.

Hypothesis body_rows : forall st l,
  wellFormed (fst st) -> In l (loans (fst st)) ->
  loans (fst (body st l)) = replaceRow l (onRow l) (loans (fst st)).

Hypothesis body_transactions : forall st l,
  transactions (fst (body st l))
  = transactions (fst st) ++ newTransactions l.

Lemma pass_rows (snap : list Loan) : forall st,
  wellFormed (fst st) -> NoDup (map ID snap) -> incl snap (loans (fst st)) ->
  loans (fst (fold_left body snap st))
  = map (fun r => if inSnapshot snap r then onRow r else r) (loans (fst st)).
Proof.
  induction snap as [|l snap IH]; intros st Hwf Hnd Hincl; cbn [fold_left].
  - cbn. symmetry. apply map_id.
  - inversion Hnd as [|? ? Hnotin Hnd']; subst.
    assert (Hl : In l (loans (fst st))) by (apply Hincl; left; reflexivity).
    pose proof (body_rows st l Hwf Hl) as Hrows.
    rewrite IH.
    + rewrite Hrows. unfold replaceRow. rewrite map_map.
      apply map_ext_in. intros r Hr. unfold inSnapshot. cbn [map existsb].
      destruct (N.eqb_spec (ID r) (ID l)) as [Heq|Hne].
      * assert (r = l) by (apply (row_unique (loans (fst st))); auto).
        subst r. cbn [orb].
        destruct (existsb (N.eqb (ID (onRow l))) (map ID snap)) eqn:Hex;
          [|reflexivity].
        exfalso. apply Hnotin. apply existsb_exists in Hex.
        destruct Hex as (x & Hx & Hxe). apply N.eqb_eq in Hxe.
        rewrite onRow_ID in Hxe. subst x. exact Hx.
      * cbn [orb]. reflexivity.
    + unfold wellFormed. rewrite Hrows, replaceRow_ids by apply onRow_ID.
      exact Hwf.
    + exact Hnd'.
    + intros x Hx. rewrite Hrows. unfold replaceRow.
      apply in_map_iff. exists x. split.
      * destruct (N.eqb_spec (ID x) (ID l)) as [Heq|]; [|reflexivity].
        exfalso. apply Hnotin. rewrite <- Heq. apply in_map, Hx.
      * apply Hincl. right. exact Hx.
Qed.

Lemma pass_transactions (snap : list Loan) : forall st,
  transactions (fst (fold_left body snap st))
  = transactions (fst st) ++ flat_map newTransactions snap.
Proof.
  induction snap as [|l snap IH]; intros st; cbn [fold_left flat_map].
  - symmetry. apply app_nil_r.
  - rewrite IH, body_transactions, app_assoc. reflexivity.
Qed.

End Pass.

(** The snapshot of the active rows. *)
Lemma inSnapshot_active (ls : list Loan) (r : Loan) :
  In r ls -> NoDup (map ID ls) ->
  inSnapshot (filter isActive ls) r = isActive r.
Proof.
  intros Hin Hnd. unfold inSnapshot.
  destruct (isActive r) eqn:Hact.
  - apply existsb_exists. exists (ID r). split; [|apply N.eqb_refl].
    apply in_map, filter_In. auto.
  - destruct (existsb _ _) eqn:Hex; [|reflexivity].
    apply existsb_exists in Hex. destruct Hex as (x & Hx & Hxe).
    apply N.eqb_eq in Hxe. subst x. apply in_map_iff in Hx.
    destruct Hx as (r' & Hid & Hr'). apply filter_In in Hr'.
    destruct Hr' as [Hr' Hact'].
    assert (r' = r) by (eapply row_unique; eauto). subst. congruence.
Qed.

Lemma NoDup_ids_filter (f : Loan -> bool) (ls : list Loan) :
  NoDup (map ID ls) -> NoDup (map ID (filter f ls)).
Proof.
  induction ls as [|x ls IH]; cbn [filter map]; intros Hnd; [constructor|].
  inversion Hnd as [|? ? Hnotin Hnd']; subst.
  destruct (f x); cbn [map]; [constructor|]; auto.
  intros Hin. apply Hnotin. apply in_map_iff in Hin.
  destruct Hin as (y & Hy & Hyin). apply filter_In in Hyin.
  rewrite <- Hy. apply in_map. tauto.
Qed.

End store_facts.

Import store_facts.

(** ** The batch passes, row by row *)

Module ledger_facts.

Lemma flat_map_nothing (A B : Type) (ls : list A) :
  flat_map (fun _ => @nil B) ls = [].
Proof. induction ls; cbn; auto. Qed.

Lemma accrueLoan_rows (env : AccrualEnv) (today : Time)
  (st : SQLiteStore * list Event) (l : Loan) :
  wellFormed (fst st) -> In l (loans (fst st)) ->
  loans (fst (accrueLoan env today st l))
  = replaceRow l (accrueRow env today l) (loans (fst st)).
Proof.
  destruct st as [s out]; cbn [fst]. intros Hwf Hin.
  unfold accrueLoan, accrueRow.
  destruct (calculatedToday l today);
    [cbn [fst]; symmetry; apply replaceRow_self; assumption|].
  destruct (GreaterThan (interestAmount l) Zero);
    [|cbn [fst]; symmetry; apply replaceRow_self; assumption].
  destruct (ae_updateFault env (ID l)) as [e|].
  - cbn [store.UpdateLoan fst]. symmetry. apply replaceRow_self; assumption.
  - fold (accruedLoan env today l).
    rewrite (UpdateLoan_rows s l (accruedLoan env today l)) by auto.
    reflexivity.
Qed.

Lemma accrueLoan_transactions (env : AccrualEnv) (today : Time)
  (st : SQLiteStore * list Event) (l : Loan) :
  transactions (fst (accrueLoan env today st l))
  = transactions (fst st) ++ (fun _ => []) l.
Proof.
  destruct st as [s out]; cbn [fst]. rewrite app_nil_r.
  unfold accrueLoan.
  destruct (calculatedToday l today); [reflexivity|].
  destruct (GreaterThan (interestAmount l) Zero); [|reflexivity].
  destruct (store.UpdateLoan _ _ s) as [s1|e] eqn:Hu; [|reflexivity].
  apply UpdateLoan_ids in Hu. cbn [fst]. tauto.
Qed.

Lemma accrueRow_ID env today l : ID (accrueRow env today l) = ID l.
Proof.
  unfold accrueRow. destruct (calculatedToday l today); [reflexivity|].
  destruct (GreaterThan _ _); [|reflexivity].
  destruct (ae_updateFault env (ID l)); reflexivity.
Qed.

Lemma accrueRow_Status env today l : Status (accrueRow env today l) = Status l.
Proof.
  unfold accrueRow. destruct (calculatedToday l today); [reflexivity|].
  destruct (GreaterThan _ _); [|reflexivity].
  destruct (ae_updateFault env (ID l)); reflexivity.
Qed.

Lemma accrueRow_Balance env today l : Balance (accrueRow env today l) = Balance l.
Proof.
  unfold accrueRow. destruct (calculatedToday l today); [reflexivity|].
  destruct (GreaterThan _ _); [|reflexivity].
  destruct (ae_updateFault env (ID l)); reflexivity.
Qed.

(** The accrual pass is [accrueRow] on every active row; it writes no
    transaction. *)
Lemma CalculateDailyInterest_rows (env : AccrualEnv) (s : SQLiteStore) :
  wellFormed s -> ae_listFault env = None ->
  loans (fst (CalculateDailyInterest env s))
  = map (fun r => if isActive r
                  then accrueRow env (Truncate (ae_now env) (24 * Hour)) r
                  else r) (loans s)
  /\ transactions (fst (CalculateDailyInterest env s)) = transactions s.
Proof.
  intros Hwf Hlist. unfold CalculateDailyInterest, store.GetAllActiveLoans.
  rewrite Hlist. split.
  - rewrite (pass_rows _ (accrueLoan env _) (accrueRow env _)
               (accrueRow_ID env _) (accrueLoan_rows env _)); cbn [fst].
    + apply map_ext_in. intros r Hr.
      rewrite inSnapshot_active by assumption. reflexivity.
    + exact Hwf.
    + apply NoDup_ids_filter, Hwf.
    + intros x Hx. apply filter_In in Hx. tauto.
  - rewrite (pass_transactions _ (accrueLoan env _) (fun _ => [])
               (accrueLoan_transactions env _)); cbn [fst].
    rewrite flat_map_nothing. apply app_nil_r.
Qed.

Lemma CalculateDailyInterest_fault (env : AccrualEnv) (s : SQLiteStore) e :
  ae_listFault env = Some e -> fst (CalculateDailyInterest env s) = s.
Proof.
  intros H. unfold CalculateDailyInterest, store.GetAllActiveLoans.
  rewrite H. reflexivity.
Qed.

Lemma applyLoan_rows (env : MonthlyEnv) (day : Z)
  (st : SQLiteStore * list Event) (l : Loan) :
  wellFormed (fst st) -> In l (loans (fst st)) ->
  loans (fst (applyLoan env day st l))
  = replaceRow l (applyRow env day l) (loans (fst st)).
Proof.
  destruct st as [s out]; cbn [fst]. intros Hwf Hin.
  unfold applyLoan, applyRow, due.
  destruct (StatementCycleDay l =? day)%Z; cbn [andb];
    [|cbn [fst]; symmetry; apply replaceRow_self; assumption].
  destruct (GreaterThan (AccruedInterest l) Zero);
    [|cbn [fst]; symmetry; apply replaceRow_self; assumption].
  destruct (me_txFault env (ID l)) as [e|]; cbn [store.CreateTransaction].
  - cbn [fst]. symmetry. apply replaceRow_self; assumption.
  - destruct (me_updateFault env (ID l)) as [e|].
    + cbn [store.UpdateLoan fst loans]. symmetry.
      apply replaceRow_self; assumption.
    + fold (capitalizedLoan env l).
      rewrite (UpdateLoan_rows _ l (capitalizedLoan env l)) by auto.
      reflexivity.
Qed.

Lemma applyLoan_transactions (env : MonthlyEnv) (day : Z)
  (st : SQLiteStore * list Event) (l : Loan) :
  transactions (fst (applyLoan env day st l))
  = transactions (fst st) ++ applyTransactions env day l.
Proof.
  destruct st as [s out]; cbn [fst].
  unfold applyLoan, applyTransactions, due.
  destruct (StatementCycleDay l =? day)%Z; cbn [andb];
    [|symmetry; apply app_nil_r].
  destruct (GreaterThan (AccruedInterest l) Zero);
    [|symmetry; apply app_nil_r].
  destruct (me_txFault env (ID l)) as [e|]; cbn [store.CreateTransaction].
  - symmetry; apply app_nil_r.
  - destruct (store.UpdateLoan _ _ _) as [s2|e] eqn:Hu.
    + apply UpdateLoan_ids in Hu. cbn [fst]. destruct Hu as [_ ->].
      reflexivity.
    + reflexivity.
Qed.

Lemma applyRow_ID env day l : ID (applyRow env day l) = ID l.
Proof.
  unfold applyRow. destruct (due day l); [|reflexivity].
  destruct (me_txFault env (ID l)), (me_updateFault env (ID l)); reflexivity.
Qed.

Lemma applyRow_Status env day l : Status (applyRow env day l) = Status l.
Proof.
  unfold applyRow. destruct (due day l); [|reflexivity].
  destruct (me_txFault env (ID l)), (me_updateFault env (ID l)); reflexivity.
Qed.

(** The capitalization pass is [applyRow] on every active row, and appends
    the interest transactions of the active rows in their order. *)
Lemma ApplyMonthlyInterest_rows (env : MonthlyEnv) (s : SQLiteStore) :
  wellFormed s -> me_listFault env = None ->
  loans (fst (ApplyMonthlyInterest env s))
  = map (fun r => if isActive r then applyRow env (me_todayDay env) r else r)
      (loans s)
  /\ transactions (fst (ApplyMonthlyInterest env s))
     = transactions s
       ++ flat_map (applyTransactions env (me_todayDay env))
            (filter isActive (loans s)).
Proof.
  intros Hwf Hlist. unfold ApplyMonthlyInterest, store.GetAllActiveLoans.
  rewrite Hlist. split.
  - rewrite (pass_rows _ (applyLoan env _) (applyRow env _)
               (applyRow_ID env _) (applyLoan_rows env _)); cbn [fst].
    + apply map_ext_in. intros r Hr.
      rewrite inSnapshot_active by assumption. reflexivity.
    + exact Hwf.
    + apply NoDup_ids_filter, Hwf.
    + intros x Hx. apply filter_In in Hx. tauto.
  - rewrite (pass_transactions _ (applyLoan env _) _
               (applyLoan_transactions env _)); cbn [fst].
    reflexivity.
Qed.

Lemma ApplyMonthlyInterest_fault (env : MonthlyEnv) (s : SQLiteStore) e :
  me_listFault env = Some e -> fst (ApplyMonthlyInterest env s) = s.
Proof.
  intros H. unfold ApplyMonthlyInterest, store.GetAllActiveLoans.
  rewrite H. reflexivity.
Qed.

(** The row of a given id after a map that keeps ids. *)
Lemma loanOf_map (f : Loan -> Loan) (ls : list Loan) (l : Loan) :
  (forall r, ID (f r) = ID r) ->
  NoDup (map ID ls) -> In l ls ->
  find (fun r => N.eqb (ID r) (ID l)) (map f ls) = Some (f l).
Proof.
  intros Hid Hnd Hin.
  replace (ID l) with (ID (f l)) by apply Hid.
  apply find_row.
  - rewrite map_map. erewrite map_ext; [exact Hnd|]. intros; apply Hid.
  - apply in_map, Hin.
Qed.

End ledger_facts.

Import ledger_facts.

(** ** Well-formedness is kept by every engine operation *)

Lemma wellFormed_empty : wellFormed empty.
Proof. constructor. Qed.

Lemma CreateLoan_cases env k p b v s :
  let loan := {|
    ID := ce_loanID env; CustomerKey := k; Principal := p; Balance := p;
    BaseInterestRate := b; InterestRateVariance := v;
    InterestRate := Add b v; Status := "active";
    CreatedAt := ce_createdAt env; UpdatedAt := ce_updatedAt env;
    LastInterestCalculationDate := None;
    StatementCycleDay := assignStatementCycleDay (ce_rand env);
    AccruedInterest := Zero |} in
  let tx := {|
    TxID := ce_txID env; LoanID := ce_loanID env; Amount := p;
    Type_ := TransactionTypeDisbursement; Timestamp := ce_txTime env |} in
  (snd (CreateLoan env k p b v s) = s /\
   (ce_loanFault env <> None \/ hasLoan (ce_loanID env) s = true)) \/
  (snd (CreateLoan env k p b v s) = mkStore (loans s ++ [loan]) (transactions s) /\
   ce_loanFault env = None /\ hasLoan (ce_loanID env) s = false /\
   ce_txFault env <> None) \/
  (CreateLoan env k p b v s
   = (Ok loan, mkStore (loans s ++ [loan]) (transactions s ++ [tx])) /\
   ce_loanFault env = None /\ hasLoan (ce_loanID env) s = false /\
   ce_txFault env = None).
Proof.
  intros loan tx. unfold CreateLoan, store.CreateLoan. fold loan.
  destruct (ce_loanFault env) as [e|]; [left; split; [reflexivity|left; discriminate]|].
  cbn [ID]. change (ID loan) with (ce_loanID env).
  destruct (hasLoan (ce_loanID env) s); [left; split; auto|].
  unfold store.CreateTransaction.
  destruct (ce_txFault env) as [e|]; right; [left|right]; cbn [snd loans transactions ID];
    repeat split; auto; discriminate.
Qed.

Lemma NoDup_snoc (A : Type) (x : A) (l : list A) :
  NoDup l -> ~ In x l -> NoDup (l ++ [x]).
Proof.
  intros Hnd Hx. apply NoDup_rev in Hnd.
  rewrite <- (rev_involutive (l ++ [x])). apply NoDup_rev.
  rewrite rev_app_distr. cbn [rev app]. constructor; [|exact Hnd].
  rewrite <- in_rev. exact Hx.
Qed.

Lemma RecordPayment_loans env id amount s :
  map ID (loans (snd (RecordPayment env id amount s))) = map ID (loans s).
Proof.
  unfold RecordPayment.
  destruct (store.GetLoan _ _ _) as [loan|e]; [|reflexivity].
  destruct (negb _); [reflexivity|].
  destruct (store.UpdateLoan _ _ _) as [s1|e] eqn:Hu; [|reflexivity].
  apply UpdateLoan_ids in Hu. destruct Hu as [Hids _].
  destruct (store.CreateTransaction _ _ _) as [s2|e] eqn:Hc; cbn [snd]; [|exact Hids].
  apply CreateTransaction_rows in Hc. destruct Hc as (_ & -> & _). exact Hids.
Qed.

Lemma step_wellFormed (s : SQLiteStore) (op : Op) :
  wellFormed s -> wellFormed (step s op).
Proof.
  intros Hwf. destruct op as [env k p b v|env|env|env id amount]; cbn [step].
  - destruct (CreateLoan_cases env k p b v s)
      as [[-> _]|[[-> (_ & Hnew & _)]|[-> (_ & Hnew & _)]]];
      [exact Hwf| |]; unfold wellFormed; cbn [snd loans];
      rewrite map_app; cbn [map ID]; apply NoDup_snoc; try exact Hwf;
      intros Hin; apply hasLoan_In in Hin; congruence.
  - destruct (ae_listFault env) as [e|] eqn:Hl.
    + rewrite (CalculateDailyInterest_fault env s e Hl). exact Hwf.
    + destruct (CalculateDailyInterest_rows env s Hwf Hl) as [Hrows _].
      unfold wellFormed. rewrite Hrows, map_map.
      erewrite map_ext; [exact Hwf|]. intros r; cbn.
      destruct (isActive r); [apply accrueRow_ID|reflexivity].
  - destruct (me_listFault env) as [e|] eqn:Hl.
    + rewrite (ApplyMonthlyInterest_fault env s e Hl). exact Hwf.
    + destruct (ApplyMonthlyInterest_rows env s Hwf Hl) as [Hrows _].
      unfold wellFormed. rewrite Hrows, map_map.
      erewrite map_ext; [exact Hwf|]. intros r; cbn.
      destruct (isActive r); [apply applyRow_ID|reflexivity].
  - unfold wellFormed. rewrite RecordPayment_loans. exact Hwf.
Qed.

(** ** Loan creation *)

(** C9. Whenever the store accepts both writes, [CreateLoan] returns a loan
    with status active, balance equal to the principal, no accrued interest,
    effective rate base rate plus variance and a statement cycle day between
    1 and 28; the loan is added to the store and exactly one disbursement
    transaction of the principal is appended for it. *)
Theorem C9_CreateLoan_loan_and_disbursement :
  forall env customerKey principal baseRate variance s,
    ce_loanFault env = None ->
    ce_txFault env = None ->
    hasLoan (ce_loanID env) s = false ->
    exists loan tx,
      CreateLoan env customerKey principal baseRate variance s
      = (Ok loan, mkStore (loans s ++ [loan]) (transactions s ++ [tx])) /\
      Status loan = "active"%string /\
      Balance loan = principal /\
      AccruedInterest loan = Zero /\
      InterestRate loan = Add baseRate variance /\
      (toQ (InterestRate loan) == toQ baseRate + toQ variance)%Q /\
      (1 <= StatementCycleDay loan <= 28)%Z /\
      LoanID tx = ID loan /\
      Type_ tx = TransactionTypeDisbursement /\
      Amount tx = principal.
Proof.
  intros env k p b v s Hl Ht Hnew.
  destruct (CreateLoan_cases env k p b v s)
    as [[_ [H|H]]|[(_ & _ & _ & H)|(Heq & _)]]; try congruence.
  eexists; eexists. split; [exact Heq|].
  cbn [Status Balance AccruedInterest InterestRate StatementCycleDay LoanID
         ID Type_ Amount].
  repeat split; try reflexivity.
  - apply toQ_Add.
  - unfold assignStatementCycleDay, Intn, maxStatementDay, minStatementDay.
    pose proof (Z.mod_pos_bound (ce_rand env) (28 - 1 + 1)). lia.
  - unfold assignStatementCycleDay, Intn, maxStatementDay, minStatementDay.
    pose proof (Z.mod_pos_bound (ce_rand env) (28 - 1 + 1)). lia.
Qed.

Lemma C9_witness :
  exists loan tx,
    CreateLoan example.createEnv "cust123" example.principal example.baseRate
      example.variance empty
    = (Ok loan, mkStore (loans empty ++ [loan]) (transactions empty ++ [tx])) /\
    Status loan = "active"%string /\
    Balance loan = example.principal /\
    AccruedInterest loan = Zero /\
    InterestRate loan = Add example.baseRate example.variance /\
    (toQ (InterestRate loan) == toQ example.baseRate + toQ example.variance)%Q /\
    (1 <= StatementCycleDay loan <= 28)%Z /\
    LoanID tx = ID loan /\
    Type_ tx = TransactionTypeDisbursement /\
    Amount tx = example.principal.
Proof.
  apply C9_CreateLoan_loan_and_disbursement; reflexivity.
Defined.

(** ** Payments *)

Lemma GetLoan_row (s : SQLiteStore) (loan : Loan) :
  wellFormed s -> In loan (loans s) ->
  store.GetLoan None (ID loan) s = Ok loan.
Proof.
  intros Hwf Hin. unfold store.GetLoan. rewrite find_row; auto.
Qed.

Lemma loanOf_replaceRow (ls : list Loan) (txs : list Transaction) (l l' : Loan) :
  NoDup (map ID ls) -> In l ls -> ID l' = ID l ->
  loanOf (ID l) (mkStore (replaceRow l l' ls) txs) = Some l'.
Proof.
  intros Hnd Hin Hid. unfold loanOf, replaceRow; cbn [loans].
  rewrite (loanOf_map (fun r => if N.eqb (ID r) (ID l) then l' else r) ls l).
  - rewrite N.eqb_refl. reflexivity.
  - intros r. destruct (N.eqb_spec (ID r) (ID l)); congruence.
  - exact Hnd.
  - exact Hin.
Qed.

Lemma paidLoan_ID env amount loan : ID (paidLoan env amount loan) = ID loan.
Proof. unfold paidLoan. destruct (LessThanOrEqual _ _); reflexivity. Qed.

Lemma paidLoan_CreatedAt env amount loan :
  CreatedAt (paidLoan env amount loan) = CreatedAt loan.
Proof. unfold paidLoan. destruct (LessThanOrEqual _ _); reflexivity. Qed.

(** [RecordPayment] on an active loan the store returns, by the answers of
    the two writes. *)
Lemma RecordPayment_active env s loan amount :
  wellFormed s -> In loan (loans s) -> Status loan = "active"%string ->
  pe_getFault env = None ->
  RecordPayment env (ID loan) amount s
  = match pe_updateFault env with
    | Some e =>
        (Err (wrap "failed to update loan balance"
                (wrap "failed to update loan" e)), s)
    | None =>
        let rows := replaceRow loan (paidLoan env amount loan) (loans s) in
        match pe_txFault env with
        | Some e =>
            (Err (wrap "failed to store payment transaction"
                    (wrap "failed to create transaction" e)),
             mkStore rows (transactions s))
        | None =>
            (Ok (paymentTransaction env (ID loan) amount),
             mkStore rows
               (transactions s ++ [paymentTransaction env (ID loan) amount]))
        end
    end.
Proof.
  intros Hwf Hin Hact Hget. unfold RecordPayment.
  rewrite Hget, GetLoan_row by assumption.
  rewrite Hact. cbn [String.eqb negb].
  change (negb (String.eqb "active" "active")) with false. cbv iota.
  destruct (pe_updateFault env) as [e|]; [reflexivity|].
  rewrite (UpdateLoan_rows s loan (paidLoan env amount loan) Hwf Hin
             (paidLoan_ID env amount loan) (paidLoan_CreatedAt env amount loan)).
  rewrite paidLoan_ID. unfold store.CreateTransaction, paymentTransaction.
  destruct (pe_txFault env) as [e|]; reflexivity.
Qed.

Lemma RecordPayment_not_active env s loan amount :
  wellFormed s -> In loan (loans s) -> Status loan <> "active"%string ->
  exists e, RecordPayment env (ID loan) amount s = (Err e, s).
Proof.
  intros Hwf Hin Hact. unfold RecordPayment.
  destruct (pe_getFault env) as [e|]; [eexists; reflexivity|].
  rewrite GetLoan_row by assumption.
  destruct (String.eqb_spec (Status loan) "active") as [Heq|_]; [contradiction|].
  eexists; reflexivity.
Qed.

(** C2. On an active loan, with a store that answers every call,
    [RecordPayment] replaces the loan's row: the balance is the old balance
    minus the amount, or exactly zero with status closed when that difference
    is zero or less; it appends one payment transaction carrying the amount
    as requested and returns it; and once the loan is closed every further
    payment attempt is an error that leaves the store as it is. *)
Theorem C2_RecordPayment_applies_payment :
  forall env amount s loan,
    wellFormed s -> In loan (loans s) -> Status loan = "active"%string ->
    pe_getFault env = None -> pe_updateFault env = None ->
    pe_txFault env = None ->
    exists loan' tx s',
      RecordPayment env (ID loan) amount s = (Ok tx, s') /\
      loanOf (ID loan) s' = Some loan' /\
      map ID (loans s') = map ID (loans s) /\
      transactions s' = transactions s ++ [tx] /\
      LoanID tx = ID loan /\ Type_ tx = TransactionTypePayment /\
      Amount tx = amount /\
      (if LessThanOrEqual (Sub (Balance loan) amount) Zero
       then Balance loan' = Zero /\ Status loan' = "closed"%string
       else Balance loan' = Sub (Balance loan) amount /\
            (toQ (Balance loan') == toQ (Balance loan) - toQ amount)%Q /\
            Status loan' = "active"%string) /\
      (Status loan' = "closed"%string ->
       forall env2 amount2,
         (exists e, RecordPayment env2 (ID loan) amount2 s' = (Err e, s')) /\
         (pe_getFault env2 = None ->
          RecordPayment env2 (ID loan) amount2 s'
          = (Err "loan is not active"%string, s'))).
Proof.
  intros env amount s loan Hwf Hin Hact Hget Hupd Htx.
  pose proof (RecordPayment_active env s loan amount Hwf Hin Hact Hget) as Heq.
  rewrite Hupd, Htx in Heq. cbv zeta in Heq.
  set (loan' := paidLoan env amount loan) in *.
  set (tx := paymentTransaction env (ID loan) amount) in *.
  set (s' := mkStore (replaceRow loan loan' (loans s)) (transactions s ++ [tx])) in *.
  assert (Hid : ID loan' = ID loan) by apply paidLoan_ID.
  assert (Hrow : loanOf (ID loan) s' = Some loan')
    by (apply loanOf_replaceRow; assumption).
  assert (Hwf' : wellFormed s').
  { unfold wellFormed, s'; cbn [loans]. rewrite replaceRow_ids; assumption. }
  exists loan', tx, s'. split; [exact Heq|]. split; [exact Hrow|].
  split; [apply replaceRow_ids; exact Hid|].
  repeat (split; [reflexivity|]). split.
  - unfold loan', paidLoan. cbn [Balance set_UpdatedAt set_Balance].
    destruct (LessThanOrEqual (Sub (Balance loan) amount) Zero).
    + split; reflexivity.
    + cbn [Balance Status set_UpdatedAt set_Balance]. rewrite Hact.
      repeat split; try reflexivity. apply toQ_Sub.
  - intros Hclosed env2 amount2.
    apply loanOf_In in Hrow. destruct Hrow as [Hin' _].
    rewrite <- Hid. split.
    + apply RecordPayment_not_active; try assumption.
      rewrite Hclosed. discriminate.
    + intros Hget2. unfold RecordPayment.
      rewrite Hget2, GetLoan_row by assumption. rewrite Hclosed. reflexivity.
Qed.

Lemma C2_witness :
  exists loan' tx s',
    RecordPayment (example.paymentEnv 9%N None None) (ID example.loan0)
      example.principal example.created = (Ok tx, s') /\
    loanOf (ID example.loan0) s' = Some loan' /\
    map ID (loans s') = map ID (loans example.created) /\
    transactions s' = transactions example.created ++ [tx] /\
    LoanID tx = ID example.loan0 /\ Type_ tx = TransactionTypePayment /\
    Amount tx = example.principal /\
    (if LessThanOrEqual (Sub (Balance example.loan0) example.principal) Zero
     then Balance loan' = Zero /\ Status loan' = "closed"%string
     else Balance loan' = Sub (Balance example.loan0) example.principal /\
          (toQ (Balance loan')
           == toQ (Balance example.loan0) - toQ example.principal)%Q /\
          Status loan' = "active"%string) /\
    (Status loan' = "closed"%string ->
     forall env2 amount2,
       (exists e,
           RecordPayment env2 (ID example.loan0) amount2 s' = (Err e, s')) /\
       (pe_getFault env2 = None ->
        RecordPayment env2 (ID example.loan0) amount2 s'
        = (Err "loan is not active"%string, s'))).
Proof.
  apply C2_RecordPayment_applies_payment; try reflexivity.
  - repeat constructor. intros [].
  - left. reflexivity.
Defined.

(** ** Validation and atomicity *)

(** C6, as stated, fails: the engine applies a payment of -50.00 to the loan
    of the example (the balance grows to 1050.00 and a payment transaction of
    -50.00 is stored), and creates a loan of principal 0. *)
Lemma C6_counterexample :
  LessThanOrEqual (New (-5000) (-2)) Zero = true /\
  RecordPayment (example.paymentEnv 9%N None None) 7%N (New (-5000) (-2))
    example.created
  = (Ok (paymentTransaction (example.paymentEnv 9%N None None) 7%N
           (New (-5000) (-2))),
     mkStore
       [set_UpdatedAt 300%Z (set_Balance (New 105000 (-2)) example.loan0)]
       [example.disbursement0;
        paymentTransaction (example.paymentEnv 9%N None None) 7%N
          (New (-5000) (-2))]) /\
  LessThanOrEqual (NewFromInt 0) Zero = true /\
  exists loan,
    fst (CreateLoan example.createEnv "cust123" (NewFromInt 0)
           example.baseRate example.variance empty) = Ok loan.
Proof.
  repeat split. eexists. reflexivity.
Qed.

(** C6, amended. A payment of a non-positive amount is turned away by the
    API handler, not by the engine: [recordPaymentHandler] answers 400 (Bad
    Request) without calling the engine, so the store is left as it is. *)
Theorem C6_handler_rejects_nonpositive_payment :
  forall env r amount s,
    api.req_amount r = Ok amount ->
    LessThanOrEqual amount Zero = true ->
    api.Code (fst (api.recordPaymentHandler env r s)) = api.StatusBadRequest /\
    snd (api.recordPaymentHandler env r s) = s.
Proof.
  intros env r amount s Hamt Hle. unfold api.recordPaymentHandler.
  destruct (api.req_id r) as [loanID|]; [|split; reflexivity].
  rewrite Hamt, Hle. split; reflexivity.
Qed.

Lemma C6_witness :
  api.Code (fst (api.recordPaymentHandler (example.paymentEnv 9%N None None)
                   (api.mkPaymentRequest (Some 7%N) (Ok (New (-5000) (-2))))
                   example.created)) = api.StatusBadRequest /\
  snd (api.recordPaymentHandler (example.paymentEnv 9%N None None)
         (api.mkPaymentRequest (Some 7%N) (Ok (New (-5000) (-2))))
         example.created) = example.created.
Proof.
  apply (C6_handler_rejects_nonpositive_payment _ _ (New (-5000) (-2)));
    reflexivity.
Defined.

(** C7, as stated, fails: when the store takes the loan update and then
    refuses the transaction, [RecordPayment] returns an error, the stored
    balance is already 600.00 and no payment transaction exists. *)
Lemma C7_counterexample :
  let env := example.paymentEnv 9%N None (Some "disk I/O error"%string) in
  let r := RecordPayment env 7%N (New 40000 (-2)) example.created in
  fst r = Err "failed to store payment transaction: failed to create transaction: disk I/O error"%string /\
  loanOf 7%N (snd r)
  = Some (set_UpdatedAt 300%Z (set_Balance (New 60000 (-2)) example.loan0)) /\
  transactions (snd r) = transactions example.created.
Proof.
  repeat split.
Qed.

(** C7, amended. [RecordPayment] and [CreateLoan] make their two writes one
    after the other, with no commit scope around them.  When the first write
    (the loan) fails, nothing is changed; when the first succeeds and the
    second (the transaction) fails, the call returns an error and the loan
    write stays in the store without its transaction.  For [RecordPayment]
    the writes are reached on an active loan of the store; for [CreateLoan]
    they are reached on every call, in every store, and the loan write fails
    on a driver error or on an id the store already holds. *)
Theorem C7_two_writes_no_commit_scope :
  (forall penv amount s loan,
      wellFormed s -> In loan (loans s) -> Status loan = "active"%string ->
      pe_getFault penv = None ->
      (pe_updateFault penv <> None ->
       exists err, RecordPayment penv (ID loan) amount s = (Err err, s)) /\
      (pe_updateFault penv = None -> pe_txFault penv <> None ->
       exists err,
         RecordPayment penv (ID loan) amount s
         = (Err err,
            mkStore (replaceRow loan (paidLoan penv amount loan) (loans s))
              (transactions s)))) /\
  (forall cenv customerKey principal baseRate variance s,
      (ce_loanFault cenv <> None \/ hasLoan (ce_loanID cenv) s = true ->
       exists err,
         CreateLoan cenv customerKey principal baseRate variance s
         = (Err err, s)) /\
      (ce_loanFault cenv = None -> hasLoan (ce_loanID cenv) s = false ->
       ce_txFault cenv <> None ->
       exists err created,
         CreateLoan cenv customerKey principal baseRate variance s
         = (Err err, mkStore (loans s ++ [created]) (transactions s)) /\
         ID created = ce_loanID cenv /\ Balance created = principal /\
         Status created = "active"%string)).
Proof.
  split.
  - intros penv amount s loan Hwf Hin Hact Hget.
    pose proof (RecordPayment_active penv s loan amount Hwf Hin Hact Hget)
      as Hpay.
    split.
    + intros Hupd. destruct (pe_updateFault penv) as [e|]; [|congruence].
      eexists. exact Hpay.
    + intros Hupd Htx. rewrite Hupd in Hpay.
      destruct (pe_txFault penv) as [e|]; [|congruence].
      eexists. exact Hpay.
  - intros cenv k p b v s. split.
    + intros Hfail. unfold CreateLoan, store.CreateLoan. cbn [ID].
      destruct (ce_loanFault cenv) as [e|]; [eexists; reflexivity|].
      destruct Hfail as [Hl|Hdup]; [congruence|].
      rewrite Hdup. eexists. reflexivity.
    + intros Hl Hnew Htx. unfold CreateLoan, store.CreateLoan.
      rewrite Hl. cbn [ID]. rewrite Hnew. unfold store.CreateTransaction.
      destruct (ce_txFault cenv) as [e|]; [|congruence].
      eexists; eexists. split; [reflexivity|].
      split; [reflexivity|]. split; reflexivity.
Qed.

Lemma C7_witness :
  (exists err,
     RecordPayment (example.paymentEnv 9%N (Some "disk I/O error"%string) None)
       (ID example.loan0) (New 40000 (-2)) example.created
     = (Err err, example.created)) /\
  (exists err,
     RecordPayment (example.paymentEnv 9%N None (Some "disk I/O error"%string))
       (ID example.loan0) (New 40000 (-2)) example.created
     = (Err err,
        mkStore
          (replaceRow example.loan0
             (paidLoan (example.paymentEnv 9%N None (Some "disk I/O error"%string))
                (New 40000 (-2)) example.loan0)
             (loans example.created))
          (transactions example.created))) /\
  (exists err,
     CreateLoan (example.createEnvWith (Some "disk I/O error"%string) None)
       "cust123" example.principal example.baseRate example.variance empty
     = (Err err, empty)) /\
  (exists err,
     CreateLoan (example.createEnvWith None None)
       "cust123" example.principal example.baseRate example.variance
       example.created
     = (Err err, example.created)) /\
  (exists err created,
     CreateLoan (example.createEnvWith None (Some "disk I/O error"%string))
       "cust123" example.principal example.baseRate example.variance empty
     = (Err err, mkStore (loans empty ++ [created]) (transactions empty)) /\
     ID created = 7%N /\ Balance created = example.principal /\
     Status created = "active"%string).
Proof.
  assert (Hwf : wellFormed example.created)
    by (repeat constructor; intros []).
  assert (Hin : In example.loan0 (loans example.created))
    by (left; reflexivity).
  split; [|split; [|split; [|split]]].
  - apply (proj1 (proj1 C7_two_writes_no_commit_scope
                    (example.paymentEnv 9%N (Some "disk I/O error"%string) None)
                    (New 40000 (-2)) example.created example.loan0
                    Hwf Hin eq_refl eq_refl)).
    discriminate.
  - apply (proj2 (proj1 C7_two_writes_no_commit_scope
                    (example.paymentEnv 9%N None (Some "disk I/O error"%string))
                    (New 40000 (-2)) example.created example.loan0
                    Hwf Hin eq_refl eq_refl)).
    + reflexivity.
    + discriminate.
  - apply (proj1 (proj2 C7_two_writes_no_commit_scope
                    (example.createEnvWith (Some "disk I/O error"%string) None)
                    "cust123"%string example.principal example.baseRate
                    example.variance empty)).
    left. discriminate.
  - apply (proj1 (proj2 C7_two_writes_no_commit_scope
                    (example.createEnvWith None None)
                    "cust123"%string example.principal example.baseRate
                    example.variance example.created)).
    right. reflexivity.
  - apply (proj2 (proj2 C7_two_writes_no_commit_scope
                    (example.createEnvWith None (Some "disk I/O error"%string))
                    "cust123"%string example.principal example.baseRate
                    example.variance empty)).
    + reflexivity.
    + reflexivity.
    + discriminate.
Defined.

(** ** Monthly capitalization *)

Lemma applyTransactions_own env day r :
  filter (fun t => N.eqb (LoanID t) (ID r)) (applyTransactions env day r)
  = applyTransactions env day r.
Proof.
  unfold applyTransactions. destruct (due day r); [|reflexivity].
  destruct (me_txFault env (ID r)); [reflexivity|].
  cbn [filter interestTransaction LoanID]. rewrite N.eqb_refl. reflexivity.
Qed.

Lemma applyTransactions_other env day r id :
  ID r <> id ->
  filter (fun t => N.eqb (LoanID t) id) (applyTransactions env day r) = [].
Proof.
  intros Hne. unfold applyTransactions. destruct (due day r); [|reflexivity].
  destruct (me_txFault env (ID r)); [reflexivity|].
  cbn [filter interestTransaction LoanID].
  destruct (N.eqb_spec (ID r) id); [contradiction|reflexivity].
Qed.

Lemma pass_transactions_other env day ls id :
  ~ In id (map ID ls) ->
  filter (fun t => N.eqb (LoanID t) id) (flat_map (applyTransactions env day) ls)
  = [].
Proof.
  induction ls as [|x ls IH]; cbn [flat_map map In]; intros Hnot; [reflexivity|].
  rewrite filter_app, IH by tauto.
  rewrite applyTransactions_other by tauto. reflexivity.
Qed.

(** Among the transactions a pass appends, those of a row are the ones its
    own iteration wrote. *)
Lemma pass_transactions_own env day ls r :
  NoDup (map ID ls) -> In r ls ->
  filter (fun t => N.eqb (LoanID t) (ID r))
    (flat_map (applyTransactions env day) ls)
  = applyTransactions env day r.
Proof.
  induction ls as [|x ls IH]; cbn [flat_map map In]; intros Hnd Hin;
    [contradiction|].
  inversion Hnd as [|? ? Hnotin Hnd']; subst. rewrite filter_app.
  destruct Hin as [->|Hin].
  - rewrite applyTransactions_own, pass_transactions_other by assumption.
    apply app_nil_r.
  - rewrite IH by assumption. rewrite applyTransactions_other; [reflexivity|].
    intros Heq. apply Hnotin. rewrite Heq. apply in_map, Hin.
Qed.

(** The row and the transactions of an active loan after a pass. *)
Lemma ApplyMonthlyInterest_loan env s r :
  wellFormed s -> In r (loans s) -> isActive r = true ->
  me_listFault env = None ->
  loanOf (ID r) (fst (ApplyMonthlyInterest env s))
  = Some (applyRow env (me_todayDay env) r) /\
  transactionsOf (ID r) (fst (ApplyMonthlyInterest env s))
  = transactionsOf (ID r) s ++ applyTransactions env (me_todayDay env) r.
Proof.
  intros Hwf Hin Hact Hlist.
  destruct (ApplyMonthlyInterest_rows env s Hwf Hlist) as [Hrows Htxs].
  unfold loanOf, transactionsOf. rewrite Hrows, Htxs. split.
  - rewrite (loanOf_map
               (fun r => if isActive r then applyRow env (me_todayDay env) r else r)
               (loans s) r).
    + rewrite Hact. reflexivity.
    + intros x. destruct (isActive x); [apply applyRow_ID|reflexivity].
    + exact Hwf.
    + exact Hin.
  - rewrite filter_app. f_equal. apply pass_transactions_own.
    + apply NoDup_ids_filter, Hwf.
    + apply filter_In. auto.
Qed.

(** C5. For an active loan whose statement cycle day is today's day of the
    month, in a pass in which the store answers the calls made for it: if its
    accrued interest is positive, the pass adds it to the balance, resets the
    accrued interest to zero and appends exactly one interest transaction of
    the amount accrued before the reset; if it is not positive, the loan's
    row and its transactions are left as they were. *)
Theorem C5_capitalization_on_cycle_day :
  forall env s r,
    wellFormed s -> In r (loans s) -> Status r = "active"%string ->
    StatementCycleDay r = me_todayDay env ->
    me_listFault env = None ->
    me_txFault env (ID r) = None -> me_updateFault env (ID r) = None ->
    let s' := fst (ApplyMonthlyInterest env s) in
    (GreaterThan (AccruedInterest r) Zero = true ->
     exists r' tx,
       loanOf (ID r) s' = Some r' /\
       Balance r' = Add (Balance r) (AccruedInterest r) /\
       (toQ (Balance r') == toQ (Balance r) + toQ (AccruedInterest r))%Q /\
       AccruedInterest r' = Zero /\
       Status r' = "active"%string /\
       transactionsOf (ID r) s' = transactionsOf (ID r) s ++ [tx] /\
       Type_ tx = TransactionTypeInterest /\
       Amount tx = AccruedInterest r) /\
    (GreaterThan (AccruedInterest r) Zero = false ->
     loanOf (ID r) s' = Some r /\
     transactionsOf (ID r) s' = transactionsOf (ID r) s).
Proof.
  intros env s r Hwf Hin Hact Hday Hlist Htx Hupd s'.
  assert (Hact' : isActive r = true) by (unfold isActive; rewrite Hact; reflexivity).
  destruct (ApplyMonthlyInterest_loan env s r Hwf Hin Hact' Hlist) as [Hrow Htxs].
  fold s' in Hrow, Htxs.
  unfold applyRow, applyTransactions, due in Hrow, Htxs.
  rewrite Hday, Z.eqb_refl, Htx in Hrow, Htxs. rewrite Hupd in Hrow.
  cbn [andb] in Hrow, Htxs. split; intros Hpos; rewrite Hpos in Hrow, Htxs.
  - exists (capitalizedLoan env r), (interestTransaction env r).
    repeat split; try assumption. apply toQ_Add.
  - rewrite app_nil_r in Htxs. split; assumption.
Qed.

Lemma C5_witness :
  let s' := fst (ApplyMonthlyInterest (example.monthlyEnv None) example.accrued) in
  (GreaterThan (AccruedInterest example.loanAccrued) Zero = true ->
   exists r' tx,
     loanOf (ID example.loanAccrued) s' = Some r' /\
     Balance r'
     = Add (Balance example.loanAccrued) (AccruedInterest example.loanAccrued) /\
     (toQ (Balance r')
      == toQ (Balance example.loanAccrued)
         + toQ (AccruedInterest example.loanAccrued))%Q /\
     AccruedInterest r' = Zero /\
     Status r' = "active"%string /\
     transactionsOf (ID example.loanAccrued) s'
     = transactionsOf (ID example.loanAccrued) example.accrued ++ [tx] /\
     Type_ tx = TransactionTypeInterest /\
     Amount tx = AccruedInterest example.loanAccrued) /\
  (GreaterThan (AccruedInterest example.loanAccrued) Zero = false ->
   loanOf (ID example.loanAccrued) s' = Some example.loanAccrued /\
   transactionsOf (ID example.loanAccrued) s'
   = transactionsOf (ID example.loanAccrued) example.accrued).
Proof.
  apply C5_capitalization_on_cycle_day; try reflexivity.
  - repeat constructor. intros [].
  - left. reflexivity.
Defined.

(** C10. In one iteration of the capitalization loop on a loan that is due,
    the interest transaction is appended first and the loan is written
    second; when that write fails the iteration logs the error and ends with
    the transaction in the store and the loan's row untouched.  So after the
    pass the loan still has its balance from before and its positive accrued
    interest while its interest transaction is stored, and the other loans of
    the pass are capitalized as usual. *)
Theorem C10_capitalization_not_atomic :
  forall env s r e,
    wellFormed s -> In r (loans s) -> Status r = "active"%string ->
    due (me_todayDay env) r = true ->
    me_listFault env = None ->
    me_txFault env (ID r) = None -> me_updateFault env (ID r) = Some e ->
    let s' := fst (ApplyMonthlyInterest env s) in
    (forall s0 out,
        applyLoan env (me_todayDay env) (s0, out) r
        = (mkStore (loans s0) (transactions s0 ++ [interestTransaction env r]),
           (out ++ [LogApplied (ID r) (AccruedInterest r)
                      (Add (Balance r) (AccruedInterest r))])
           ++ [LogUpdateError (ID r) (wrap "failed to update loan" e)])) /\
    loanOf (ID r) s' = Some r /\
    GreaterThan (AccruedInterest r) Zero = true /\
    transactionsOf (ID r) s'
    = transactionsOf (ID r) s ++ [interestTransaction env r] /\
    Amount (interestTransaction env r) = AccruedInterest r /\
    (forall r2,
        In r2 (loans s) -> Status r2 = "active"%string ->
        due (me_todayDay env) r2 = true ->
        me_txFault env (ID r2) = None -> me_updateFault env (ID r2) = None ->
        loanOf (ID r2) s' = Some (capitalizedLoan env r2)).
Proof.
  intros env s r e Hwf Hin Hact Hdue Hlist Htx Hupd s'.
  assert (Hact' : isActive r = true) by (unfold isActive; rewrite Hact; reflexivity).
  destruct (ApplyMonthlyInterest_loan env s r Hwf Hin Hact' Hlist) as [Hrow Htxs].
  fold s' in Hrow, Htxs.
  unfold applyRow, applyTransactions in Hrow, Htxs.
  rewrite Hdue, Htx in Hrow, Htxs. rewrite Hupd in Hrow.
  pose proof Hdue as Hdue'. unfold due in Hdue'.
  apply andb_prop in Hdue'. destruct Hdue' as [Hday Hpos].
  repeat split; try assumption.
  - intros s0 out. unfold applyLoan. rewrite Hday, Hpos.
    cbn [ID set_UpdatedAt set_Balance set_AccruedInterest].
    rewrite Htx, Hupd. reflexivity.
  - intros r2 Hin2 Hact2 Hdue2 Htx2 Hupd2.
    assert (Hact2' : isActive r2 = true)
      by (unfold isActive; rewrite Hact2; reflexivity).
    destruct (ApplyMonthlyInterest_loan env s r2 Hwf Hin2 Hact2' Hlist) as [Hrow2 _].
    fold s' in Hrow2. unfold applyRow in Hrow2.
    rewrite Hdue2, Htx2, Hupd2 in Hrow2. exact Hrow2.
Qed.

Lemma C10_witness :
  let env := example.monthlyEnv (Some "disk I/O error"%string) in
  let r := example.loanAccrued in
  let s' := fst (ApplyMonthlyInterest env example.accrued) in
  (forall s0 out,
      applyLoan env (me_todayDay env) (s0, out) r
      = (mkStore (loans s0) (transactions s0 ++ [interestTransaction env r]),
         (out ++ [LogApplied (ID r) (AccruedInterest r)
                    (Add (Balance r) (AccruedInterest r))])
         ++ [LogUpdateError (ID r)
               (wrap "failed to update loan" "disk I/O error"%string)])) /\
  loanOf (ID r) s' = Some r /\
  GreaterThan (AccruedInterest r) Zero = true /\
  transactionsOf (ID r) s'
  = transactionsOf (ID r) example.accrued ++ [interestTransaction env r] /\
  Amount (interestTransaction env r) = AccruedInterest r /\
  (forall r2,
      In r2 (loans example.accrued) -> Status r2 = "active"%string ->
      due (me_todayDay env) r2 = true ->
      me_txFault env (ID r2) = None -> me_updateFault env (ID r2) = None ->
      loanOf (ID r2) s' = Some (capitalizedLoan env r2)).
Proof.
  apply (C10_capitalization_not_atomic
           (example.monthlyEnv (Some "disk I/O error"%string))
           example.accrued example.loanAccrued "disk I/O error"%string);
    try reflexivity.
  - repeat constructor. intros [].
  - left. reflexivity.
Defined.

(** ** Division by the days of the year *)

Module division_facts.

(** Rounding a truncated quotient a half away from zero leaves at most half
    a divisor between the product and the dividend. *)
Lemma rounded_quotient_close (A B c : Z) :
  (0 < B)%Z ->
  c = match (2 * Z.abs (Z.rem A B) ?= B)%Z with
      | Lt => Z.quot A B
      | _ => if (A <? 0)%Z then (Z.quot A B - 1)%Z else (Z.quot A B + 1)%Z
      end ->
  (2 * Z.abs (c * B - A) <= B)%Z.
Proof.
  intros HB ->. pose proof (Z.quot_rem' A B) as Hqr.
  assert (Hr : (0 <= A -> 0 <= Z.rem A B < B)%Z)
    by (intros; apply Z.rem_bound_pos; lia).
  assert (Hr' : (A < 0 -> - B < Z.rem A B <= 0)%Z).
  { intros HA. pose proof (Z.rem_nonpos A B ltac:(lia) ltac:(lia)).
    pose proof (Z.rem_bound_abs A B ltac:(lia)). lia. }
  destruct (Z.compare_spec (2 * Z.abs (Z.rem A B)) B) as [H|H|H];
    destruct (Z.ltb_spec A 0); lia.
Qed.

Lemma Cmp_same_exp (v w e : Z) : Cmp (New v e) (New w e) = (v ?= w)%Z.
Proof. unfold Cmp; cbn [value exp]. rewrite Z.eqb_refl. reflexivity. Qed.

Lemma Cmp_integer (v e k : Z) :
  (e < 0)%Z -> Cmp (New v e) (New k 0) = (v ?= k * 10 ^ (- e))%Z.
Proof.
  intros He. unfold Cmp, RescalePair, rescale; cbn [value exp].
  destruct (Z.eqb_spec e 0) as [H|_]; [lia|].
  destruct (Z.ltb_spec e 0) as [_|H]; [|lia].
  destruct (Z.eqb_spec 0 e) as [H|_]; [lia|].
  destruct (Z.ltb_spec 0 e) as [H|_]; [lia|].
  cbn [value]. replace (Z.abs (e - 0)) with (- e)%Z by lia. reflexivity.
Qed.

Lemma Add_same_exp (v w e : Z) : Add (New v e) (New w e) = New (v + w) e.
Proof.
  unfold Add, RescalePair; cbn [value exp]. rewrite Z.ltb_irrefl. reflexivity.
Qed.

Lemma Sub_same_exp (v w e : Z) : Sub (New v e) (New w e) = New (v - w) e.
Proof.
  unfold Sub, RescalePair; cbn [value exp]. rewrite Z.ltb_irrefl. reflexivity.
Qed.

(** The coefficient of [Div d daysInYear]. *)
Lemma Div_daysInYear_value (d : Decimal) :
  let e := (exp d + 16)%Z in
  let A := if (e <? 0)%Z then value d else (value d * 10 ^ e)%Z in
  let B := if (e <? 0)%Z then (365 * 10 ^ (- e))%Z else 365%Z in
  exp (Div d daysInYear) = (-16)%Z /\
  value (Div d daysInYear)
  = match (2 * Z.abs (Z.rem A B) ?= B)%Z with
    | Lt => Z.quot A B
    | _ => if (A <? 0)%Z then (Z.quot A B - 1)%Z else (Z.quot A B + 1)%Z
    end.
Proof.
  intros e A B.
  assert (Hsgn : forall x, (Z.sgn x * Z.sgn 365 <? 0)%Z = (x <? 0)%Z).
  { intros x. destruct x; reflexivity. }
  unfold Div, DivRound, QuoRem, DivisionPrecision, daysInYear, NewFromInt, Abs.
  cbn [value exp].
  replace (exp d - 0 - - (16))%Z with e by (unfold e; lia).
  change (Z.abs 365) with 365%Z. change (- (16))%Z with (-16)%Z.
  unfold A, B. destruct (Z.ltb_spec e 0) as [He|He]; cbn [value exp];
    rewrite Sub_same_exp, Add_same_exp, Hsgn.
  - rewrite Z.shiftl_mul_pow2 by lia. change (2 ^ 1)%Z with 2%Z.
    fold e. rewrite Cmp_integer by exact He.
    rewrite (Z.mul_comm (Z.abs _) 2).
    destruct (2 * Z.abs (Z.rem (value d) (365 * 10 ^ (- e))) ?= 365 * 10 ^ (- e))%Z;
      [| split; reflexivity |];
      destruct (value d <? 0)%Z; split; reflexivity.
  - rewrite Z.shiftl_mul_pow2 by lia. change (2 ^ 1)%Z with 2%Z.
    replace (-16 + 0 + 16)%Z with 0%Z by lia. rewrite Cmp_same_exp.
    rewrite (Z.mul_comm (Z.abs _) 2).
    assert (Hneg : (value d * 10 ^ e <? 0)%Z = (value d <? 0)%Z).
    { pose proof (Z.pow_pos_nonneg 10 e ltac:(lia) He).
      destruct (Z.ltb_spec (value d * 10 ^ e) 0), (Z.ltb_spec (value d) 0);
        try reflexivity; nia. }
    rewrite Hneg.
    destruct (2 * Z.abs (Z.rem (value d * 10 ^ e) 365) ?= 365)%Z;
      [| split; reflexivity |];
      destruct (value d <? 0)%Z; split; reflexivity.
Qed.

Lemma exact_quotient_daysInYear (d : Decimal) :
  let e := (exp d + 16)%Z in
  let A := if (e <? 0)%Z then value d else (value d * 10 ^ e)%Z in
  let B := if (e <? 0)%Z then (365 * 10 ^ (- e))%Z else 365%Z in
  (0 < B)%Z /\
  (toQ d / toQ daysInYear == inject_Z A / inject_Z B * (10 # 1) ^ (-16))%Q.
Proof.
  intros e A B. unfold A, B, toQ, daysInYear, NewFromInt. cbn [value exp].
  assert (Hexp : exp d = (e + -16)%Z) by (unfold e; lia).
  rewrite Hexp at 1. rewrite Qpower_plus by exact ten_neq_0.
  change ((10 # 1) ^ 0)%Q with 1%Q.
  pose proof (ten_pow_pos (-16)) as Ht.
  destruct (Z.ltb_spec e 0) as [He|He].
  - split; [pose proof (Z.pow_pos_nonneg 10 (- e) ltac:(lia) ltac:(lia)); lia|].
    rewrite inject_Z_mult, Zpower_Qpower by lia.
    change (inject_Z 10) with (10 # 1). rewrite Qpower_opp.
    pose proof (ten_pow_pos e) as Hp.
    field. intros H. rewrite H in Hp. discriminate.
  - split; [lia|].
    rewrite inject_Z_mult, Zpower_Qpower by lia.
    change (inject_Z 10) with (10 # 1). field.
Qed.

(** [Div d daysInYear] has sixteen decimal places and is within half a unit
    of the sixteenth of the exact quotient. *)
Lemma Div_daysInYear_rounded (d : Decimal) :
  exp (Div d daysInYear) = (-16)%Z /\
  (Qabs (toQ (Div d daysInYear) - toQ d / toQ daysInYear)
   <= (1 # 2) * (10 # 1) ^ (-16))%Q.
Proof.
  destruct (Div_daysInYear_value d) as [He Hv].
  destruct (exact_quotient_daysInYear d) as [HB Hq].
  cbv zeta in Hv, HB, Hq.
  set (A := if (exp d + 16 <? 0)%Z then value d else (value d * 10 ^ (exp d + 16))%Z) in *.
  set (B := if (exp d + 16 <? 0)%Z then (365 * 10 ^ (- (exp d + 16)))%Z else 365%Z) in *.
  pose proof (rounded_quotient_close A B (value (Div d daysInYear)) HB Hv) as Hz.
  split; [exact He|].
  set (c := value (Div d daysInYear)) in *.
  assert (Hdiff : (toQ (Div d daysInYear) - toQ d / toQ daysInYear
                   == inject_Z (c * B - A) / inject_Z B * (10 # 1) ^ (-16))%Q).
  { rewrite Hq. unfold toQ. fold c. rewrite He.
    unfold Z.sub. rewrite inject_Z_plus, inject_Z_mult, inject_Z_opp.
    field. intros H. change 0%Q with (inject_Z 0) in H.
    apply (proj1 (inject_Z_injective B 0)) in H. lia. }
  rewrite Hdiff. apply Qabs_Qle_condition.
  assert (HBq : (0 < inject_Z B)%Q)
    by (change 0%Q with (inject_Z 0); rewrite <- Zlt_Qlt; exact HB).
  pose proof (ten_pow_pos (-16)) as Ht. apply Qlt_le_weak in Ht.
  split.
  - setoid_replace (- ((1 # 2) * (10 # 1) ^ (-16)))%Q
      with ((- (1 # 2)) * (10 # 1) ^ (-16))%Q by ring.
    apply Qmult_le_compat_r; [|exact Ht].
    apply Qle_shift_div_l; [exact HBq|].
    setoid_replace (- (1 # 2) * inject_Z B)%Q with (inject_Z (- B) * (1 # 2))%Q
      by (rewrite inject_Z_opp; ring).
    apply (Qmult_le_r _ _ (2 # 1)); [reflexivity|].
    setoid_replace (inject_Z (- B) * (1 # 2) * (2 # 1))%Q with (inject_Z (- B))
      by ring.
    change (2 # 1) with (inject_Z 2). rewrite <- inject_Z_mult, <- Zle_Qle. lia.
  - apply Qmult_le_compat_r; [|exact Ht].
    apply Qle_shift_div_r; [exact HBq|].
    apply (Qmult_le_r _ _ (2 # 1)); [reflexivity|].
    setoid_replace ((1 # 2) * inject_Z B * (2 # 1))%Q with (inject_Z B) by ring.
    change (2 # 1) with (inject_Z 2). rewrite <- inject_Z_mult, <- Zle_Qle. lia.
Qed.

End division_facts.

Import division_facts.

(** ** Daily accrual *)

Lemma Truncate_day_idempotent (t : Time) :
  Truncate (Truncate t (24 * Hour)) (24 * Hour) = Truncate t (24 * Hour).
Proof.
  unfold Truncate. change (24 * Hour <=? 0)%Z with false. cbv iota.
  rewrite Zminus_mod_idemp_r, Z.sub_diag, Z.mod_0_l by discriminate.
  apply Z.sub_0_r.
Qed.

(** The row of an active loan after a pass. *)
Lemma CalculateDailyInterest_loan env s r :
  wellFormed s -> In r (loans s) -> isActive r = true ->
  ae_listFault env = None ->
  loanOf (ID r) (fst (CalculateDailyInterest env s))
  = Some (accrueRow env (Truncate (ae_now env) (24 * Hour)) r).
Proof.
  intros Hwf Hin Hact Hlist.
  destruct (CalculateDailyInterest_rows env s Hwf Hlist) as [Hrows _].
  unfold loanOf. rewrite Hrows.
  rewrite (loanOf_map
             (fun r => if isActive r
                       then accrueRow env (Truncate (ae_now env) (24 * Hour)) r
                       else r) (loans s) r).
  - rewrite Hact. reflexivity.
  - intros x. destruct (isActive x); [apply accrueRow_ID|reflexivity].
  - exact Hwf.
  - exact Hin.
Qed.

(** A row a faultless pass has gone over is left alone by any pass of the
    same date. *)
Lemma accrueRow_settled env1 env2 (t : Time) (r : Loan) :
  (forall id, ae_updateFault env1 id = None) ->
  let today := Truncate t (24 * Hour) in
  accrueRow env2 today (accrueRow env1 today r) = accrueRow env1 today r.
Proof.
  intros Hok today. unfold accrueRow at 2 3.
  destruct (calculatedToday r today) eqn:Hcalc.
  - unfold accrueRow. rewrite Hcalc. reflexivity.
  - destruct (GreaterThan (interestAmount r) Zero) eqn:Hpos.
    + rewrite Hok. unfold accrueRow.
      replace (calculatedToday (accruedLoan env1 today r) today) with true;
        [reflexivity|].
      unfold calculatedToday, accruedLoan.
      cbn [LastInterestCalculationDate set_LastInterestCalculationDate].
      unfold today. rewrite Truncate_day_idempotent. symmetry. apply Z.eqb_refl.
    + unfold accrueRow. rewrite Hcalc, Hpos. reflexivity.
Qed.

Lemma CalculateDailyInterest_again env1 env2 s :
  wellFormed s -> ae_listFault env1 = None ->
  (forall id, ae_updateFault env1 id = None) ->
  Truncate (ae_now env2) (24 * Hour) = Truncate (ae_now env1) (24 * Hour) ->
  let s1 := fst (CalculateDailyInterest env1 s) in
  fst (CalculateDailyInterest env2 s1) = s1.
Proof.
  intros Hwf Hlist Hok Hday s1.
  destruct (ae_listFault env2) as [e|] eqn:Hlist2;
    [apply (CalculateDailyInterest_fault env2 s1 e Hlist2)|].
  assert (Hwf1 : wellFormed s1)
    by apply (step_wellFormed s (OpCalculateDailyInterest env1) Hwf).
  destruct (CalculateDailyInterest_rows env1 s Hwf Hlist) as [Hrows1 _].
  destruct (CalculateDailyInterest_rows env2 s1 Hwf1 Hlist2) as [Hrows2 Htxs2].
  fold s1 in Hrows1.
  assert (Hsame : loans (fst (CalculateDailyInterest env2 s1)) = loans s1).
  { rewrite Hrows2, Hrows1, map_map. apply map_ext. intros r. rewrite Hday.
    destruct (isActive r) eqn:Hact; [|rewrite Hact; reflexivity].
    unfold isActive. rewrite accrueRow_Status. fold (isActive r). rewrite Hact.
    apply accrueRow_settled, Hok. }
  destruct (fst (CalculateDailyInterest env2 s1)) as [ls ts], s1 as [ls1 ts1].
  cbn [loans transactions] in Hsame, Htxs2. congruence.
Qed.

(** C3. After a pass of daily accrual in which the store answers every call,
    each active loan not yet accrued that date whose daily interest is
    positive has the interest added and the date recorded; and any number of
    further passes on the same calendar date leave the whole store, hence the
    accrued interest, the accrual date and the rest of every loan, as the
    first pass left it. *)
Theorem C3_accrual_once_per_date :
  forall env1 (further : list AccrualEnv) s,
    wellFormed s ->
    ae_listFault env1 = None ->
    (forall id, ae_updateFault env1 id = None) ->
    Forall (fun env => Truncate (ae_now env) (24 * Hour)
                       = Truncate (ae_now env1) (24 * Hour)) further ->
    let today := Truncate (ae_now env1) (24 * Hour) in
    let s1 := fst (CalculateDailyInterest env1 s) in
    (forall r,
        In r (loans s) -> Status r = "active"%string ->
        calculatedToday r today = false ->
        GreaterThan (interestAmount r) Zero = true ->
        exists r1,
          loanOf (ID r) s1 = Some r1 /\
          AccruedInterest r1 = Add (AccruedInterest r) (interestAmount r) /\
          LastInterestCalculationDate r1 = Some today /\
          calculatedToday r1 today = true) /\
    fold_left (fun st env => fst (CalculateDailyInterest env st)) further s1 = s1.
Proof.
  intros env1 further s Hwf Hlist Hok Hdays today s1. split.
  - intros r Hin Hact Hcalc Hpos.
    assert (Hact' : isActive r = true)
      by (unfold isActive; rewrite Hact; reflexivity).
    pose proof (CalculateDailyInterest_loan env1 s r Hwf Hin Hact' Hlist) as Hrow.
    fold today s1 in Hrow. unfold accrueRow in Hrow.
    rewrite Hcalc, Hpos, Hok in Hrow.
    exists (accruedLoan env1 today r). repeat split; try assumption.
    unfold calculatedToday, accruedLoan.
    cbn [LastInterestCalculationDate set_LastInterestCalculationDate].
    unfold today. rewrite Truncate_day_idempotent. apply Z.eqb_refl.
  - induction Hdays as [|env2 rest Hday _ IH]; cbn [fold_left]; [reflexivity|].
    unfold s1 at 1.
    rewrite (CalculateDailyInterest_again env1 env2 s Hwf Hlist Hok Hday).
    exact IH.
Qed.

Lemma C3_witness :
  let env1 := example.accrualEnv example.morning in
  let further := [example.accrualEnv example.evening;
                  example.accrualEnv example.evening] in
  let today := Truncate (ae_now env1) (24 * Hour) in
  let s1 := fst (CalculateDailyInterest env1 example.created) in
  (forall r,
      In r (loans example.created) -> Status r = "active"%string ->
      calculatedToday r today = false ->
      GreaterThan (interestAmount r) Zero = true ->
      exists r1,
        loanOf (ID r) s1 = Some r1 /\
        AccruedInterest r1 = Add (AccruedInterest r) (interestAmount r) /\
        LastInterestCalculationDate r1 = Some today /\
        calculatedToday r1 today = true) /\
  fold_left (fun st env => fst (CalculateDailyInterest env st)) further s1 = s1.
Proof.
  apply (C3_accrual_once_per_date (example.accrualEnv example.morning)
           [example.accrualEnv example.evening;
            example.accrualEnv example.evening] example.created).
  - repeat constructor. intros [].
  - reflexivity.
  - intros id. reflexivity.
  - repeat constructor.
Defined.

(** C4, as stated, fails: for the loan of balance 1000.00 at the effective
    rate 0.10 one pass accrues 0.2739726027397, which is not
    1000.00 * (0.10 / 365): the quotient 0.10 / 365 has been rounded to
    0.0002739726027397. *)
Lemma C4_counterexample :
  let s1 := fst (CalculateDailyInterest (example.accrualEnv example.morning)
                   example.created) in
  exists r1,
    loanOf 7%N s1 = Some r1 /\
    Div (InterestRate example.loan0) daysInYear = New 2739726027397 (-16) /\
    AccruedInterest r1 = New 273972602739700000 (-18) /\
    ~ (toQ (AccruedInterest r1)
       == toQ (Balance example.loan0)
          * (toQ (InterestRate example.loan0) / toQ daysInYear))%Q.
Proof.
  eexists. split; [vm_compute; reflexivity|].
  split; [reflexivity|]. split; [reflexivity|].
  intros H. vm_compute in H. discriminate H.
Qed.

(** C4, amended. For an active loan not yet accrued today, in a pass in which
    the store answers the calls made for it, when
    balance * Div(effectiveRate, 365) is positive that product is what the
    pass adds to the accrued interest.  The product and the sum are exact;
    the quotient is the library's [Div]: it has sixteen decimal places and
    lies within half a unit of the sixteenth place of effectiveRate / 365. *)
Theorem C4_daily_interest_amount :
  forall env s r,
    wellFormed s -> In r (loans s) -> Status r = "active"%string ->
    calculatedToday r (Truncate (ae_now env) (24 * Hour)) = false ->
    ae_listFault env = None -> ae_updateFault env (ID r) = None ->
    GreaterThan (Mul (Balance r) (Div (InterestRate r) daysInYear)) Zero = true ->
    exists r1,
      loanOf (ID r) (fst (CalculateDailyInterest env s)) = Some r1 /\
      AccruedInterest r1
      = Add (AccruedInterest r) (Mul (Balance r) (Div (InterestRate r) daysInYear)) /\
      (toQ (AccruedInterest r1)
       == toQ (AccruedInterest r)
          + toQ (Balance r) * toQ (Div (InterestRate r) daysInYear))%Q /\
      exp (Div (InterestRate r) daysInYear) = (-16)%Z /\
      (Qabs (toQ (Div (InterestRate r) daysInYear)
             - toQ (InterestRate r) / toQ daysInYear)
       <= (1 # 2) * (10 # 1) ^ (-16))%Q.
Proof.
  intros env s r Hwf Hin Hact Hcalc Hlist Hupd Hpos.
  assert (Hact' : isActive r = true)
    by (unfold isActive; rewrite Hact; reflexivity).
  pose proof (CalculateDailyInterest_loan env s r Hwf Hin Hact' Hlist) as Hrow.
  unfold accrueRow in Hrow. fold (interestAmount r) in Hpos.
  rewrite Hcalc, Hpos, Hupd in Hrow.
  eexists. split; [exact Hrow|].
  destruct (Div_daysInYear_rounded (InterestRate r)) as [He Hb].
  repeat split; try assumption.
  unfold accruedLoan. cbn [AccruedInterest set_LastInterestCalculationDate
                             set_UpdatedAt set_AccruedInterest].
  rewrite toQ_Add. unfold interestAmount. rewrite toQ_Mul. reflexivity.
Qed.

Lemma C4_witness :
  exists r1,
    loanOf (ID example.loan0)
      (fst (CalculateDailyInterest (example.accrualEnv example.morning)
              example.created)) = Some r1 /\
    AccruedInterest r1
    = Add (AccruedInterest example.loan0)
        (Mul (Balance example.loan0)
           (Div (InterestRate example.loan0) daysInYear)) /\
    (toQ (AccruedInterest r1)
     == toQ (AccruedInterest example.loan0)
        + toQ (Balance example.loan0)
          * toQ (Div (InterestRate example.loan0) daysInYear))%Q /\
    exp (Div (InterestRate example.loan0) daysInYear) = (-16)%Z /\
    (Qabs (toQ (Div (InterestRate example.loan0) daysInYear)
           - toQ (InterestRate example.loan0) / toQ daysInYear)
     <= (1 # 2) * (10 # 1) ^ (-16))%Q.
Proof.
  apply C4_daily_interest_amount; try reflexivity.
  - repeat constructor. intros [].
  - left. reflexivity.
Defined.

(** ** The loan state machine *)

(** What a payment does to the store: nothing, or the row of an active loan
    is replaced and, unless the store refuses it, a transaction appended. *)
Lemma RecordPayment_store env id amount s :
  wellFormed s ->
  snd (RecordPayment env id amount s) = s \/
  exists loan,
    In loan (loans s) /\ ID loan = id /\ Status loan = "active"%string /\
    store.GetLoan (pe_getFault env) id s = Ok loan /\
    pe_updateFault env = None /\
    snd (RecordPayment env id amount s)
    = mkStore (replaceRow loan (paidLoan env amount loan) (loans s))
        (transactions s
         ++ match pe_txFault env with
            | None => [paymentTransaction env id amount]
            | Some _ => []
            end).
Proof.
  intros Hwf.
  destruct (store.GetLoan (pe_getFault env) id s) as [loan|e] eqn:Hget;
    [|left; unfold RecordPayment; rewrite Hget; reflexivity].
  assert (Hfault : pe_getFault env = None).
  { unfold store.GetLoan in Hget. destruct (pe_getFault env); [discriminate|reflexivity]. }
  assert (Hrow : In loan (loans s) /\ ID loan = id).
  { apply loanOf_In. unfold loanOf. unfold store.GetLoan in Hget.
    rewrite Hfault in Hget.
    destruct (find (fun r => N.eqb (ID r) id) (loans s)); congruence. }
  destruct Hrow as [Hin Hid]. subst id.
  destruct (String.eqb_spec (Status loan) "active") as [Hact|Hact].
  - rewrite (RecordPayment_active env s loan amount Hwf Hin Hact Hfault).
    destruct (pe_updateFault env) as [e|] eqn:Hupd; [left; reflexivity|].
    right. exists loan. repeat split; try assumption.
    cbv zeta. destruct (pe_txFault env); cbn [snd];
      [rewrite app_nil_r|]; reflexivity.
  - left. destruct (RecordPayment_not_active env s loan amount Hwf Hin Hact)
      as [e ->]. reflexivity.
Qed.

Lemma paidLoan_Status env amount loan :
  Status (paidLoan env amount loan) <> Status loan ->
  Status (paidLoan env amount loan) = "closed"%string /\
  Balance (paidLoan env amount loan) = Zero /\
  LessThanOrEqual (Sub (Balance loan) amount) Zero = true.
Proof.
  unfold paidLoan. cbn [Balance set_UpdatedAt set_Balance].
  destruct (LessThanOrEqual (Sub (Balance loan) amount) Zero).
  - intros _. repeat split.
  - cbn [Status set_UpdatedAt set_Balance]. congruence.
Qed.

(** One call of creation, accrual, capitalization or payment changes the
    status of a row only from active to closed, by a payment. *)
Lemma step_status s op r r' :
  wellFormed s ->
  In r (loans s) -> In r' (loans (step s op)) -> ID r' = ID r ->
  Status r' <> Status r ->
  Status r = "active"%string /\ Status r' = "closed"%string /\
  Balance r' = Zero /\
  exists env amount,
    op = OpRecordPayment env (ID r) amount /\
    LessThanOrEqual (Sub (Balance r) amount) Zero = true.
Proof.
  intros Hwf Hin Hin' Hid Hst.
  assert (Hsame : In r' (loans s) -> False).
  { intros H. apply Hst. f_equal. apply (row_unique (loans s)); assumption. }
  destruct op as [env k p b v|env|env|env id amount]; cbn [step] in Hin'.
  - exfalso.
    destruct (CreateLoan_cases env k p b v s)
      as [[Heq _]|[(Heq & _ & Hnew & _)|(Heq & _ & Hnew & _)]];
      rewrite Heq in Hin'; cbn [snd loans] in Hin'; auto;
      apply in_app_or in Hin'; destruct Hin' as [H|[<-|[]]]; auto;
      cbn [ID] in Hid; rewrite Hid in Hnew;
      assert (hasLoan (ID r) s = true) by (apply hasLoan_In, in_map, Hin);
      congruence.
  - exfalso. destruct (ae_listFault env) as [e|] eqn:Hl.
    + rewrite (CalculateDailyInterest_fault env s e Hl) in Hin'. auto.
    + destruct (CalculateDailyInterest_rows env s Hwf Hl) as [Hrows _].
      rewrite Hrows in Hin'. apply in_map_iff in Hin'.
      destruct Hin' as (x & Hx & Hxin). apply Hst. subst r'.
      assert (x = r).
      { apply (row_unique (loans s)); auto. rewrite <- Hid.
        destruct (isActive x); [symmetry; apply accrueRow_ID|reflexivity]. }
      subst x. destruct (isActive r); [apply accrueRow_Status|reflexivity].
  - exfalso. destruct (me_listFault env) as [e|] eqn:Hl.
    + rewrite (ApplyMonthlyInterest_fault env s e Hl) in Hin'. auto.
    + destruct (ApplyMonthlyInterest_rows env s Hwf Hl) as [Hrows _].
      rewrite Hrows in Hin'. apply in_map_iff in Hin'.
      destruct Hin' as (x & Hx & Hxin). apply Hst. subst r'.
      assert (x = r).
      { apply (row_unique (loans s)); auto. rewrite <- Hid.
        destruct (isActive x); [symmetry; apply applyRow_ID|reflexivity]. }
      subst x. destruct (isActive r); [apply applyRow_Status|reflexivity].
  - destruct (RecordPayment_store env id amount s Hwf)
      as [Heq|(loan & Hl & Hlid & Hact & _ & _ & Heq)];
      rewrite Heq in Hin'; [exfalso; auto|].
    cbn [loans] in Hin'. unfold replaceRow in Hin'. apply in_map_iff in Hin'.
    destruct Hin' as (x & Hx & Hxin).
    destruct (N.eqb_spec (ID x) (ID loan)) as [Hxl|_]; [|subst x; exfalso; auto].
    subst r'. rewrite paidLoan_ID in Hid.
    assert (loan = r) by (apply (row_unique (loans s)); auto). subst loan.
    destruct (paidLoan_Status env amount r Hst) as (Hc & Hb & Hle).
    repeat split; try assumption.
    exists env, amount. subst id. split; [reflexivity|exact Hle].
Qed.

(** A row that is not active is kept as it is by each of the four calls. *)
Lemma step_keeps_closed s op r :
  wellFormed s -> In r (loans s) -> Status r <> "active"%string ->
  In r (loans (step s op)).
Proof.
  intros Hwf Hin Hst.
  assert (Hact : isActive r = false).
  { unfold isActive. destruct (String.eqb_spec (Status r) "active"); congruence. }
  destruct op as [env k p b v|env|env|env id amount]; cbn [step].
  - destruct (CreateLoan_cases env k p b v s)
      as [[Heq _]|[(Heq & _)|(Heq & _)]];
      rewrite Heq; cbn [snd loans]; auto; apply in_or_app; auto.
  - destruct (ae_listFault env) as [e|] eqn:Hl.
    + rewrite (CalculateDailyInterest_fault env s e Hl). exact Hin.
    + destruct (CalculateDailyInterest_rows env s Hwf Hl) as [Hrows _].
      rewrite Hrows. apply in_map_iff. exists r. rewrite Hact. auto.
  - destruct (me_listFault env) as [e|] eqn:Hl.
    + rewrite (ApplyMonthlyInterest_fault env s e Hl). exact Hin.
    + destruct (ApplyMonthlyInterest_rows env s Hwf Hl) as [Hrows _].
      rewrite Hrows. apply in_map_iff. exists r. rewrite Hact. auto.
  - destruct (RecordPayment_store env id amount s Hwf)
      as [Heq|(loan & Hl & Hlid & Hlact & _ & _ & Heq)];
      rewrite Heq; [exact Hin|].
    cbn [loans]. unfold replaceRow. apply in_map_iff. exists r.
    split; [|exact Hin].
    destruct (N.eqb_spec (ID r) (ID loan)) as [Heq'|]; [|reflexivity].
    assert (r = loan) by (apply (row_unique (loans s)); auto). congruence.
Qed.

(** C8, as stated, fails for update and deletion: [UpdateLoan] stores a
    closed loan back as active, and [DeleteLoan] removes a closed loan with
    its transactions. *)
Lemma C8_counterexample :
  Status example.loanClosed = "closed"%string /\
  loanOf 7%N example.closed = Some example.loanClosed /\
  (exists s',
      ledger.UpdateLoan 500%Z None (set_Status "active" example.loanClosed)
        example.closed = Ok s' /\
      exists r', loanOf 7%N s' = Some r' /\ Status r' = "active"%string) /\
  ledger.DeleteLoan None 7%N example.closed = Ok empty.
Proof.
  repeat split. eexists. split; [reflexivity|].
  eexists. split; reflexivity.
Qed.

(** C8, amended. Under loan creations, daily accruals, monthly
    capitalizations and payments, whatever the store answers, the status of
    a loan changes only from active to closed and only in a payment that
    brings the balance to zero or below (the balance is then exactly zero);
    and a loan that is not active is left as it is by every sequence of
    these calls.  [UpdateLoan] and [DeleteLoan] are not part of this: they
    pass the record, or the id, to the store whatever the status. *)
Theorem C8_status_only_active_to_closed :
  forall s,
    wellFormed s ->
    (forall op r r',
        In r (loans s) -> In r' (loans (step s op)) -> ID r' = ID r ->
        Status r' <> Status r ->
        Status r = "active"%string /\ Status r' = "closed"%string /\
        Balance r' = Zero /\
        exists env amount,
          op = OpRecordPayment env (ID r) amount /\
          LessThanOrEqual (Sub (Balance r) amount) Zero = true) /\
    (forall ops r,
        In r (loans s) -> Status r <> "active"%string ->
        In r (loans (run ops s))).
Proof.
  intros s Hwf. split.
  - intros op r r'. apply step_status, Hwf.
  - intros ops. revert s Hwf.
    induction ops as [|op ops IH]; intros s Hwf r Hin Hst; cbn [run fold_left];
      [exact Hin|].
    apply IH.
    + apply step_wellFormed, Hwf.
    + apply step_keeps_closed; assumption.
    + exact Hst.
Qed.

Lemma C8_witness :
  (forall op r r',
      In r (loans example.closed) -> In r' (loans (step example.closed op)) ->
      ID r' = ID r -> Status r' <> Status r ->
      Status r = "active"%string /\ Status r' = "closed"%string /\
      Balance r' = Zero /\
      exists env amount,
        op = OpRecordPayment env (ID r) amount /\
        LessThanOrEqual (Sub (Balance r) amount) Zero = true) /\
  (forall ops r,
      In r (loans example.closed) -> Status r <> "active"%string ->
      In r (loans (run ops example.closed))).
Proof.
  apply C8_status_only_active_to_closed.
  repeat constructor. intros [].
Defined.

(** ** Conservation *)

Lemma toQ_netTransactions (s : SQLiteStore) :
  (toQ (netTransactions s) == netQ (transactions s))%Q.
Proof.
  unfold netTransactions, sumDisbursements, sumInterest, sumPayments.
  rewrite toQ_Sub, toQ_Add, !toQ_sumDecimals. reflexivity.
Qed.

Lemma toQ_sumBalances (s : SQLiteStore) :
  (toQ (sumBalances s) == balQ (loans s))%Q.
Proof. apply toQ_sumDecimals. Qed.

Lemma amountsIn_app ty (xs ys : list Transaction) :
  amountsIn ty (xs ++ ys) = amountsIn ty xs ++ amountsIn ty ys.
Proof. unfold amountsIn. rewrite filter_app, map_app. reflexivity. Qed.

Lemma netQ_app (xs ys : list Transaction) :
  (netQ (xs ++ ys) == netQ xs + netQ ys)%Q.
Proof. unfold netQ. rewrite !amountsIn_app, !sumQ_app. ring. Qed.

Lemma balQ_app (xs ys : list Loan) : (balQ (xs ++ ys) == balQ xs + balQ ys)%Q.
Proof. unfold balQ. rewrite map_app, sumQ_app. reflexivity. Qed.

Lemma balQ_replaceRow (ls : list Loan) (l l' : Loan) :
  NoDup (map ID ls) -> In l ls ->
  (balQ (replaceRow l l' ls)
   == balQ ls - toQ (Balance l) + toQ (Balance l'))%Q.
Proof.
  unfold balQ, replaceRow.
  induction ls as [|x ls IH]; cbn [map sumQ In]; intros Hnd Hin; [contradiction|].
  inversion Hnd as [|? ? Hnotin Hnd']; subst.
  destruct Hin as [->|Hin].
  - rewrite N.eqb_refl.
    assert (Hrest : map (fun r => if N.eqb (ID r) (ID l) then l' else r) ls = ls).
    { rewrite <- (map_id ls) at 2. apply map_ext_in. intros r Hr.
      destruct (N.eqb_spec (ID r) (ID l)) as [Heq|]; [|reflexivity].
      exfalso. apply Hnotin. rewrite <- Heq. apply in_map, Hr. }
    rewrite Hrest. ring.
  - destruct (N.eqb_spec (ID x) (ID l)) as [Heq|_].
    + exfalso. apply Hnotin. rewrite Heq. apply in_map, Hin.
    + rewrite IH by assumption. ring.
Qed.

(** The balances after a capitalization pass without faults grow by the
    amounts of the interest transactions it appends. *)
Lemma capitalization_balanced (env : MonthlyEnv) (ls : list Loan) :
  (forall id, me_txFault env id = None) ->
  (forall id, me_updateFault env id = None) ->
  let day := me_todayDay env in
  let new := flat_map (applyTransactions env day) (filter isActive ls) in
  (balQ (map (fun r => if isActive r then applyRow env day r else r) ls)
   == balQ ls + netQ new)%Q.
Proof.
  intros Htx Hupd day new. unfold new. clear new.
  induction ls as [|x ls IH]; cbn [map filter flat_map].
  - reflexivity.
  - change (balQ (?a :: ?l)) with (toQ (Balance a) + balQ l)%Q.
    rewrite IH. destruct (isActive x); cbn [flat_map]; [|ring].
    rewrite netQ_app. unfold applyRow, applyTransactions.
    destruct (due day x); rewrite ?Htx, ?Hupd.
    + unfold capitalizedLoan, netQ, amountsIn.
      cbn [filter map Type_ interestTransaction TransactionType_eqb Amount sumQ
             Balance set_AccruedInterest set_UpdatedAt set_Balance].
      rewrite toQ_Add. ring.
    + unfold netQ, amountsIn. cbn [filter map sumQ]. ring.
Qed.

Lemma daily_balances (env : AccrualEnv) (today : Time) (ls : list Loan) :
  map Balance (map (fun r => if isActive r then accrueRow env today r else r) ls)
  = map Balance ls.
Proof.
  rewrite map_map. apply map_ext. intros r.
  destruct (isActive r); [apply accrueRow_Balance|reflexivity].
Qed.

Lemma netQ_payment env id amount :
  (netQ [paymentTransaction env id amount] == - toQ amount)%Q.
Proof.
  unfold netQ, amountsIn.
  cbn [filter map Type_ TransactionType_eqb Amount paymentTransaction sumQ].
  ring.
Qed.

(** One faultless call never raises the net of the transactions above the
    balances, and keeps their difference unless it is an overpayment. *)
Lemma step_conservation (s : SQLiteStore) (op : Op) :
  wellFormed s -> faultless op ->
  let s' := step s op in
  (netQ (transactions s') - balQ (loans s')
   <= netQ (transactions s) - balQ (loans s))%Q /\
  (overpays s op = false ->
   (netQ (transactions s') - balQ (loans s')
    == netQ (transactions s) - balQ (loans s))%Q).
Proof.
  intros Hwf Hok s'. unfold s'. clear s'.
  destruct op as [env k p b v|env|env|env id amount]; cbn [step faultless] in *.
  - destruct Hok as [Hl Ht].
    destruct (CreateLoan_cases env k p b v s)
      as [[Heq _]|[(_ & _ & _ & Hbad)|(Heq & _)]]; [|congruence|];
      rewrite Heq; cbn [snd loans transactions].
    + split; [apply Qle_refl|reflexivity].
    + rewrite netQ_app, balQ_app. unfold netQ, balQ, amountsIn.
      cbn [filter map Type_ TransactionType_eqb Amount Balance sumQ].
      split; [apply Qle_lteq; right|intros _]; ring.
  - destruct Hok as [Hl Hupd].
    destruct (CalculateDailyInterest_rows env s Hwf Hl) as [Hrows Htxs].
    rewrite Hrows, Htxs. unfold balQ. rewrite daily_balances.
    split; [apply Qle_refl|reflexivity].
  - destruct Hok as (Hl & Htx & Hupd).
    destruct (ApplyMonthlyInterest_rows env s Hwf Hl) as [Hrows Htxs].
    rewrite Hrows, Htxs, netQ_app, capitalization_balanced by assumption.
    split; [apply Qle_lteq; right|intros _]; ring.
  - destruct Hok as (Hget & Hupd & Htx).
    destruct (RecordPayment_store env id amount s Hwf)
      as [Heq|(loan & Hin & Hid & Hact & Hgot & _ & Heq)]; rewrite Heq.
    + split; [apply Qle_refl|reflexivity].
    + cbn [loans transactions]. rewrite Htx, netQ_app.
      rewrite balQ_replaceRow by assumption.
      rewrite netQ_payment.
      cbn [overpays]. rewrite Hgot. unfold isActive. rewrite Hact.
      change (String.eqb "active" "active") with true. cbn [andb].
      unfold paidLoan. cbn [Balance set_UpdatedAt set_Balance].
      destruct (LessThanOrEqual (Sub (Balance loan) amount) Zero) eqn:Hle.
      * cbn [Balance set_UpdatedAt set_Balance set_Status].
        pose proof (proj1 (LessThanOrEqual_toQ _ _) Hle) as Hq.
        rewrite toQ_Sub, toQ_Zero in Hq. rewrite toQ_Zero. split.
        -- lra.
        -- intros Hover.
           assert (Heq0 : Cmp (Sub (Balance loan) amount) Zero = Eq).
           { unfold LessThanOrEqual in Hle.
             destruct (Cmp (Sub (Balance loan) amount) Zero); congruence. }
           rewrite Cmp_toQ in Heq0. apply Qeq_alt in Heq0.
           rewrite toQ_Sub, toQ_Zero in Heq0. lra.
      * cbn [Balance set_UpdatedAt set_Balance]. rewrite toQ_Sub.
        split; [apply Qle_lteq; right|intros _]; ring.
Qed.

Lemma run_conservation (ops : list Op) : forall s,
  wellFormed s -> Forall faultless ops ->
  (netQ (transactions (run ops s)) - balQ (loans (run ops s))
   <= netQ (transactions s) - balQ (loans s))%Q /\
  (noOverpayment s ops = true ->
   (netQ (transactions (run ops s)) - balQ (loans (run ops s))
    == netQ (transactions s) - balQ (loans s))%Q).
Proof.
  induction ops as [|op ops IH]; intros s Hwf Hok; cbn [run fold_left noOverpayment].
  - split; [apply Qle_refl|reflexivity].
  - inversion Hok as [|? ? Hop Hrest]; subst.
    destruct (step_conservation s op Hwf Hop) as [Hle Heq].
    destruct (IH (step s op) (step_wellFormed s op Hwf) Hrest) as [Hle' Heq'].
    fold (run ops (step s op)). split.
    + eapply Qle_trans; eassumption.
    + intros Hno. apply andb_prop in Hno. destruct Hno as [Hno1 Hno2].
      rewrite (Heq' Hno2). apply Heq.
      destruct (overpays s op); [discriminate|reflexivity].
Qed.

(** C1, as stated, fails.  After a creation and one daily accrual the
    transactions sum to 1000.00 while balances plus accrued interest are
    1000.2739726027397: accrual writes no transaction.  And after a creation
    and a payment of 2000.00 the transactions sum to -1000.00 while the
    balance, and the accrued interest, are zero: the overpayment is
    absorbed. *)
Lemma C1_counterexample :
  (let s := run example.accrualOps empty in
   Equal (netTransactions s) (Add (sumBalances s) (sumAccruedInterest s)) = false)
  /\
  (let s := run example.overpaymentOps empty in
   Equal (netTransactions s) (Add (sumBalances s) (sumAccruedInterest s)) = false).
Proof.
  split; vm_compute; reflexivity.
Qed.

(** C1, amended. After every sequence of loan creations, daily accruals,
    monthly capitalizations and payments from the empty store, in which the
    store answers every call, the sum of the disbursement amounts plus the
    sum of the interest amounts minus the sum of the payment amounts is at
    most the sum of the current balances, and equals it when no payment
    exceeded the balance of its loan.  Accrued interest is on neither side:
    it has no transaction until it is capitalized. *)
Theorem C1_conservation_of_balances :
  forall ops,
    Forall faultless ops ->
    let s := run ops empty in
    LessThanOrEqual (netTransactions s) (sumBalances s) = true /\
    (noOverpayment empty ops = true ->
     Equal (netTransactions s) (sumBalances s) = true).
Proof.
  intros ops Hok s.
  destruct (run_conservation ops empty wellFormed_empty Hok) as [Hle Heq].
  fold s in Hle, Heq.
  change (netQ (transactions empty) - balQ (loans empty))%Q
    with (0 + 0 - 0 - 0)%Q in Hle, Heq.
  split.
  - apply LessThanOrEqual_toQ.
    rewrite toQ_netTransactions, toQ_sumBalances. lra.
  - intros Hno. apply Equal_toQ.
    rewrite toQ_netTransactions, toQ_sumBalances. specialize (Heq Hno). lra.
Qed.

Lemma C1_witness :
  let s := run example.ops empty in
  LessThanOrEqual (netTransactions s) (sumBalances s) = true /\
  (noOverpayment empty example.ops = true ->
   Equal (netTransactions s) (sumBalances s) = true).
Proof.
  apply C1_conservation_of_balances.
  repeat constructor.
Defined.

(** ** The scenarios, evaluated *)

(** Principal 1000.00, base rate 0.12, variance -0.02: effective rate 0.10
    and one disbursement of 1000.00. *)
Example scenario_create :
  CreateLoan example.createEnv "cust123" example.principal example.baseRate
    example.variance empty
  = (Ok example.loan0, example.created).
Proof. reflexivity. Qed.

(** Accrued interest 5.00 on a balance of 1000.00, on the cycle day: balance
    1005.00, accrued interest zero, one interest transaction of 5.00. *)
Example scenario_capitalize :
  fst (ApplyMonthlyInterest (example.monthlyEnv None) example.accrued)
  = mkStore
      [set_AccruedInterest Zero
         (set_UpdatedAt 400%Z (set_Balance (New 100500 (-2)) example.loanAccrued))]
      [example.disbursement0;
       {| TxID := 1007%N; LoanID := 7%N; Amount := New 500 (-2);
          Type_ := TransactionTypeInterest; Timestamp := 401%Z |}].
Proof. reflexivity. Qed.

(** A payment of 200.00 against 1000.00 leaves 800.00 and the loan active. *)
Example scenario_partial_payment :
  loanOf 7%N
    (snd (RecordPayment (example.paymentEnv 9%N None None) 7%N (New 20000 (-2))
            example.created))
  = Some (set_UpdatedAt 300%Z (set_Balance (New 80000 (-2)) example.loan0)).
Proof. reflexivity. Qed.

(** Paying the whole balance closes the loan at balance zero, and the next
    payment is refused. *)
Example scenario_full_payment :
  let paid := snd (RecordPayment (example.paymentEnv 9%N None None) 7%N
                     example.principal example.created) in
  loanOf 7%N paid
  = Some (set_Balance Zero
            (set_Status "closed" (set_UpdatedAt 300%Z
               (set_Balance (New 0 (-2)) example.loan0)))) /\
  RecordPayment (example.paymentEnv 10%N None None) 7%N example.principal paid
  = (Err "loan is not active"%string, paid).
Proof. split; reflexivity. Qed.

(** The same moment of the day and a later one truncate to the same date. *)
Example scenario_same_date :
  Truncate example.morning (24 * Hour) = Truncate example.evening (24 * Hour).
Proof. reflexivity. Qed.

(** * More of the store and of the engine *)

(** ** Lookups *)

Lemma find_absent (id : UUID) (ls : list Loan) :
  existsb (fun r => N.eqb (ID r) id) ls = false ->
  find (fun r => N.eqb (ID r) id) ls = None.
Proof.
  induction ls as [|x ls IH]; cbn [existsb find]; [reflexivity|].
  destruct (N.eqb (ID x) id); cbn [orb]; [discriminate|exact IH].
Qed.

Lemma find_snoc (id : UUID) (ls : list Loan) (l : Loan) :
  find (fun r => N.eqb (ID r) id) (ls ++ [l])
  = match find (fun r => N.eqb (ID r) id) ls with
    | Some r => Some r
    | None => if N.eqb (ID l) id then Some l else None
    end.
Proof.
  induction ls as [|x ls IH]; cbn [app find]; [reflexivity|].
  destruct (N.eqb (ID x) id); [reflexivity|exact IH].
Qed.

Lemma find_filter_other (id id' : UUID) (ls : list Loan) :
  id' <> id ->
  find (fun r => N.eqb (ID r) id') (filter (fun r => negb (N.eqb (ID r) id)) ls)
  = find (fun r => N.eqb (ID r) id') ls.
Proof.
  intros Hne. induction ls as [|x ls IH]; cbn [filter find]; [reflexivity|].
  destruct (N.eqb_spec (ID x) id) as [Hx|Hx]; cbn [negb find].
  - destruct (N.eqb_spec (ID x) id') as [Hx'|_]; [congruence|exact IH].
  - destruct (N.eqb (ID x) id'); [reflexivity|exact IH].
Qed.

Lemma find_filter_same (id : UUID) (ls : list Loan) :
  find (fun r => N.eqb (ID r) id) (filter (fun r => negb (N.eqb (ID r) id)) ls)
  = None.
Proof.
  induction ls as [|x ls IH]; cbn [filter find]; [reflexivity|].
  destruct (N.eqb (ID x) id) eqn:Hx; cbn [negb find]; [exact IH|].
  rewrite Hx. exact IH.
Qed.

Lemma filter_filter_other (id id' : UUID) (ts : list Transaction) :
  id' <> id ->
  filter (fun t => N.eqb (LoanID t) id')
    (filter (fun t => negb (N.eqb (LoanID t) id)) ts)
  = filter (fun t => N.eqb (LoanID t) id') ts.
Proof.
  intros Hne. induction ts as [|x ts IH]; cbn [filter]; [reflexivity|].
  destruct (N.eqb_spec (LoanID x) id) as [Hx|Hx]; cbn [negb filter].
  - destruct (N.eqb_spec (LoanID x) id') as [Hx'|_]; [congruence|exact IH].
  - destruct (N.eqb (LoanID x) id'); [f_equal|]; exact IH.
Qed.

Lemma filter_filter_same (id : UUID) (ts : list Transaction) :
  filter (fun t => N.eqb (LoanID t) id)
    (filter (fun t => negb (N.eqb (LoanID t) id)) ts) = [].
Proof.
  induction ts as [|x ts IH]; cbn [filter]; [reflexivity|].
  destruct (N.eqb (LoanID x) id) eqn:Hx; cbn [negb filter]; [exact IH|].
  rewrite Hx. exact IH.
Qed.

(** Under the foreign key, an id that is not in [loans] has no
    transaction. *)
Lemma linked_no_transactions (s : SQLiteStore) (id : UUID) :
  linked s -> hasLoan id s = false -> transactionsOf id s = [].
Proof.
  intros Hl Hnew. unfold transactionsOf.
  assert (H : forall ts, (forall t, In t ts -> hasLoan (LoanID t) s = true) ->
                         filter (fun t => N.eqb (LoanID t) id) ts = []).
  { induction ts as [|x ts IH]; cbn [filter]; intros Hts; [reflexivity|].
    destruct (N.eqb_spec (LoanID x) id) as [Hx|_].
    - rewrite <- Hx, Hts in Hnew by (left; reflexivity). discriminate.
    - apply IH. intros t Ht. apply Hts. right. exact Ht. }
  apply H, Hl.
Qed.

(** X1. When the store answers both writes and the id is new, the loan
    [CreateLoan] returns is the one [GetLoan] then finds under its id, it is
    the last of [GetAllLoans], every other id is looked up as before, and the
    loan's transactions are exactly its disbursement. *)
Theorem X1_CreateLoan_then_lookup :
  forall env customerKey principal baseRate variance column s,
    linked s ->
    ce_loanFault env = None -> ce_txFault env = None ->
    hasLoan (ce_loanID env) s = false ->
    exists loan tx s',
      CreateLoan env customerKey principal baseRate variance s = (Ok loan, s') /\
      ID loan = ce_loanID env /\
      ledger.GetLoan None (ID loan) s' = Ok loan /\
      ledger.GetAllLoans None s' = Ok (loans s ++ [loan]) /\
      (forall id, id <> ID loan ->
                  ledger.GetLoan None id s' = ledger.GetLoan None id s) /\
      store.GetTransactionsForLoan None column (ID loan) s' = Ok [tx] /\
      Type_ tx = TransactionTypeDisbursement /\ Amount tx = principal.
Proof.
  intros env k p b v column s Hlinked Hl Ht Hnew.
  destruct (CreateLoan_cases env k p b v s)
    as [[_ [H|H]]|[(_ & _ & _ & H)|(Heq & _)]]; try congruence.
  eexists; eexists; eexists. split; [exact Heq|].
  cbn [ID Type_ Amount]. split; [reflexivity|].
  unfold ledger.GetLoan, ledger.GetAllLoans, store.GetLoan, store.GetAllLoans,
    store.GetTransactionsForLoan. cbn [loans transactions].
  split; [|split; [reflexivity|split; [|split]]].
  - rewrite find_snoc, find_absent by exact Hnew. cbn [ID].
    rewrite N.eqb_refl. reflexivity.
  - intros id Hid. rewrite find_snoc. cbn [ID].
    destruct (find (fun r => N.eqb (ID r) id) (loans s)); [reflexivity|].
    destruct (N.eqb_spec (ce_loanID env) id); congruence.
  - rewrite filter_app.
    change (filter (fun t => N.eqb (LoanID t) (ce_loanID env)) (transactions s))
      with (transactionsOf (ce_loanID env) s).
    rewrite linked_no_transactions by assumption.
    cbn [filter LoanID app]. rewrite N.eqb_refl. reflexivity.
  - split; reflexivity.
Qed.

Lemma X1_witness :
  exists loan tx s',
    CreateLoan example.createEnv "cust123" example.principal example.baseRate
      example.variance empty = (Ok loan, s') /\
    ID loan = ce_loanID example.createEnv /\
    ledger.GetLoan None (ID loan) s' = Ok loan /\
    ledger.GetAllLoans None s' = Ok (loans empty ++ [loan]) /\
    (forall id, id <> ID loan ->
                ledger.GetLoan None id s' = ledger.GetLoan None id empty) /\
    store.GetTransactionsForLoan None example.timestampColumn (ID loan) s'
    = Ok [tx] /\
    Type_ tx = TransactionTypeDisbursement /\ Amount tx = example.principal.
Proof.
  apply X1_CreateLoan_then_lookup; try reflexivity.
  intros t [].
Defined.

(** X2. Deleting a loan of the store removes it and every one of its
    transactions in one step: afterwards [GetLoan] answers "loan not found",
    the loan has no transactions, a second deletion answers "loan not
    found", and the loans and transactions of every other id are as
    before. *)
Theorem X2_DeleteLoan_cascade :
  forall column id s,
    hasLoan id s = true ->
    exists s',
      ledger.DeleteLoan None id s = Ok s' /\
      ledger.GetLoan None id s' = Err "loan not found"%string /\
      store.GetTransactionsForLoan None column id s' = Ok [] /\
      ledger.DeleteLoan None id s' = Err "loan not found"%string /\
      (forall id', id' <> id ->
         ledger.GetLoan None id' s' = ledger.GetLoan None id' s /\
         store.GetTransactionsForLoan None column id' s'
         = store.GetTransactionsForLoan None column id' s).
Proof.
  intros column id s Hhas. unfold ledger.DeleteLoan, store.DeleteLoan. rewrite Hhas.
  eexists. split; [reflexivity|].
  unfold ledger.GetLoan, store.GetLoan, store.GetTransactionsForLoan, hasLoan.
  cbn [loans transactions].
  rewrite find_filter_same, filter_filter_same.
  repeat split.
  - assert (Hnone : existsb (fun r => N.eqb (ID r) id)
                      (filter (fun r => negb (N.eqb (ID r) id)) (loans s)) = false).
    { destruct (existsb _ _) eqn:Hex; [|reflexivity].
      apply existsb_exists in Hex. destruct Hex as (x & Hx & Hxid).
      apply filter_In in Hx. destruct Hx as [_ Hx]. rewrite Hxid in Hx.
      discriminate. }
    rewrite Hnone. reflexivity.
  - rewrite find_filter_other by assumption. reflexivity.
  - rewrite filter_filter_other by assumption. reflexivity.
Qed.

Lemma X2_witness :
  exists s',
    ledger.DeleteLoan None 7%N example.twoLoans = Ok s' /\
    ledger.GetLoan None 7%N s' = Err "loan not found"%string /\
    store.GetTransactionsForLoan None example.timestampColumn 7%N s' = Ok [] /\
    ledger.DeleteLoan None 7%N s' = Err "loan not found"%string /\
    (forall id', id' <> 7%N ->
       ledger.GetLoan None id' s' = ledger.GetLoan None id' example.twoLoans /\
       store.GetTransactionsForLoan None example.timestampColumn id' s'
       = store.GetTransactionsForLoan None example.timestampColumn id'
           example.twoLoans).
Proof.
  apply X2_DeleteLoan_cascade. reflexivity.
Defined.

Lemma find_map_rows (f : Loan -> Loan) (id : UUID) (ls : list Loan) :
  (forall x, ID (f x) = ID x) ->
  find (fun r => N.eqb (ID r) id) (map f ls)
  = option_map f (find (fun r => N.eqb (ID r) id) ls).
Proof.
  intros Hid. induction ls as [|x ls IH]; cbn [map find option_map]; [reflexivity|].
  rewrite Hid. destruct (N.eqb (ID x) id); [reflexivity|exact IH].
Qed.

(** A successful [UpdateLoan] and the lookups after it. *)
Lemma UpdateLoan_lookup now loan s r :
  wellFormed s -> In r (loans s) -> ID loan = ID r ->
  exists s',
    ledger.UpdateLoan now None loan s = Ok s' /\
    ledger.GetLoan None (ID r) s'
    = Ok (set_CreatedAt (CreatedAt r) (set_UpdatedAt now loan)) /\
    (forall id, id <> ID r ->
                ledger.GetLoan None id s' = ledger.GetLoan None id s) /\
    transactions s' = transactions s.
Proof.
  intros Hwf Hin Hid. unfold ledger.UpdateLoan, store.UpdateLoan.
  change (ID (set_UpdatedAt now loan)) with (ID loan).
  assert (Hhas : hasLoan (ID loan) s = true)
    by (apply hasLoan_In; rewrite Hid; apply in_map, Hin).
  rewrite Hhas. eexists. split; [reflexivity|].
  unfold ledger.GetLoan, store.GetLoan. cbn [loans transactions].
  set (f := fun x => if N.eqb (ID x) (ID loan)
                     then set_CreatedAt (CreatedAt x) (set_UpdatedAt now loan)
                     else x).
  assert (Hf : forall x, ID (f x) = ID x).
  { intros x. unfold f. destruct (N.eqb_spec (ID x) (ID loan)) as [->|];
      reflexivity. }
  split; [|split; [|reflexivity]].
  - rewrite (find_map_rows f (ID r) (loans s) Hf), find_row by assumption.
    cbn [option_map]. unfold f. rewrite Hid, N.eqb_refl. reflexivity.
  - intros id Hne. rewrite (find_map_rows f id (loans s) Hf).
    destruct (find (fun x => N.eqb (ID x) id) (loans s)) as [x|] eqn:Hfind;
      [|reflexivity].
    apply find_some in Hfind. destruct Hfind as [_ Hx]. apply N.eqb_eq in Hx.
    cbn [option_map]. unfold f.
    destruct (N.eqb_spec (ID x) (ID loan)); [congruence|reflexivity].
Qed.

(** X3. [UpdateLoan] replaces the whole record of the loan with the given
    id, status and balance included, whatever the stored status: afterwards
    [GetLoan] returns the record given, with [UpdatedAt] set to the time of
    the call and [CreatedAt] as it was stored; the other loans and all
    transactions are as before.  For an id that is not in the store it
    answers "loan not found". *)
Theorem X3_UpdateLoan_replaces_record :
  forall now loan s r,
    wellFormed s -> In r (loans s) -> ID loan = ID r ->
    (exists s',
        ledger.UpdateLoan now None loan s = Ok s' /\
        ledger.GetLoan None (ID r) s'
        = Ok (set_CreatedAt (CreatedAt r) (set_UpdatedAt now loan)) /\
        (forall id, id <> ID r ->
                    ledger.GetLoan None id s' = ledger.GetLoan None id s) /\
        transactions s' = transactions s) /\
    (forall other,
        hasLoan (ID other) s = false ->
        ledger.UpdateLoan now None other s = Err "loan not found"%string).
Proof.
  intros now loan s r Hwf Hin Hid. split.
  - apply UpdateLoan_lookup; assumption.
  - intros other Hnew. unfold ledger.UpdateLoan, store.UpdateLoan.
    change (ID (set_UpdatedAt now other)) with (ID other).
    rewrite Hnew. reflexivity.
Qed.

Lemma X3_witness :
  (exists s',
      ledger.UpdateLoan 500%Z None (set_Status "active" example.loanClosed)
        example.closed = Ok s' /\
      ledger.GetLoan None (ID example.loanClosed) s'
      = Ok (set_CreatedAt (CreatedAt example.loanClosed)
              (set_UpdatedAt 500%Z (set_Status "active" example.loanClosed))) /\
      (forall id, id <> ID example.loanClosed ->
                  ledger.GetLoan None id s' = ledger.GetLoan None id example.closed) /\
      transactions s' = transactions example.closed) /\
  (forall other,
      hasLoan (ID other) example.closed = false ->
      ledger.UpdateLoan 500%Z None other example.closed
      = Err "loan not found"%string).
Proof.
  apply (X3_UpdateLoan_replaces_record 500%Z
           (set_Status "active" example.loanClosed) example.closed
           example.loanClosed).
  - repeat constructor. intros [].
  - left. reflexivity.
  - reflexivity.
Defined.

(** ** The transactions of a loan *)

Lemma insertByTimestamp_Permutation (column : TimestampColumn)
  (t : Transaction) (ts : list Transaction) :
  Permutation (insertByTimestamp column t ts) (t :: ts).
Proof.
  induction ts as [|x ts IH]; cbn [insertByTimestamp]; [reflexivity|].
  destruct (String.leb (column t) (column x)); [reflexivity|].
  rewrite IH. apply perm_swap.
Qed.

Lemma orderByTimestamp_Permutation (column : TimestampColumn)
  (ts : list Transaction) :
  Permutation (orderByTimestamp column ts) ts.
Proof.
  induction ts as [|x ts IH]; cbn [orderByTimestamp fold_right];
    [constructor|].
  fold (orderByTimestamp column ts).
  rewrite insertByTimestamp_Permutation. constructor. exact IH.
Qed.

(** Of two texts one is not above the other. *)
Lemma leb_false_flip (a b : string) :
  String.leb a b = false -> String.leb b a = true.
Proof.
  intros Hab. destruct (String.leb_total a b) as [H|H]; [congruence|exact H].
Qed.

Lemma insertByTimestamp_Sorted (column : TimestampColumn)
  (t : Transaction) (ts : list Transaction) :
  byTimestampColumn column ts ->
  byTimestampColumn column (insertByTimestamp column t ts).
Proof.
  unfold byTimestampColumn.
  induction ts as [|x ts IH]; cbn [insertByTimestamp]; intros Hs.
  - repeat constructor.
  - destruct (String.leb (column t) (column x)) eqn:Hle.
    + constructor; [exact Hs|]. constructor. exact Hle.
    + apply leb_false_flip in Hle.
      inversion Hs as [|? ? Hs' Hhd]; subst. constructor; [apply IH, Hs'|].
      destruct ts as [|y ts]; cbn [insertByTimestamp].
      * constructor. exact Hle.
      * destruct (String.leb (column t) (column y)); constructor;
          [exact Hle|].
        inversion Hhd; subst. assumption.
Qed.

Lemma orderByTimestamp_Sorted (column : TimestampColumn)
  (ts : list Transaction) :
  byTimestampColumn column (orderByTimestamp column ts).
Proof.
  induction ts as [|x ts IH]; cbn [orderByTimestamp fold_right].
  - constructor.
  - apply insertByTimestamp_Sorted, IH.
Qed.

(** Rows in the order of their texts are in the order of their instants
    when the texts order them as the instants do. *)
Lemma byTimestampColumn_byTimestamp (column : TimestampColumn)
  (ts : list Transaction) :
  columnFollowsInstants column ts ->
  byTimestampColumn column ts -> byTimestamp ts.
Proof.
  unfold byTimestampColumn, byTimestamp, columnFollowsInstants.
  induction ts as [|x ts IH]; intros Hcol Hs; [constructor|].
  inversion Hs as [|? ? Hs' Hhd]; subst. constructor.
  - apply IH; [|exact Hs'].
    intros a b Ha Hb. apply Hcol; right; assumption.
  - destruct Hhd as [|y ts Hxy]; constructor.
    apply Hcol; [left; reflexivity|right; left; reflexivity|exact Hxy].
Qed.

(** X4. [GetTransactionsForLoan] returns the transactions of the loan and no
    others, each as often as the table holds it, in the order of the texts
    the driver stored in the [timestamp] column; for a loan without
    transactions, or an id the store does not know, that is the empty list
    and not an error.  The list is in the order of the instants when the
    stored texts order the loan's rows as their instants do, as they do when
    every row was written under one zone offset. *)
Theorem X4_GetTransactionsForLoan_sorted :
  forall column id s,
    exists ts,
      store.GetTransactionsForLoan None column id s = Ok ts /\
      Permutation ts (transactionsOf id s) /\
      byTimestampColumn column ts /\
      (forall t, In t ts <-> In t (transactions s) /\ LoanID t = id) /\
      (transactionsOf id s = [] -> ts = []) /\
      (columnFollowsInstants column (transactionsOf id s) -> byTimestamp ts).
Proof.
  intros column id s. unfold store.GetTransactionsForLoan. eexists.
  split; [reflexivity|].
  fold (transactionsOf id s).
  pose proof (orderByTimestamp_Permutation column (transactionsOf id s))
    as Hperm.
  split; [exact Hperm|]. split; [apply orderByTimestamp_Sorted|].
  split; [|split].
  - intros t. split.
    + intros Ht. apply (Permutation_in _ Hperm) in Ht.
      apply filter_In in Ht. destruct Ht as [Ht Hid]. apply N.eqb_eq in Hid.
      auto.
    + intros [Ht Hid]. apply (Permutation_in _ (Permutation_sym Hperm)).
      apply filter_In. split; [exact Ht|]. apply N.eqb_eq, Hid.
  - intros ->. reflexivity.
  - intros Hcol.
    apply (byTimestampColumn_byTimestamp column);
      [|apply orderByTimestamp_Sorted].
    intros a b Ha Hb. apply Hcol.
    + apply (Permutation_in _ Hperm), Ha.
    + apply (Permutation_in _ Hperm), Hb.
Qed.

Lemma X4_witness :
  exists ts,
    store.GetTransactionsForLoan None example.timestampColumn 7%N
      example.twoLoans = Ok ts /\
    Permutation ts (transactionsOf 7%N example.twoLoans) /\
    byTimestampColumn example.timestampColumn ts /\
    (forall t, In t ts <->
               In t (transactions example.twoLoans) /\ LoanID t = 7%N) /\
    byTimestamp ts.
Proof.
  destruct (X4_GetTransactionsForLoan_sorted example.timestampColumn 7%N
              example.twoLoans) as (ts & Hget & Hperm & Hcol & Hin & _ & Hinst).
  exists ts. split; [exact Hget|]. split; [exact Hperm|].
  split; [exact Hcol|]. split; [exact Hin|].
  apply Hinst. intros a b Ha Hb.
  destruct Ha as [<-|[<-|[]]]; destruct Hb as [<-|[<-|[]]];
    vm_compute; congruence.
Defined.

(** Rows written under two zone offsets: the payment made first, half an
    hour after the epoch, was stored with the wall clock of a zone two hours
    east, and its text is above that of the payment made half an hour
    later in UTC.  [GetTransactionsForLoan] returns the later payment
    first. *)
Example GetTransactionsForLoan_two_offsets :
  store.GetTransactionsForLoan None example.timestampColumn 7%N
    example.twoZones = Ok [example.payment20; example.payment21] /\
  (Timestamp example.payment21 < Timestamp example.payment20)%Z /\
  ~ byTimestamp [example.payment20; example.payment21].
Proof.
  split; [reflexivity|]. split; [reflexivity|].
  intros Hs. inversion Hs as [|? ? _ Hhd]; subst.
  inversion Hhd as [|? ? Hle]; subst. vm_compute in Hle. apply Hle.
  reflexivity.
Qed.

(** ** Schema initialization *)

Lemma substring_whole (s : string) : substring 0 (String.length s) s = s.
Proof. induction s as [|c s IH]; cbn; [reflexivity|]. rewrite IH. reflexivity. Qed.

Lemma substring_length (n : nat) (s : string) :
  String.length (substring 0 n s) = Nat.min n (String.length s).
Proof.
  revert s. induction n as [|n IH]; intros [|c s]; cbn; try reflexivity.
  rewrite IH. reflexivity.
Qed.

Lemma isDuplicateColumnError_Some (msg : string) :
  isDuplicateColumnError (Some msg) = String.prefix "duplicate column name" msg.
Proof.
  unfold isDuplicateColumnError.
  set (p := "duplicate column name"%string).
  destruct (String.prefix p msg) eqn:Hp.
  - apply prefix_correct in Hp. change (String.length p) with 21%nat in Hp.
    rewrite Hp, String.eqb_refl, andb_true_r.
    destruct (Nat.ltb_spec 21 (String.length msg)) as [Hlt|Hge];
      [apply orb_true_r|].
    pose proof (substring_length 21 msg) as Hlen. rewrite Hp in Hlen.
    change (String.length p) with 21%nat in Hlen.
    assert (Heq : String.length msg = 21%nat) by lia.
    rewrite <- Heq, substring_whole in Hp. rewrite Hp, String.eqb_refl.
    reflexivity.
  - destruct (String.eqb_spec msg p) as [->|_]; [discriminate|].
    destruct (String.eqb_spec (substring 0 21 msg) p) as [Hsub|_];
      [|rewrite andb_false_r; reflexivity].
    change 21%nat with (String.length p) in Hsub at 1.
    apply prefix_correct in Hsub. congruence.
Qed.

(** X5. [isDuplicateColumnError] holds of exactly the errors whose message
    begins with "duplicate column name", and not of a nil error. *)
Theorem X5_isDuplicateColumnError_prefix :
  isDuplicateColumnError None = false /\
  forall msg,
    isDuplicateColumnError (Some msg) = String.prefix "duplicate column name" msg.
Proof.
  split; [reflexivity|]. apply isDuplicateColumnError_Some.
Qed.

(** X6. [initSchema] can be run on a database that has its tables and
    columns already: it returns no error exactly when the statement creating
    the tables succeeds and each [ALTER TABLE] either succeeds or fails with
    a message beginning "duplicate column name". *)
Theorem X6_initSchema_rerun :
  forall schemaAnswer exec,
    store.initSchema schemaAnswer exec = None <->
    schemaAnswer = None /\
    forall col, In col store.columns ->
      match exec ("ALTER TABLE loans ADD COLUMN " ++ col)%string with
      | None => True
      | Some msg => String.prefix "duplicate column name" msg = true
      end.
Proof.
  intros schemaAnswer exec. unfold store.initSchema.
  destruct schemaAnswer as [e|]; [split; [discriminate|intros [H _]; discriminate]|].
  pose proof isDuplicateColumnError_Some as Hdup.
  generalize store.columns as cols.
  induction cols as [|col cols IH]; cbn [store.addColumns In].
  - split; [intros _; split; [reflexivity|intros ? []]|reflexivity].
  - destruct (exec ("ALTER TABLE loans ADD COLUMN " ++ col)%string) as [msg|] eqn:Hex.
    + rewrite Hdup. destruct (String.prefix "duplicate column name" msg) eqn:Hp;
        cbn [negb].
      * rewrite IH. split; intros [_ H]; (split; [reflexivity|]).
        -- intros c [<-|Hc]; [rewrite Hex; exact Hp|apply H, Hc].
        -- intros c Hc. apply H. right. exact Hc.
      * split; [discriminate|]. intros [_ H].
        specialize (H col (or_introl eq_refl)). rewrite Hex in H. congruence.
    + rewrite IH. split; intros [_ H]; (split; [reflexivity|]).
      * intros c [<-|Hc]; [rewrite Hex; exact I|apply H, Hc].
      * intros c Hc. apply H. right. exact Hc.
Qed.

Lemma X6_witness :
  store.initSchema None
    (fun stmt => Some ("duplicate column name: " ++ substring 29 64 stmt)%string)
  = None.
Proof.
  apply X6_initSchema_rerun. split; [reflexivity|].
  intros col _. reflexivity.
Defined.

(** ** Invariants of the store *)

Lemma hasLoan_ids (id : UUID) (s s' : SQLiteStore) :
  map ID (loans s') = map ID (loans s) -> hasLoan id s' = hasLoan id s.
Proof.
  intros Hids. unfold hasLoan.
  assert (H : forall ls, existsb (fun r => N.eqb (ID r) id) ls
                         = existsb (fun i => N.eqb i id) (map ID ls)).
  { induction ls as [|x ls IH]; cbn; [reflexivity|]. rewrite IH. reflexivity. }
  rewrite !H, Hids. reflexivity.
Qed.

Lemma linked_extend (s s' : SQLiteStore) :
  (forall id, hasLoan id s = true -> hasLoan id s' = true) ->
  (forall t, In t (transactions s') ->
             In t (transactions s) \/ hasLoan (LoanID t) s' = true) ->
  linked s -> linked s'.
Proof.
  intros Hloans Htxs Hl t Ht. destruct (Htxs t Ht) as [H|H]; auto.
Qed.

Lemma step_ids (s : SQLiteStore) (op : Op) (id : UUID) :
  wellFormed s -> hasLoan id s = true -> hasLoan id (step s op) = true.
Proof.
  intros Hwf Hhas.
  destruct op as [env k p b v|env|env|env pid amount]; cbn [step].
  - destruct (CreateLoan_cases env k p b v s)
      as [[Heq _]|[(Heq & _)|(Heq & _)]]; rewrite Heq; cbn [snd]; auto;
      unfold hasLoan in *; cbn [loans]; rewrite existsb_app, Hhas; reflexivity.
  - destruct (ae_listFault env) as [e|] eqn:Hl.
    + rewrite (CalculateDailyInterest_fault env s e Hl). exact Hhas.
    + destruct (CalculateDailyInterest_rows env s Hwf Hl) as [Hrows _].
      erewrite hasLoan_ids; [exact Hhas|]. rewrite Hrows, map_map.
      apply map_ext. intros r.
      destruct (isActive r); [apply accrueRow_ID|reflexivity].
  - destruct (me_listFault env) as [e|] eqn:Hl.
    + rewrite (ApplyMonthlyInterest_fault env s e Hl). exact Hhas.
    + destruct (ApplyMonthlyInterest_rows env s Hwf Hl) as [Hrows _].
      erewrite hasLoan_ids; [exact Hhas|]. rewrite Hrows, map_map.
      apply map_ext. intros r.
      destruct (isActive r); [apply applyRow_ID|reflexivity].
  - erewrite hasLoan_ids; [exact Hhas|]. apply RecordPayment_loans.
Qed.

Lemma step_linked (s : SQLiteStore) (op : Op) :
  wellFormed s -> linked s -> linked (step s op).
Proof.
  intros Hwf Hl. apply (linked_extend s); [intros id; apply step_ids, Hwf| |exact Hl].
  intros t Ht.
  destruct op as [env k p b v|env|env|env pid amount]; cbn [step] in *.
  - destruct (CreateLoan_cases env k p b v s)
      as [[Heq _]|[(Heq & _)|(Heq & _)]]; rewrite Heq in *; cbn [snd] in *;
      cbn [transactions] in Ht; auto.
    apply in_app_or in Ht. destruct Ht as [Ht|[<-|[]]]; [auto|right].
    unfold hasLoan. cbn [loans LoanID]. rewrite existsb_app. cbn [existsb ID].
    rewrite N.eqb_refl. apply orb_true_iff. right. reflexivity.
  - left. destruct (ae_listFault env) as [e|] eqn:Hlist.
    + rewrite (CalculateDailyInterest_fault env s e Hlist) in Ht. exact Ht.
    + destruct (CalculateDailyInterest_rows env s Hwf Hlist) as [_ Htxs].
      rewrite Htxs in Ht. exact Ht.
  - destruct (me_listFault env) as [e|] eqn:Hlist.
    + rewrite (ApplyMonthlyInterest_fault env s e Hlist) in *. auto.
    + destruct (ApplyMonthlyInterest_rows env s Hwf Hlist) as [_ Htxs].
      rewrite Htxs in Ht. apply in_app_or in Ht. destruct Ht as [Ht|Ht]; [auto|].
      right. apply in_flat_map in Ht. destruct Ht as (r & Hr & Ht).
      apply filter_In in Hr. destruct Hr as [Hr _].
      assert (Hid : LoanID t = ID r).
      { unfold applyTransactions in Ht. destruct (due _ r); [|destruct Ht].
        destruct (me_txFault env (ID r)); [destruct Ht|].
        destruct Ht as [<-|[]]. reflexivity. }
      rewrite Hid.
      apply (step_ids s (OpApplyMonthlyInterest env) (ID r) Hwf).
      apply hasLoan_In, in_map, Hr.
  - destruct (RecordPayment_store env pid amount s Hwf)
      as [Heq|(loan & Hin & Hid & _ & _ & _ & Heq)]; rewrite Heq in *; auto.
    cbn [transactions] in Ht. apply in_app_or in Ht.
    destruct Ht as [Ht|Ht]; [auto|right].
    destruct (pe_txFault env); [destruct Ht|]. destruct Ht as [<-|[]].
    cbn [LoanID paymentTransaction]. rewrite <- Heq.
    apply (step_ids s (OpRecordPayment env pid amount) pid Hwf).
    apply hasLoan_In. rewrite <- Hid. apply in_map, Hin.
Qed.

Lemma applyCall_consistent (s : SQLiteStore) (c : Call) :
  wellFormed s -> linked s ->
  wellFormed (applyCall s c) /\ linked (applyCall s c).
Proof.
  intros Hwf Hl. destruct c as [op|now fault loan|fault id]; cbn [applyCall].
  - split; [apply step_wellFormed, Hwf|apply step_linked; assumption].
  - unfold ledger.UpdateLoan.
    destruct (store.UpdateLoan fault (set_UpdatedAt now loan) s) as [s1|e] eqn:Hu;
      [|auto].
    apply UpdateLoan_ids in Hu. destruct Hu as [Hids Htxs]. split.
    + unfold wellFormed. rewrite Hids. exact Hwf.
    + intros t Ht. rewrite Htxs in Ht. rewrite (hasLoan_ids _ s s1 Hids).
      apply Hl, Ht.
  - unfold ledger.DeleteLoan, store.DeleteLoan.
    destruct fault as [e|]; [auto|]. destruct (hasLoan id s); [|auto]. split.
    + unfold wellFormed. cbn [loans]. apply NoDup_ids_filter, Hwf.
    + intros t Ht. cbn [transactions] in Ht. apply filter_In in Ht.
      destruct Ht as [Ht Hne]. specialize (Hl t Ht). unfold hasLoan in *.
      cbn [loans]. apply existsb_exists in Hl. destruct Hl as (r & Hr & Hrid).
      apply existsb_exists. exists r. split; [|exact Hrid].
      apply filter_In. split; [exact Hr|].
      apply N.eqb_eq in Hrid. rewrite Hrid. exact Hne.
Qed.

(** X7. Every sequence of engine calls (creation, accrual, capitalization,
    payment, update, deletion), whatever the store answers, keeps the two
    key constraints of the schema: no two loans share an id, and every
    transaction belongs to a loan of the store.  So no transaction the
    engine appends is refused for its foreign key, and no deletion or update
    leaves a transaction without its loan. *)
Theorem X7_keys_kept :
  forall cs s,
    wellFormed s -> linked s ->
    wellFormed (applyCalls cs s) /\ linked (applyCalls cs s).
Proof.
  induction cs as [|c cs IH]; intros s Hwf Hl; cbn [applyCalls fold_left];
    [auto|].
  destruct (applyCall_consistent s c Hwf Hl) as [Hwf' Hl'].
  apply IH; assumption.
Qed.

Lemma X7_witness :
  wellFormed (applyCalls example.calls example.twoLoans) /\
  linked (applyCalls example.calls example.twoLoans).
Proof.
  apply X7_keys_kept.
  - repeat constructor; cbn; intuition discriminate.
  - intros t [<-|[<-|[<-|[]]]]; reflexivity.
Defined.

Lemma step_appends (s : SQLiteStore) (op : Op) :
  exists new, transactions (step s op) = transactions s ++ new.
Proof.
  destruct op as [env k p b v|env|env|env id amount]; cbn [step].
  - destruct (CreateLoan_cases env k p b v s)
      as [[Heq _]|[(Heq & _)|(Heq & _)]]; rewrite Heq; cbn [snd transactions];
      eexists; try reflexivity; symmetry; apply app_nil_r.
  - unfold CalculateDailyInterest.
    destruct (store.GetAllActiveLoans _ s) as [snap|e]; cbn [fst];
      [|exists []; symmetry; apply app_nil_r].
    eexists. apply (pass_transactions _ (accrueLoan env _) (fun _ => [])
                      (accrueLoan_transactions env _) snap (s, [])).
  - unfold ApplyMonthlyInterest.
    destruct (store.GetAllActiveLoans _ s) as [snap|e]; cbn [fst];
      [|exists []; symmetry; apply app_nil_r].
    eexists. apply (pass_transactions _ (applyLoan env _) _
                      (applyLoan_transactions env _) snap (s, [])).
  - unfold RecordPayment.
    destruct (store.GetLoan _ _ _) as [loan|e];
      [|exists []; symmetry; apply app_nil_r].
    destruct (negb _); [exists []; symmetry; apply app_nil_r|].
    destruct (store.UpdateLoan _ _ _) as [s1|e] eqn:Hu;
      [|exists []; symmetry; apply app_nil_r].
    apply UpdateLoan_ids in Hu. destruct Hu as [_ Htxs].
    destruct (store.CreateTransaction _ _ _) as [s2|e] eqn:Hc; cbn [snd].
    + apply CreateTransaction_rows in Hc. destruct Hc as (_ & _ & ->).
      rewrite Htxs. eexists. reflexivity.
    + rewrite Htxs. exists []. symmetry. apply app_nil_r.
Qed.

(** X8. The transaction log is append-only under loan creation, accrual,
    capitalization and payment: whatever the store answers, the transactions
    before a sequence of these calls are, unchanged and in the same order,
    the first transactions after it. *)
Theorem X8_transactions_append_only :
  forall ops s,
    exists new, transactions (run ops s) = transactions s ++ new.
Proof.
  induction ops as [|op ops IH]; intros s; cbn [run fold_left].
  - exists []. symmetry. apply app_nil_r.
  - destruct (step_appends s op) as [new1 H1].
    destruct (IH (step s op)) as [new2 H2]. fold (run ops (step s op)).
    exists (new1 ++ new2). rewrite H2, H1, app_assoc. reflexivity.
Qed.

(** ** Invariants of the rows *)

(** A property of rows that holds of a new loan and that an iteration of
    either pass and a payment keep on an active row holds of every row after
    a call, if it held before. *)
Lemma step_row_invariant (P : Loan -> Prop) (s : SQLiteStore) (op : Op) :
  wellFormed s ->
  (forall env today r,
      Status r = "active"%string -> P r -> P (accrueRow env today r)) ->
  (forall env day r,
      Status r = "active"%string -> P r -> P (applyRow env day r)) ->
  (forall env amount r,
      Status r = "active"%string -> P r -> P (paidLoan env amount r)) ->
  (forall env k p b v,
      op = OpCreateLoan env k p b v -> P (newLoan env k p b v)) ->
  (forall r, In r (loans s) -> P r) ->
  forall r, In r (loans (step s op)) -> P r.
Proof.
  intros Hwf Hacc Happ Hpay Hnew Hall r Hin.
  assert (Hactive : forall x, isActive x = true -> Status x = "active"%string).
  { intros x Hx. unfold isActive in Hx. apply String.eqb_eq, Hx. }
  destruct op as [env k p b v|env|env|env id amount]; cbn [step] in Hin.
  - specialize (Hnew env k p b v eq_refl).
    destruct (CreateLoan_cases env k p b v s)
      as [[Heq _]|[(Heq & _)|(Heq & _)]]; rewrite Heq in Hin;
      cbn [snd loans] in Hin; auto;
      apply in_app_or in Hin; destruct Hin as [Hin|[<-|[]]]; auto.
  - destruct (ae_listFault env) as [e|] eqn:Hl.
    + rewrite (CalculateDailyInterest_fault env s e Hl) in Hin. auto.
    + destruct (CalculateDailyInterest_rows env s Hwf Hl) as [Hrows _].
      rewrite Hrows in Hin. apply in_map_iff in Hin.
      destruct Hin as (x & <- & Hx). destruct (isActive x) eqn:Hact; auto.
  - destruct (me_listFault env) as [e|] eqn:Hl.
    + rewrite (ApplyMonthlyInterest_fault env s e Hl) in Hin. auto.
    + destruct (ApplyMonthlyInterest_rows env s Hwf Hl) as [Hrows _].
      rewrite Hrows in Hin. apply in_map_iff in Hin.
      destruct Hin as (x & <- & Hx). destruct (isActive x) eqn:Hact; auto.
  - destruct (RecordPayment_store env id amount s Hwf)
      as [Heq|(loan & Hl & _ & Hact & _ & _ & Heq)]; rewrite Heq in Hin; auto.
    cbn [loans] in Hin. unfold replaceRow in Hin. apply in_map_iff in Hin.
    destruct Hin as (x & <- & Hx). destruct (N.eqb (ID x) (ID loan)); auto.
Qed.

Lemma run_row_invariant (P : Loan -> Prop) (Q : Op -> Prop) :
  (forall env today r,
      Status r = "active"%string -> P r -> P (accrueRow env today r)) ->
  (forall env day r,
      Status r = "active"%string -> P r -> P (applyRow env day r)) ->
  (forall env amount r,
      Status r = "active"%string -> P r -> P (paidLoan env amount r)) ->
  (forall env k p b v,
      Q (OpCreateLoan env k p b v) -> P (newLoan env k p b v)) ->
  forall ops s,
    wellFormed s -> Forall Q ops ->
    (forall r, In r (loans s) -> P r) ->
    forall r, In r (loans (run ops s)) -> P r.
Proof.
  intros Hacc Happ Hpay Hnew.
  induction ops as [|op ops IH]; intros s Hwf Hq Hall; cbn [run fold_left];
    [exact Hall|].
  inversion Hq as [|? ? Hop Hrest]; subst.
  apply IH; [apply step_wellFormed, Hwf|exact Hrest|].
  apply step_row_invariant; auto.
  intros env k p b v ->. apply Hnew, Hop.
Qed.

Lemma not_LessThanOrEqual_toQ (a b : Decimal) :
  LessThanOrEqual a b = false -> (toQ b < toQ a)%Q.
Proof.
  intros H. apply Qnot_le_lt. intros Hle.
  apply LessThanOrEqual_toQ in Hle. congruence.
Qed.

(** X9. Balances and accrued interest never become negative: if no loan of
    the store has a negative balance or negative accrued interest, and the
    loans created have principals that are not negative, the same holds
    after every sequence of creations, accruals, capitalizations and
    payments, whatever the amounts paid and whatever the store answers. *)
Theorem X9_never_negative :
  forall ops s,
    wellFormed s -> Forall principalNotNegative ops ->
    (forall r, In r (loans s) -> nonNegative r) ->
    forall r, In r (loans (run ops s)) -> nonNegative r.
Proof.
  apply run_row_invariant; unfold nonNegative.
  - intros env today r _ [Hb Ha]. unfold accrueRow.
    destruct (calculatedToday r today); [auto|].
    destruct (GreaterThan (interestAmount r) Zero) eqn:Hpos; [|auto].
    destruct (ae_updateFault env (ID r)); [auto|].
    unfold accruedLoan.
    cbn [Balance AccruedInterest set_LastInterestCalculationDate set_UpdatedAt
           set_AccruedInterest].
    apply GreaterThan_toQ in Hpos. rewrite toQ_Zero in Hpos.
    rewrite toQ_Add. split; [exact Hb|lra].
  - intros env day r _ [Hb Ha]. unfold applyRow.
    destruct (due day r); [|auto].
    destruct (me_txFault env (ID r)), (me_updateFault env (ID r)); auto.
    unfold capitalizedLoan.
    cbn [Balance AccruedInterest set_UpdatedAt set_AccruedInterest set_Balance].
    rewrite toQ_Add, toQ_Zero. split; lra.
  - intros env amount r _ [Hb Ha]. unfold paidLoan.
    cbn [Balance set_UpdatedAt set_Balance].
    destruct (LessThanOrEqual (Sub (Balance r) amount) Zero) eqn:Hle;
      cbn [Balance AccruedInterest set_UpdatedAt set_Balance set_Status].
    + rewrite toQ_Zero. split; [lra|exact Ha].
    + apply not_LessThanOrEqual_toQ in Hle. rewrite toQ_Zero in Hle.
      split; [lra|exact Ha].
  - intros env k p b v Hp. cbn [principalNotNegative] in Hp.
    cbn [newLoan Balance AccruedInterest]. rewrite toQ_Zero. split; [exact Hp|lra].
Qed.

Lemma X9_witness : Forall nonNegative (loans (run example.ops empty)).
Proof.
  apply Forall_forall. apply (X9_never_negative example.ops empty).
  - constructor.
  - repeat constructor. cbn. discriminate.
  - intros r [].
Defined.

(** X10. A closed loan has balance exactly [decimal.Zero]: if that holds of
    the store, it holds after every sequence of creations, accruals,
    capitalizations and payments, whatever the store answers. *)
Theorem X10_closed_at_zero :
  forall ops s,
    wellFormed s ->
    (forall r, In r (loans s) -> closedAtZero r) ->
    forall r, In r (loans (run ops s)) -> closedAtZero r.
Proof.
  intros ops s Hwf Hall.
  apply (run_row_invariant closedAtZero (fun _ => True)); auto;
    unfold closedAtZero.
  - intros env today r Hact _. rewrite accrueRow_Status, Hact. discriminate.
  - intros env day r Hact _. rewrite applyRow_Status, Hact. discriminate.
  - intros env amount r Hact _. unfold paidLoan.
    cbn [Balance set_UpdatedAt set_Balance].
    destruct (LessThanOrEqual (Sub (Balance r) amount) Zero); [reflexivity|].
    cbn [Status set_UpdatedAt set_Balance]. rewrite Hact. discriminate.
  - intros env k p b v _. cbn [newLoan Status]. discriminate.
  - clear. induction ops; constructor; auto.
Qed.

Lemma X10_witness :
  Forall closedAtZero (loans (run example.overpaymentOps empty)).
Proof.
  apply Forall_forall. apply (X10_closed_at_zero example.overpaymentOps empty).
  - constructor.
  - intros r [].
Defined.

(** ** What a pass changes *)

Lemma Forall2_map_rows (R : Loan -> Loan -> Prop) (f : Loan -> Loan)
  (ls : list Loan) :
  (forall r, R r (f r)) -> Forall2 R ls (map f ls).
Proof.
  intros H. induction ls as [|x ls IH]; cbn [map]; constructor; auto.
Qed.

Lemma accrualOnly_refl (r : Loan) : accrualOnly r r.
Proof. unfold accrualOnly. repeat split; apply Qle_refl. Qed.

Lemma accrueRow_accrualOnly env today r : accrualOnly r (accrueRow env today r).
Proof.
  unfold accrueRow. destruct (calculatedToday r today); [apply accrualOnly_refl|].
  destruct (GreaterThan (interestAmount r) Zero) eqn:Hpos;
    [|apply accrualOnly_refl].
  destruct (ae_updateFault env (ID r)); [apply accrualOnly_refl|].
  unfold accrualOnly, accruedLoan. repeat split.
  cbn [AccruedInterest set_LastInterestCalculationDate set_UpdatedAt
         set_AccruedInterest].
  apply GreaterThan_toQ in Hpos. rewrite toQ_Zero in Hpos. rewrite toQ_Add. lra.
Qed.

(** X11. A pass of daily accrual, whatever the store answers, writes no
    transaction, adds and removes no loan, and changes of a loan nothing but
    the accrued interest, which does not decrease, the accrual date and
    [UpdatedAt]: balance, status, rates, principal and statement cycle day
    are as before. *)
Theorem X11_accrual_changes_accrued_interest_only :
  forall env s,
    wellFormed s ->
    transactions (fst (CalculateDailyInterest env s)) = transactions s /\
    Forall2 accrualOnly (loans s) (loans (fst (CalculateDailyInterest env s))).
Proof.
  intros env s Hwf. destruct (ae_listFault env) as [e|] eqn:Hl.
  - rewrite (CalculateDailyInterest_fault env s e Hl). split; [reflexivity|].
    rewrite <- (map_id (loans s)) at 2.
    apply Forall2_map_rows. apply accrualOnly_refl.
  - destruct (CalculateDailyInterest_rows env s Hwf Hl) as [Hrows Htxs].
    split; [exact Htxs|]. rewrite Hrows. apply Forall2_map_rows.
    intros r. destruct (isActive r);
      [apply accrueRow_accrualOnly|apply accrualOnly_refl].
Qed.

Lemma X11_witness :
  transactions (fst (CalculateDailyInterest (example.accrualEnv example.morning)
                       example.twoLoans)) = transactions example.twoLoans /\
  Forall2 accrualOnly (loans example.twoLoans)
    (loans (fst (CalculateDailyInterest (example.accrualEnv example.morning)
                   example.twoLoans))).
Proof.
  apply X11_accrual_changes_accrued_interest_only.
  repeat constructor; cbn; intuition discriminate.
Defined.

Lemma capitalizationOnly_refl (r : Loan) : capitalizationOnly r r.
Proof.
  unfold capitalizationOnly. repeat split; try reflexivity. apply Qle_refl.
Qed.

Lemma applyRow_capitalizationOnly env day r :
  capitalizationOnly r (applyRow env day r).
Proof.
  unfold applyRow. destruct (due day r) eqn:Hdue;
    [|apply capitalizationOnly_refl].
  destruct (me_txFault env (ID r)), (me_updateFault env (ID r));
    try apply capitalizationOnly_refl.
  unfold due in Hdue. apply andb_prop in Hdue. destruct Hdue as [_ Hpos].
  apply GreaterThan_toQ in Hpos. rewrite toQ_Zero in Hpos.
  unfold capitalizationOnly, capitalizedLoan.
  cbn [ID Status Principal InterestRate StatementCycleDay
         LastInterestCalculationDate Balance AccruedInterest
         set_UpdatedAt set_AccruedInterest set_Balance].
  rewrite toQ_Add, toQ_Zero.
  repeat split; try reflexivity; [ring|lra].
Qed.

(** X12. A pass of monthly capitalization, whatever the store answers, adds
    and removes no loan and keeps of every loan the status and the sum of
    balance and accrued interest: interest only moves from accrued interest
    into the balance.  The transactions it appends are interest
    transactions of positive amounts. *)
Theorem X12_capitalization_moves_interest :
  forall env s,
    wellFormed s ->
    Forall2 capitalizationOnly (loans s)
      (loans (fst (ApplyMonthlyInterest env s))) /\
    exists new,
      transactions (fst (ApplyMonthlyInterest env s)) = transactions s ++ new /\
      Forall (fun t => Type_ t = TransactionTypeInterest /\
                       GreaterThan (Amount t) Zero = true) new.
Proof.
  intros env s Hwf. destruct (me_listFault env) as [e|] eqn:Hl.
  - rewrite (ApplyMonthlyInterest_fault env s e Hl). split.
    + rewrite <- (map_id (loans s)) at 2.
      apply Forall2_map_rows. apply capitalizationOnly_refl.
    + exists []. split; [symmetry; apply app_nil_r|constructor].
  - destruct (ApplyMonthlyInterest_rows env s Hwf Hl) as [Hrows Htxs]. split.
    + rewrite Hrows. apply Forall2_map_rows.
      intros r. destruct (isActive r);
        [apply applyRow_capitalizationOnly|apply capitalizationOnly_refl].
    + eexists. split; [exact Htxs|]. apply Forall_forall. intros t Ht.
      apply in_flat_map in Ht. destruct Ht as (r & _ & Ht).
      unfold applyTransactions in Ht. destruct (due _ r) eqn:Hdue; [|destruct Ht].
      destruct (me_txFault env (ID r)); [destruct Ht|].
      destruct Ht as [<-|[]]. cbn [Type_ Amount interestTransaction].
      unfold due in Hdue. apply andb_prop in Hdue. tauto.
Qed.

Lemma X12_witness :
  Forall2 capitalizationOnly (loans example.accrued)
    (loans (fst (ApplyMonthlyInterest (example.monthlyEnv None) example.accrued))) /\
  exists new,
    transactions (fst (ApplyMonthlyInterest (example.monthlyEnv None)
                         example.accrued))
    = transactions example.accrued ++ new /\
    Forall (fun t => Type_ t = TransactionTypeInterest /\
                     GreaterThan (Amount t) Zero = true) new.
Proof.
  apply X12_capitalization_moves_interest.
  repeat constructor. intros [].
Defined.

(** ** Passes one after the other *)

Lemma flat_map_all_nil (A B : Type) (f : A -> list B) (l : list A) :
  (forall x, In x l -> f x = []) -> flat_map f l = [].
Proof.
  induction l as [|x l IH]; cbn [flat_map]; intros H; [reflexivity|].
  rewrite H, IH; [reflexivity| |left; reflexivity].
  intros y Hy. apply H. right. exact Hy.
Qed.

Lemma GreaterThan_Zero_Zero : GreaterThan Zero Zero = false.
Proof. reflexivity. Qed.

(** After a pass the store has answered throughout, no row is due on that
    day of the month. *)
Lemma applyRow_not_due env day r :
  (forall id, me_txFault env id = None) ->
  (forall id, me_updateFault env id = None) ->
  due day (applyRow env day r) = false.
Proof.
  intros Htx Hupd. unfold applyRow. destruct (due day r) eqn:Hdue; [|exact Hdue].
  rewrite Htx, Hupd. unfold due, capitalizedLoan.
  cbn [AccruedInterest set_AccruedInterest]. rewrite GreaterThan_Zero_Zero.
  apply andb_false_r.
Qed.

(** X13. Capitalization happens once per statement day: after a pass in
    which the store answered every call, any further pass on the same day of
    the month, with no accrual in between, leaves the whole store as it
    is. *)
Theorem X13_capitalization_once_per_day :
  forall env1 env2 s,
    wellFormed s ->
    me_listFault env1 = None ->
    (forall id, me_txFault env1 id = None) ->
    (forall id, me_updateFault env1 id = None) ->
    me_todayDay env2 = me_todayDay env1 ->
    let s1 := fst (ApplyMonthlyInterest env1 s) in
    fst (ApplyMonthlyInterest env2 s1) = s1.
Proof.
  intros env1 env2 s Hwf Hlist Htx Hupd Hday s1.
  destruct (me_listFault env2) as [e|] eqn:Hlist2;
    [apply (ApplyMonthlyInterest_fault env2 s1 e Hlist2)|].
  assert (Hwf1 : wellFormed s1)
    by apply (step_wellFormed s (OpApplyMonthlyInterest env1) Hwf).
  destruct (ApplyMonthlyInterest_rows env1 s Hwf Hlist) as [Hrows1 _].
  destruct (ApplyMonthlyInterest_rows env2 s1 Hwf1 Hlist2) as [Hrows2 Htxs2].
  fold s1 in Hrows1.
  assert (Hsettled : forall x, In x (loans s1) ->
                               isActive x = true -> due (me_todayDay env2) x = false).
  { intros x Hx Hact. rewrite Hrows1 in Hx. apply in_map_iff in Hx.
    destruct Hx as (r & <- & _). rewrite Hday.
    destruct (isActive r) eqn:Hr; [apply applyRow_not_due; assumption|].
    congruence. }
  assert (Hloans : loans (fst (ApplyMonthlyInterest env2 s1)) = loans s1).
  { rewrite Hrows2. rewrite <- (map_id (loans s1)) at 2.
    apply map_ext_in. intros x Hx. destruct (isActive x) eqn:Hact; [|reflexivity].
    unfold applyRow. rewrite (Hsettled x Hx Hact). reflexivity. }
  assert (Htxs : transactions (fst (ApplyMonthlyInterest env2 s1)) = transactions s1).
  { rewrite Htxs2, flat_map_all_nil; [apply app_nil_r|].
    intros x Hx. apply filter_In in Hx. destruct Hx as [Hx Hact].
    unfold applyTransactions. rewrite (Hsettled x Hx Hact). reflexivity. }
  destruct (fst (ApplyMonthlyInterest env2 s1)) as [ls ts], s1 as [ls1 ts1].
  cbn [loans transactions] in Hloans, Htxs. congruence.
Qed.

Lemma X13_witness :
  let s1 := fst (ApplyMonthlyInterest (example.monthlyEnv None) example.accrued) in
  fst (ApplyMonthlyInterest (example.monthlyEnv (Some "disk I/O error"%string)) s1)
  = s1.
Proof.
  apply (X13_capitalization_once_per_day (example.monthlyEnv None)
           (example.monthlyEnv (Some "disk I/O error"%string)) example.accrued);
    try reflexivity.
  repeat constructor. intros [].
Defined.

(** X14. When the loan update of a capitalization fails after the interest
    transaction was appended, the next pass on that day of the month
    capitalizes the same accrued interest again: the loan then has two
    interest transactions of that amount for one addition to its balance. *)
Theorem X14_failed_update_repeats_interest_transaction :
  forall env1 env2 s r e,
    wellFormed s -> In r (loans s) -> Status r = "active"%string ->
    due (me_todayDay env1) r = true ->
    me_listFault env1 = None -> me_txFault env1 (ID r) = None ->
    me_updateFault env1 (ID r) = Some e ->
    me_todayDay env2 = me_todayDay env1 ->
    me_listFault env2 = None -> me_txFault env2 (ID r) = None ->
    me_updateFault env2 (ID r) = None ->
    let s2 := fst (ApplyMonthlyInterest env2 (fst (ApplyMonthlyInterest env1 s))) in
    exists r2 t1 t2,
      loanOf (ID r) s2 = Some r2 /\
      Balance r2 = Add (Balance r) (AccruedInterest r) /\
      AccruedInterest r2 = Zero /\
      transactionsOf (ID r) s2 = transactionsOf (ID r) s ++ [t1; t2] /\
      Type_ t1 = TransactionTypeInterest /\ Amount t1 = AccruedInterest r /\
      Type_ t2 = TransactionTypeInterest /\ Amount t2 = AccruedInterest r.
Proof.
  intros env1 env2 s r e Hwf Hin Hact Hdue Hl1 Htx1 Hupd1 Hday Hl2 Htx2 Hupd2 s2.
  assert (Hact' : isActive r = true)
    by (unfold isActive; rewrite Hact; reflexivity).
  destruct (ApplyMonthlyInterest_loan env1 s r Hwf Hin Hact' Hl1) as [Hrow1 Htxs1].
  unfold applyRow, applyTransactions in Hrow1, Htxs1.
  rewrite Hdue, Htx1 in Hrow1, Htxs1. rewrite Hupd1 in Hrow1.
  set (s1 := fst (ApplyMonthlyInterest env1 s)) in *.
  assert (Hwf1 : wellFormed s1)
    by apply (step_wellFormed s (OpApplyMonthlyInterest env1) Hwf).
  assert (Hin1 : In r (loans s1)) by (apply loanOf_In in Hrow1; tauto).
  destruct (ApplyMonthlyInterest_loan env2 s1 r Hwf1 Hin1 Hact' Hl2)
    as [Hrow2 Htxs2].
  fold s2 in Hrow2, Htxs2. unfold applyRow, applyTransactions in Hrow2, Htxs2.
  rewrite Hday, Hdue, Htx2 in Hrow2, Htxs2. rewrite Hupd2 in Hrow2.
  exists (capitalizedLoan env2 r), (interestTransaction env1 r),
    (interestTransaction env2 r).
  split; [exact Hrow2|]. split; [reflexivity|]. split; [reflexivity|].
  split; [|repeat split].
  rewrite Htxs2, Htxs1, <- app_assoc. reflexivity.
Qed.

Lemma X14_witness :
  let s2 := fst (ApplyMonthlyInterest (example.monthlyEnv None)
                   (fst (ApplyMonthlyInterest
                           (example.monthlyEnv (Some "disk I/O error"%string))
                           example.accrued))) in
  exists r2 t1 t2,
    loanOf (ID example.loanAccrued) s2 = Some r2 /\
    Balance r2
    = Add (Balance example.loanAccrued) (AccruedInterest example.loanAccrued) /\
    AccruedInterest r2 = Zero /\
    transactionsOf (ID example.loanAccrued) s2
    = transactionsOf (ID example.loanAccrued) example.accrued ++ [t1; t2] /\
    Type_ t1 = TransactionTypeInterest /\
    Amount t1 = AccruedInterest example.loanAccrued /\
    Type_ t2 = TransactionTypeInterest /\
    Amount t2 = AccruedInterest example.loanAccrued.
Proof.
  apply (X14_failed_update_repeats_interest_transaction
           (example.monthlyEnv (Some "disk I/O error"%string))
           (example.monthlyEnv None) example.accrued example.loanAccrued
           "disk I/O error"%string); try reflexivity.
  - repeat constructor. intros [].
  - left. reflexivity.
Defined.

(** X15. Accrual is per calendar date, not per loan: a pass on a later date
    accrues again.  For an active loan with positive daily interest, two
    passes on different dates in which the store answers add the daily
    interest twice, the balance staying as it was, and record the later
    date. *)
Theorem X15_accrual_on_two_dates :
  forall env1 env2 s r,
    wellFormed s -> In r (loans s) -> Status r = "active"%string ->
    calculatedToday r (Truncate (ae_now env1) (24 * Hour)) = false ->
    GreaterThan (interestAmount r) Zero = true ->
    ae_listFault env1 = None -> ae_updateFault env1 (ID r) = None ->
    ae_listFault env2 = None -> ae_updateFault env2 (ID r) = None ->
    Truncate (ae_now env2) (24 * Hour) <> Truncate (ae_now env1) (24 * Hour) ->
    let s2 := fst (CalculateDailyInterest env2
                     (fst (CalculateDailyInterest env1 s))) in
    exists r2,
      loanOf (ID r) s2 = Some r2 /\
      AccruedInterest r2
      = Add (Add (AccruedInterest r) (interestAmount r)) (interestAmount r) /\
      Balance r2 = Balance r /\
      LastInterestCalculationDate r2 = Some (Truncate (ae_now env2) (24 * Hour)).
Proof.
  intros env1 env2 s r Hwf Hin Hact Hcalc Hpos Hl1 Hu1 Hl2 Hu2 Hdays s2.
  assert (Hact' : isActive r = true)
    by (unfold isActive; rewrite Hact; reflexivity).
  pose proof (CalculateDailyInterest_loan env1 s r Hwf Hin Hact' Hl1) as Hrow1.
  unfold accrueRow in Hrow1. rewrite Hcalc, Hpos, Hu1 in Hrow1.
  set (today1 := Truncate (ae_now env1) (24 * Hour)) in *.
  set (s1 := fst (CalculateDailyInterest env1 s)) in *.
  set (r1 := accruedLoan env1 today1 r) in *.
  assert (Hwf1 : wellFormed s1)
    by apply (step_wellFormed s (OpCalculateDailyInterest env1) Hwf).
  assert (Hin1 : In r1 (loans s1)) by (apply loanOf_In in Hrow1; tauto).
  pose proof (CalculateDailyInterest_loan env2 s1 r1 Hwf1 Hin1 Hact' Hl2) as Hrow2.
  fold s2 in Hrow2. change (ID r1) with (ID r) in Hrow2.
  unfold accrueRow in Hrow2.
  assert (Hcalc2 : calculatedToday r1 (Truncate (ae_now env2) (24 * Hour)) = false).
  { unfold calculatedToday, r1, accruedLoan.
    cbn [LastInterestCalculationDate set_LastInterestCalculationDate].
    unfold today1. rewrite Truncate_day_idempotent.
    apply Z.eqb_neq. intros Heq. apply Hdays. symmetry. exact Heq. }
  change (interestAmount r1) with (interestAmount r) in Hrow2.
  change (ID r1) with (ID r) in Hrow2.
  rewrite Hcalc2, Hpos, Hu2 in Hrow2.
  eexists. split; [exact Hrow2|]. repeat split.
Qed.

Lemma X15_witness :
  let s2 := fst (CalculateDailyInterest (example.accrualEnv example.nextDay)
                   (fst (CalculateDailyInterest
                           (example.accrualEnv example.morning)
                           example.created))) in
  exists r2,
    loanOf (ID example.loan0) s2 = Some r2 /\
    AccruedInterest r2
    = Add (Add (AccruedInterest example.loan0) (interestAmount example.loan0))
        (interestAmount example.loan0) /\
    Balance r2 = Balance example.loan0 /\
    LastInterestCalculationDate r2
    = Some (Truncate (ae_now (example.accrualEnv example.nextDay)) (24 * Hour)).
Proof.
  apply (X15_accrual_on_two_dates (example.accrualEnv example.morning)
           (example.accrualEnv example.nextDay) example.created example.loan0);
    try reflexivity.
  - repeat constructor. intros [].
  - left. reflexivity.
  - discriminate.
Defined.

(** X16. The date of a pass is the start of the UTC day of its clock
    reading, and the gate that skips a loan holds exactly when the loan's
    last accrual lies in the twenty-four hours from that start; a loan that
    was never accrued is never skipped. *)
Theorem X16_accrual_date_gate :
  forall now loan,
    let today := Truncate now (24 * Hour) in
    (today <= now < today + 24 * Hour)%Z /\
    (today mod (24 * Hour) = 0)%Z /\
    (calculatedToday loan today = true <->
     exists d, LastInterestCalculationDate loan = Some d /\
               (today <= d < today + 24 * Hour)%Z).
Proof.
  intros now loan today.
  assert (HD : (0 < 24 * Hour)%Z) by reflexivity.
  assert (Htr : forall x, Truncate x (24 * Hour) = (x - x mod (24 * Hour))%Z).
  { intros x. unfold Truncate. change (24 * Hour <=? 0)%Z with false. reflexivity. }
  pose proof (Z.mod_pos_bound now (24 * Hour) HD) as Hnow.
  pose proof (Z.div_mod now (24 * Hour) ltac:(lia)) as Hdm.
  assert (Htoday : today = (24 * Hour * (now / (24 * Hour)))%Z)
    by (unfold today; rewrite Htr; lia).
  split; [unfold today; rewrite Htr; lia|]. split.
  - rewrite Htoday, Z.mul_comm. apply Z.mod_mul. lia.
  - unfold calculatedToday.
    destruct (LastInterestCalculationDate loan) as [d|].
    + rewrite Z.eqb_eq, Htr.
      pose proof (Z.mod_pos_bound d (24 * Hour) HD) as Hd. split.
      * intros Heq. exists d. split; [reflexivity|lia].
      * intros (d' & Hd' & Hrange). inversion Hd'; subst d'.
        assert (Hmod : (d - today = d mod (24 * Hour))%Z).
        { apply (Z.mod_unique_pos d (24 * Hour) (now / (24 * Hour))); lia. }
        lia.
    + split; [discriminate|]. intros (d & Hd & _). discriminate.
Qed.

Lemma X16_witness :
  let today := Truncate example.evening (24 * Hour) in
  (today <= example.evening < today + 24 * Hour)%Z /\
  (today mod (24 * Hour) = 0)%Z /\
  (calculatedToday
     (set_LastInterestCalculationDate (Some example.morning) example.loan0) today
   = true <->
   exists d,
     LastInterestCalculationDate
       (set_LastInterestCalculationDate (Some example.morning) example.loan0)
     = Some d /\
     (today <= d < today + 24 * Hour)%Z).
Proof.
  apply X16_accrual_date_gate.
Defined.

(** X17. In one turn of the ticker the accrual runs before the
    capitalization, so on a loan's statement day the interest of that day is
    capitalized with the rest: the balance grows by the accrued interest and
    the day's interest, the accrued interest is zero afterwards, and the one
    interest transaction carries their sum. *)
Theorem X17_tick_on_statement_day :
  forall daily monthly s r,
    wellFormed s -> In r (loans s) -> Status r = "active"%string ->
    calculatedToday r (Truncate (ae_now daily) (24 * Hour)) = false ->
    GreaterThan (interestAmount r) Zero = true ->
    (0 <= toQ (AccruedInterest r))%Q ->
    StatementCycleDay r = me_todayDay monthly ->
    ae_listFault daily = None -> ae_updateFault daily (ID r) = None ->
    me_listFault monthly = None -> me_txFault monthly (ID r) = None ->
    me_updateFault monthly (ID r) = None ->
    let s' := api.tick daily monthly s in
    exists r' tx,
      loanOf (ID r) s' = Some r' /\
      Balance r'
      = Add (Balance r) (Add (AccruedInterest r) (interestAmount r)) /\
      AccruedInterest r' = Zero /\
      LastInterestCalculationDate r'
      = Some (Truncate (ae_now daily) (24 * Hour)) /\
      transactionsOf (ID r) s' = transactionsOf (ID r) s ++ [tx] /\
      Type_ tx = TransactionTypeInterest /\
      Amount tx = Add (AccruedInterest r) (interestAmount r).
Proof.
  intros daily monthly s r Hwf Hin Hact Hcalc Hpos Hacc Hday Hl1 Hu1 Hl2 Htx Hu2 s'.
  assert (Hact' : isActive r = true)
    by (unfold isActive; rewrite Hact; reflexivity).
  pose proof (CalculateDailyInterest_loan daily s r Hwf Hin Hact' Hl1) as Hrow1.
  unfold accrueRow in Hrow1. rewrite Hcalc, Hpos, Hu1 in Hrow1.
  destruct (CalculateDailyInterest_rows daily s Hwf Hl1) as [_ Htxs1].
  set (today := Truncate (ae_now daily) (24 * Hour)) in *.
  set (s1 := fst (CalculateDailyInterest daily s)) in *.
  set (r1 := accruedLoan daily today r) in *.
  assert (Hwf1 : wellFormed s1)
    by apply (step_wellFormed s (OpCalculateDailyInterest daily) Hwf).
  assert (Hin1 : In r1 (loans s1)) by (apply loanOf_In in Hrow1; tauto).
  destruct (ApplyMonthlyInterest_loan monthly s1 r1 Hwf1 Hin1 Hact' Hl2)
    as [Hrow2 Htxs2].
  change (ID r1) with (ID r) in Hrow2, Htxs2.
  assert (Hdue : due (me_todayDay monthly) r1 = true).
  { unfold due. change (StatementCycleDay r1) with (StatementCycleDay r).
    rewrite Hday, Z.eqb_refl. cbn [andb]. apply GreaterThan_toQ.
    change (AccruedInterest r1)
      with (Add (AccruedInterest r) (interestAmount r)).
    apply GreaterThan_toQ in Hpos. rewrite toQ_Zero in *. rewrite toQ_Add. lra. }
  unfold applyRow, applyTransactions in Hrow2, Htxs2.
  rewrite Hdue in Hrow2, Htxs2. change (ID r1) with (ID r) in Hrow2, Htxs2.
  rewrite Htx in Hrow2, Htxs2. rewrite Hu2 in Hrow2.
  exists (capitalizedLoan monthly r1), (interestTransaction monthly r1).
  unfold s', api.tick. fold s1.
  split; [exact Hrow2|]. repeat (split; [reflexivity|]).
  split; [|split; reflexivity].
  rewrite Htxs2. unfold transactionsOf. rewrite Htxs1. reflexivity.
Qed.

Lemma X17_witness :
  let s' := api.tick (example.accrualEnv example.morning)
              (example.monthlyEnv None) example.accrued in
  exists r' tx,
    loanOf (ID example.loanAccrued) s' = Some r' /\
    Balance r'
    = Add (Balance example.loanAccrued)
        (Add (AccruedInterest example.loanAccrued)
           (interestAmount example.loanAccrued)) /\
    AccruedInterest r' = Zero /\
    LastInterestCalculationDate r'
    = Some (Truncate (ae_now (example.accrualEnv example.morning)) (24 * Hour)) /\
    transactionsOf (ID example.loanAccrued) s'
    = transactionsOf (ID example.loanAccrued) example.accrued ++ [tx] /\
    Type_ tx = TransactionTypeInterest /\
    Amount tx = Add (AccruedInterest example.loanAccrued)
                  (interestAmount example.loanAccrued).
Proof.
  apply (X17_tick_on_statement_day (example.accrualEnv example.morning)
           (example.monthlyEnv None) example.accrued example.loanAccrued);
    try reflexivity.
  - repeat constructor. intros [].
  - left. reflexivity.
  - discriminate.
Defined.

(** ** The handlers *)

Lemma GetLoan_absent (id : UUID) (s : SQLiteStore) :
  hasLoan id s = false -> store.GetLoan None id s = Err "loan not found"%string.
Proof.
  intros Hnew. unfold store.GetLoan. rewrite find_absent by exact Hnew.
  reflexivity.
Qed.

(** X18. A request for an id that is not in the store is answered 404 by the
    handlers that take a loan id (get, update, delete and, for a positive
    amount, payment), and the store is left as it is. *)
Theorem X18_handlers_answer_404 :
  forall id s,
    hasLoan id s = false ->
    api.getLoanHandler None (Some id) s
    = api.mkLoanResponse api.StatusNotFound (api.ErrorText "Loan not found") /\
    (forall now body,
        api.updateLoanHandler now None (Some id) (Ok body) s
        = (api.mkLoanResponse api.StatusNotFound (api.ErrorText "Loan not found"),
           s)) /\
    api.deleteLoanHandler None (Some id) s
    = (api.mkLoanResponse api.StatusNotFound (api.ErrorText "Loan not found"), s) /\
    (forall env amount,
        pe_getFault env = None -> LessThanOrEqual amount Zero = false ->
        api.recordPaymentHandler env (api.mkPaymentRequest (Some id) (Ok amount)) s
        = (api.mkResponse api.StatusNotFound (api.Text "Loan not found"), s)).
Proof.
  intros id s Hnew. split; [|split; [|split]].
  - unfold api.getLoanHandler, ledger.GetLoan.
    rewrite GetLoan_absent by exact Hnew. reflexivity.
  - intros now body. unfold api.updateLoanHandler, ledger.UpdateLoan,
      store.UpdateLoan. cbn [ID set_UpdatedAt]. rewrite Hnew. reflexivity.
  - unfold api.deleteLoanHandler, ledger.DeleteLoan, store.DeleteLoan.
    rewrite Hnew. reflexivity.
  - intros env amount Hget Hpos. unfold api.recordPaymentHandler.
    cbn [api.req_id api.req_amount]. rewrite Hpos. unfold RecordPayment.
    rewrite Hget, GetLoan_absent by exact Hnew. reflexivity.
Qed.

Lemma X18_witness :
  api.getLoanHandler None (Some 99%N) example.created
  = api.mkLoanResponse api.StatusNotFound (api.ErrorText "Loan not found") /\
  (forall now body,
      api.updateLoanHandler now None (Some 99%N) (Ok body) example.created
      = (api.mkLoanResponse api.StatusNotFound (api.ErrorText "Loan not found"),
         example.created)) /\
  api.deleteLoanHandler None (Some 99%N) example.created
  = (api.mkLoanResponse api.StatusNotFound (api.ErrorText "Loan not found"),
     example.created) /\
  (forall env amount,
      pe_getFault env = None -> LessThanOrEqual amount Zero = false ->
      api.recordPaymentHandler env
        (api.mkPaymentRequest (Some 99%N) (Ok amount)) example.created
      = (api.mkResponse api.StatusNotFound (api.Text "Loan not found"),
         example.created)).
Proof.
  apply X18_handlers_answer_404. reflexivity.
Defined.

(** X19. A payment of a positive amount on a loan that is not active is
    answered 500 with the message "loan is not active", and the store is
    left as it is. *)
Theorem X19_payment_on_closed_loan_answers_500 :
  forall env amount s loan,
    wellFormed s -> In loan (loans s) -> Status loan <> "active"%string ->
    pe_getFault env = None -> LessThanOrEqual amount Zero = false ->
    api.recordPaymentHandler env
      (api.mkPaymentRequest (Some (ID loan)) (Ok amount)) s
    = (api.mkResponse api.StatusInternalServerError (api.Text "loan is not active"),
       s).
Proof.
  intros env amount s loan Hwf Hin Hact Hget Hpos.
  unfold api.recordPaymentHandler. cbn [api.req_id api.req_amount].
  rewrite Hpos. unfold RecordPayment.
  rewrite Hget, GetLoan_row by assumption.
  destruct (String.eqb_spec (Status loan) "active") as [Heq|_]; [contradiction|].
  reflexivity.
Qed.

Lemma X19_witness :
  api.recordPaymentHandler (example.paymentEnv 9%N None None)
    (api.mkPaymentRequest (Some (ID example.loanClosed)) (Ok example.principal))
    example.closed
  = (api.mkResponse api.StatusInternalServerError (api.Text "loan is not active"),
     example.closed).
Proof.
  apply X19_payment_on_closed_loan_answers_500; try reflexivity.
  - repeat constructor. intros [].
  - left. reflexivity.
  - discriminate.
Defined.

(** X20. [updateLoanHandler] updates the loan named in the URL, whatever id
    the body carries; a loan with the id of the body is not touched.  The
    loan it sends back has the id of the URL and the new [UpdatedAt], and the
    [CreatedAt] of the body, while the stored record keeps the [CreatedAt]
    it had. *)
Theorem X20_updateLoanHandler_uses_url_id :
  forall now decoded s r,
    wellFormed s -> In r (loans s) ->
    exists sent s',
      api.updateLoanHandler now None (Some (ID r)) (Ok decoded) s
      = (api.mkLoanResponse api.StatusOK (api.LoanJson sent), s') /\
      ID sent = ID r /\ UpdatedAt sent = now /\
      CreatedAt sent = CreatedAt decoded /\
      Status sent = Status decoded /\ Balance sent = Balance decoded /\
      ledger.GetLoan None (ID r) s' = Ok (set_CreatedAt (CreatedAt r) sent) /\
      (forall id, id <> ID r ->
                  ledger.GetLoan None id s' = ledger.GetLoan None id s) /\
      transactions s' = transactions s.
Proof.
  intros now decoded s r Hwf Hin. unfold api.updateLoanHandler.
  set (loan := mkLoan (ID r) _ _ _ _ _ _ _ _ _ _ _ _).
  destruct (UpdateLoan_lookup now loan s r Hwf Hin eq_refl)
    as (s' & Hupd & Hget & Hother & Htxs).
  rewrite Hupd. exists (set_UpdatedAt now loan), s'.
  repeat (split; [reflexivity|]). split; [exact Hget|]. split; assumption.
Qed.

Lemma X20_witness :
  exists sent s',
    api.updateLoanHandler 500%Z None (Some (ID example.loan0))
      (Ok example.loan1) example.twoLoans
    = (api.mkLoanResponse api.StatusOK (api.LoanJson sent), s') /\
    ID sent = ID example.loan0 /\ UpdatedAt sent = 500%Z /\
    CreatedAt sent = CreatedAt example.loan1 /\
    Status sent = Status example.loan1 /\ Balance sent = Balance example.loan1 /\
    ledger.GetLoan None (ID example.loan0) s'
    = Ok (set_CreatedAt (CreatedAt example.loan0) sent) /\
    (forall id, id <> ID example.loan0 ->
                ledger.GetLoan None id s' = ledger.GetLoan None id example.twoLoans) /\
    transactions s' = transactions example.twoLoans.
Proof.
  apply X20_updateLoanHandler_uses_url_id.
  - repeat constructor; cbn; intuition discriminate.
  - left. reflexivity.
Defined.

(** X21. [createLoanHandler] has no check of the principal.  A body that
    decodes is never answered 400: the answer is 201 or 500.  When the store
    takes both writes and the id is new the answer is 201 for every
    principal, zero and negative ones too, and the loan is stored with that
    principal as its balance. *)
Theorem X21_createLoanHandler_accepts_any_principal :
  forall env req s,
    let code := api.LoanCode (fst (api.createLoanHandler env (Ok req) s)) in
    (code = api.StatusCreated \/ code = api.StatusInternalServerError) /\
    (ce_loanFault env = None -> ce_txFault env = None ->
     hasLoan (ce_loanID env) s = false ->
     exists loan,
       api.createLoanHandler env (Ok req) s
       = (api.mkLoanResponse api.StatusCreated (api.LoanJson loan),
          mkStore (loans s ++ [loan])
            (transactions s
             ++ [mkTransaction (ce_txID env) (ID loan) (api.cr_principal req)
                   TransactionTypeDisbursement (ce_txTime env)])) /\
       Balance loan = api.cr_principal req /\
       Status loan = "active"%string).
Proof.
  intros env req s code. unfold code, api.createLoanHandler. split.
  - destruct (CreateLoan env (api.cr_customerKey req) (api.cr_principal req)
                (api.cr_baseInterestRate req) (api.cr_interestRateVariance req) s)
      as [[loan|e] s1]; cbn [fst api.LoanCode]; [left|right]; reflexivity.
  - intros Hl Ht Hnew.
    destruct (CreateLoan_cases env (api.cr_customerKey req) (api.cr_principal req)
                (api.cr_baseInterestRate req) (api.cr_interestRateVariance req) s)
      as [[_ [H|H]]|[(_ & _ & _ & H)|(Heq & _)]]; try congruence.
    rewrite Heq.
    exists (newLoan env (api.cr_customerKey req) (api.cr_principal req)
              (api.cr_baseInterestRate req) (api.cr_interestRateVariance req)).
    split; [reflexivity|]. split; reflexivity.
Qed.

Lemma X21_witness :
  exists loan,
    api.createLoanHandler example.createEnv
      (Ok (api.mkCreateRequest "cust123" (New (-5000) (-2)) example.baseRate
             example.variance)) empty
    = (api.mkLoanResponse api.StatusCreated (api.LoanJson loan),
       mkStore (loans empty ++ [loan])
         (transactions empty
          ++ [mkTransaction 8%N (ID loan) (New (-5000) (-2))
                TransactionTypeDisbursement 101%Z])) /\
    Balance loan = New (-5000) (-2) /\
    Status loan = "active"%string.
Proof.
  apply (proj2 (X21_createLoanHandler_accepts_any_principal example.createEnv
                  (api.mkCreateRequest "cust123" (New (-5000) (-2))
                     example.baseRate example.variance) empty));
    reflexivity.
Defined.

(** X22. A failure of the database driver is never taken for a missing
    loan: when the lookup or the update itself fails, the get, update and
    payment handlers answer 500 with the error, not 404, and the store is
    left as it is. *)
Theorem X22_driver_failure_answers_500 :
  forall e id s,
    api.getLoanHandler (Some e) (Some id) s
    = api.mkLoanResponse api.StatusInternalServerError
        (api.ErrorText (wrap "failed to get loan" e)) /\
    (forall now body,
        api.updateLoanHandler now (Some e) (Some id) (Ok body) s
        = (api.mkLoanResponse api.StatusInternalServerError
             (api.ErrorText (wrap "failed to update loan" e)), s)) /\
    (forall env amount,
        pe_getFault env = Some e -> LessThanOrEqual amount Zero = false ->
        api.recordPaymentHandler env (api.mkPaymentRequest (Some id) (Ok amount)) s
        = (api.mkResponse api.StatusInternalServerError
             (api.Text (wrap "failed to get loan" e)), s)).
Proof.
  intros e id s. split; [reflexivity|]. split; [reflexivity|].
  intros env amount Hget Hpos. unfold api.recordPaymentHandler.
  cbn [api.req_id api.req_amount]. rewrite Hpos. unfold RecordPayment.
  rewrite Hget. reflexivity.
Qed.

Lemma X22_witness :
  api.recordPaymentHandler
    (mkPaymentEnv (Some "disk I/O error"%string) 300%Z None 9%N 301%Z None)
    (api.mkPaymentRequest (Some 7%N) (Ok example.principal)) example.created
  = (api.mkResponse api.StatusInternalServerError
       (api.Text (wrap "failed to get loan" "disk I/O error"%string)),
     example.created).
Proof.
  apply (proj2 (proj2 (X22_driver_failure_answers_500 "disk I/O error"%string
                         7%N example.created))); reflexivity.
Defined.

(** ** The statement cycle day *)

(** X23. The statement cycle day assigned at creation is always one of the
    days 1 to 28, and each of these days is assigned for some draw of the
    random source. *)
Theorem X23_statement_cycle_day_range :
  (forall src, (1 <= assignStatementCycleDay src <= 28)%Z) /\
  (forall day, (1 <= day <= 28)%Z ->
               exists src, (0 <= src < 2 ^ 31)%Z /\
                           assignStatementCycleDay src = day).
Proof.
  unfold assignStatementCycleDay, Intn, maxStatementDay, minStatementDay.
  change (28 - 1 + 1)%Z with 28%Z. split.
  - intros src. pose proof (Z.mod_pos_bound src 28). lia.
  - intros day Hday. exists (day - 1)%Z. split; [lia|].
    rewrite Z.mod_small by lia. lia.
Qed.

Lemma X23_witness :
  exists src, (0 <= src < 2 ^ 31)%Z /\ assignStatementCycleDay src = 28%Z.
Proof.
  apply (proj2 X23_statement_cycle_day_range). lia.
Defined.

(** ** Conservation, loan by loan *)

Lemma toQ_loanNet (id : UUID) (s : SQLiteStore) :
  (toQ (loanNet id s) == netQ (transactionsOf id s))%Q.
Proof.
  unfold loanNet, netQ. cbv zeta.
  rewrite toQ_Sub, toQ_Add, !toQ_sumDecimals. reflexivity.
Qed.

Lemma netQ_nil : (netQ [] == 0)%Q.
Proof. reflexivity. Qed.

(** What one faultless call does to the difference between the net of a
    loan's transactions and its balance: a new loan starts at zero, and for
    a loan that was there the difference does not grow, and stays unless the
    call overpays. *)
Lemma step_loan_gap (s : SQLiteStore) (op : Op) (r' : Loan) :
  wellFormed s -> linked s -> faultless op ->
  In r' (loans (step s op)) ->
  (netQ (transactionsOf (ID r') (step s op)) - toQ (Balance r') == 0)%Q \/
  exists r,
    In r (loans s) /\
    (netQ (transactionsOf (ID r') (step s op)) - toQ (Balance r')
     <= netQ (transactionsOf (ID r) s) - toQ (Balance r))%Q /\
    (overpays s op = false ->
     (netQ (transactionsOf (ID r') (step s op)) - toQ (Balance r')
      == netQ (transactionsOf (ID r) s) - toQ (Balance r))%Q).
Proof.
  intros Hwf Hlinked Hok Hin.
  assert (Hsame : forall r, In r (loans s) ->
            transactionsOf (ID r) (step s op) = transactionsOf (ID r) s ->
            r' = r ->
            exists r0, In r0 (loans s) /\
              (netQ (transactionsOf (ID r') (step s op)) - toQ (Balance r')
               <= netQ (transactionsOf (ID r0) s) - toQ (Balance r0))%Q /\
              (overpays s op = false ->
               (netQ (transactionsOf (ID r') (step s op)) - toQ (Balance r')
                == netQ (transactionsOf (ID r0) s) - toQ (Balance r0))%Q)).
  { intros r Hr Htx ->. exists r. rewrite Htx.
    split; [exact Hr|]. split; [apply Qle_refl|reflexivity]. }
  destruct op as [env k p b v|env|env|env id amount];
    cbn [step faultless] in *.
  - destruct Hok as [Hl Ht].
    destruct (CreateLoan_cases env k p b v s)
      as [[Heq _]|[(_ & _ & _ & Hbad)|(Heq & _ & Hnew & _)]]; [|congruence|];
      rewrite Heq in *; cbn [snd] in *.
    + right. apply (Hsame r'); auto.
    + cbn [loans] in Hin. apply in_app_or in Hin.
      destruct Hin as [Hin|[<-|[]]].
      * right. apply (Hsame r'); auto. unfold transactionsOf.
        cbn [transactions]. rewrite filter_app. cbn [filter LoanID].
        destruct (N.eqb_spec (ce_loanID env) (ID r')) as [Heq'|_];
          [|apply app_nil_r].
        exfalso. rewrite Heq' in Hnew.
        assert (hasLoan (ID r') s = true) by (apply hasLoan_In, in_map, Hin).
        congruence.
      * left. cbn [ID Balance]. unfold transactionsOf at 1. cbn [transactions].
        rewrite filter_app.
        change (filter (fun t => N.eqb (LoanID t) (ce_loanID env)) (transactions s))
          with (transactionsOf (ce_loanID env) s).
        rewrite linked_no_transactions by assumption.
        cbn [filter LoanID app]. rewrite N.eqb_refl.
        unfold netQ, amountsIn.
        cbn [filter map Type_ TransactionType_eqb Amount sumQ]. ring.
  - destruct Hok as [Hl Hupd]. right.
    destruct (CalculateDailyInterest_rows env s Hwf Hl) as [Hrows Htxs].
    rewrite Hrows in Hin. apply in_map_iff in Hin. destruct Hin as (r & <- & Hr).
    exists r. split; [exact Hr|].
    assert (Hid : ID (if isActive r
                      then accrueRow env (Truncate (ae_now env) (24 * Hour)) r
                      else r) = ID r)
      by (destruct (isActive r); [apply accrueRow_ID|reflexivity]).
    assert (Hbal : Balance (if isActive r
                            then accrueRow env (Truncate (ae_now env) (24 * Hour)) r
                            else r) = Balance r)
      by (destruct (isActive r); [apply accrueRow_Balance|reflexivity]).
    rewrite Hid, Hbal. unfold transactionsOf. rewrite Htxs.
    split; [apply Qle_refl|reflexivity].
  - destruct Hok as (Hl & Htx & Hupd). right.
    destruct (ApplyMonthlyInterest_rows env s Hwf Hl) as [Hrows Htxs].
    rewrite Hrows in Hin. apply in_map_iff in Hin. destruct Hin as (r & <- & Hr).
    exists r. split; [exact Hr|].
    destruct (isActive r) eqn:Hact.
    + destruct (ApplyMonthlyInterest_loan env s r Hwf Hr Hact Hl) as [_ Hown].
      rewrite applyRow_ID, Hown, netQ_app.
      unfold applyRow, applyTransactions.
      destruct (due (me_todayDay env) r); rewrite ?Htx, ?Hupd.
      * unfold capitalizedLoan, netQ, amountsIn.
        cbn [filter map Type_ interestTransaction TransactionType_eqb Amount sumQ
               Balance set_AccruedInterest set_UpdatedAt set_Balance].
        rewrite toQ_Add. split; [apply Qle_lteq; right|intros _]; ring.
      * rewrite netQ_nil. split; [apply Qle_lteq; right|intros _]; ring.
    + unfold transactionsOf at 1 3. rewrite Htxs, filter_app.
      rewrite pass_transactions_other.
      * rewrite app_nil_r. split; [apply Qle_refl|reflexivity].
      * intros Hid. apply in_map_iff in Hid. destruct Hid as (x & Hx & Hxin).
        apply filter_In in Hxin. destruct Hxin as [Hxin Hxact].
        assert (x = r) by (apply (row_unique (loans s)); auto). congruence.
  - destruct Hok as (Hget & Hupd & Htx). right.
    destruct (RecordPayment_store env id amount s Hwf)
      as [Heq|(loan & Hl & Hid & Hact & Hgot & _ & Heq)]; rewrite Heq in *.
    + apply (Hsame r'); auto.
    + cbn [loans] in Hin. unfold replaceRow in Hin. apply in_map_iff in Hin.
      destruct Hin as (x & Hx & Hxin). rewrite Htx.
      destruct (N.eqb_spec (ID x) (ID loan)) as [Hxl|Hxl].
      * assert (x = loan) by (apply (row_unique (loans s)); auto). subst x r'.
        exists loan. split; [exact Hl|]. rewrite paidLoan_ID.
        unfold transactionsOf at 1 3. cbn [transactions].
        rewrite filter_app. cbn [filter LoanID paymentTransaction].
        rewrite <- Hid, N.eqb_refl. fold (transactionsOf (ID loan) s).
        rewrite netQ_app, netQ_payment. cbn [overpays]. rewrite Hid, Hgot.
        unfold isActive. rewrite Hact.
        change (String.eqb "active" "active") with true. cbn [andb].
        unfold paidLoan. cbn [Balance set_UpdatedAt set_Balance].
        destruct (LessThanOrEqual (Sub (Balance loan) amount) Zero) eqn:Hle.
        -- cbn [Balance set_UpdatedAt set_Balance set_Status].
           pose proof (proj1 (LessThanOrEqual_toQ _ _) Hle) as Hq.
           rewrite toQ_Sub, toQ_Zero in Hq. rewrite toQ_Zero. split; [lra|].
           intros Hover.
           assert (Heq0 : Cmp (Sub (Balance loan) amount) Zero = Eq).
           { unfold LessThanOrEqual in Hle.
             destruct (Cmp (Sub (Balance loan) amount) Zero); congruence. }
           rewrite Cmp_toQ in Heq0. apply Qeq_alt in Heq0.
           rewrite toQ_Sub, toQ_Zero in Heq0. lra.
        -- cbn [Balance set_UpdatedAt set_Balance]. rewrite toQ_Sub.
           split; [apply Qle_lteq; right|intros _]; ring.
      * subst r'. exists x. split; [exact Hxin|].
        unfold transactionsOf at 1 3. cbn [transactions].
        rewrite filter_app. cbn [filter LoanID paymentTransaction].
        destruct (N.eqb_spec id (ID x)) as [Heq'|_]; [congruence|].
        rewrite app_nil_r. split; [apply Qle_refl|reflexivity].
Qed.

Lemma run_loan_conservation (ops : list Op) : forall s,
  wellFormed s -> linked s -> Forall faultless ops ->
  (forall r, In r (loans s) ->
             (netQ (transactionsOf (ID r) s) - toQ (Balance r) <= 0)%Q) ->
  (forall r, In r (loans (run ops s)) ->
             (netQ (transactionsOf (ID r) (run ops s)) - toQ (Balance r) <= 0)%Q) /\
  ((forall r, In r (loans s) ->
              (netQ (transactionsOf (ID r) s) - toQ (Balance r) == 0)%Q) ->
   noOverpayment s ops = true ->
   forall r, In r (loans (run ops s)) ->
             (netQ (transactionsOf (ID r) (run ops s)) - toQ (Balance r) == 0)%Q).
Proof.
  induction ops as [|op ops IH]; intros s Hwf Hl Hok Hle;
    cbn [run fold_left noOverpayment]; [auto|].
  inversion Hok as [|? ? Hop Hrest]; subst.
  assert (Hwf' : wellFormed (step s op)) by apply step_wellFormed, Hwf.
  assert (Hl' : linked (step s op)) by (apply step_linked; assumption).
  assert (Hle' : forall r, In r (loans (step s op)) ->
            (netQ (transactionsOf (ID r) (step s op)) - toQ (Balance r) <= 0)%Q).
  { intros r' Hr'.
    destruct (step_loan_gap s op r' Hwf Hl Hop Hr') as [H0|(r & Hr & Hstep & _)].
    - rewrite H0. apply Qle_refl.
    - eapply Qle_trans; [exact Hstep|apply Hle, Hr]. }
  destruct (IH (step s op) Hwf' Hl' Hrest Hle') as [IHle IHeq].
  fold (run ops (step s op)). split; [exact IHle|].
  intros Heq Hno. apply andb_prop in Hno. destruct Hno as [Hno1 Hno2].
  apply IHeq; [|exact Hno2]. intros r' Hr'.
  destruct (step_loan_gap s op r' Hwf Hl Hop Hr') as [H0|(r & Hr & _ & Hstep)];
    [exact H0|].
  rewrite Hstep; [apply Heq, Hr|].
  destruct (overpays s op); [discriminate|reflexivity].
Qed.

(** X24. Conservation holds loan by loan.  After every sequence of
    creations, accruals, capitalizations and payments from the empty store
    in which the store answers every call, the disbursement of a loan plus
    its interest transactions minus its payments is at most its balance, and
    equals its balance when no payment exceeded a balance. *)
Theorem X24_conservation_per_loan :
  forall ops,
    Forall faultless ops ->
    forall r, In r (loans (run ops empty)) ->
      LessThanOrEqual (loanNet (ID r) (run ops empty)) (Balance r) = true /\
      (noOverpayment empty ops = true ->
       Equal (loanNet (ID r) (run ops empty)) (Balance r) = true).
Proof.
  intros ops Hok r Hr.
  assert (Hlinked : linked empty) by (intros t []).
  destruct (run_loan_conservation ops empty wellFormed_empty Hlinked Hok)
    as [Hle Heq]; [intros x []|].
  split.
  - apply LessThanOrEqual_toQ. rewrite toQ_loanNet.
    specialize (Hle r Hr). lra.
  - intros Hno. apply Equal_toQ. rewrite toQ_loanNet.
    assert (H0 : forall x, In x (loans empty) ->
              (netQ (transactionsOf (ID x) empty) - toQ (Balance x) == 0)%Q)
      by (intros x []).
    specialize (Heq H0 Hno r Hr). lra.
Qed.

Lemma X24_witness :
  Forall (fun r =>
            LessThanOrEqual (loanNet (ID r) (run example.ops empty)) (Balance r)
            = true /\
            (noOverpayment empty example.ops = true ->
             Equal (loanNet (ID r) (run example.ops empty)) (Balance r) = true))
    (loans (run example.ops empty)).
Proof.
  apply Forall_forall. apply (X24_conservation_per_loan example.ops).
  repeat constructor.
Defined.
